(** * SecureShop: credential and session lifecycle

    A shallow embedding of the authentication core of the SecureShop
    backend:

    - [utils/redis.ts]                 ([checkRateLimit] and the Redis
      commands it and the controllers issue),
    - [middleware/auth.middleware.ts]  (token helpers, [authenticate],
      [optionalAuth], the session blacklist),
    - [controllers/auth.controller.ts] ([login], [refreshToken], [logout]),
    - [config/security.config.ts]      ([passwordConfig], [jwtConfig]),
    - the rest of auth.middleware.ts   ([authorize], [csrfProtection]) and
      of auth.controller.ts            ([resetPassword]),
    - [middleware/error.middleware.ts] ([errorHandler], [formatZodError],
      [handlePrismaError]) and the error path of [validate],
    - [routes/user.routes.ts]          (the change of password),
    - [utils/logger.ts]                ([redactSensitive]) and
      [utils/encryption.ts]            ([maskSensitive]).

    Handlers are written in a small state-and-exception monad over the two
    shared stores (Redis and the user table) and the per-request response
    object.  Wall-clock readings, [randomUUID()] and store availability are
    inputs of a request (record [Env]); a request reads the clock once.

    Three libraries stay outside: jsonwebtoken is modelled symbolically (a
    token is its claims together with the secret that signed it), bcrypt's
    [compare] is a parameter of the handlers, and Prisma and ioredis are
    the two stores, each with a flag that makes its calls reject. *)

From Stdlib Require Import ZArith String Ascii List Bool Lia.
From stdpp Require Import base option gmap strings list pretty.

Local Open Scope string_scope.
Local Open Scope Z_scope.

(** ** Data model *)

(** Epoch milliseconds, as [Date.now()] / [new Date()]. *)
Abbreviation Time := Z (only parsing).

(** A row of the [user] table, restricted to the columns the
    authentication code selects or updates. *)
Record User := mkUser {
  u_id : string;
  u_email : string;
  u_passwordHash : string;
  u_role : string;
  u_firstName : string;
  u_lastName : string;
  u_isActive : bool;
  u_lockedUntil : option Time;
  u_failedLoginAttempts : Z;
  u_emailVerified : bool;
  u_lastLoginAt : option Time
}.

(** [interface TokenPayload] of auth.middleware.ts; [iat] and [exp] are in
    seconds, as jsonwebtoken writes them. *)
Record TokenPayload := mkPayload {
  p_userId : string;
  p_email : string;
  p_role : string;
  p_sessionId : string;
  p_iat : Z;
  p_exp : Z
}.

(** The object both controllers serialise into [session:<id>]. *)
Record SessionData := mkSession {
  s_userId : string;
  s_createdAt : Time;
  s_ip : string;
  s_userAgent : string
}.

(** [class AppError] of error.middleware.ts: message, HTTP status, code. *)
Record AppError := mkAppError {
  ae_message : string;
  ae_statusCode : Z;
  ae_code : string
}.

(** Everything a handler can throw: an [AppError], the two error classes
    of jsonwebtoken that [authenticate] tells apart, and a rejected store
    call (Redis or Prisma unreachable). *)
Inductive exn :=
| EApp (e : AppError)
| ETokenExpired
| EJsonWebToken (msg : string)
| EStore (what : string).

(** ** jsonwebtoken, symbolically

    A token is either a string that is no JWT at all, or a set of claims
    together with the secret, issuer and audience it was signed with.
    [jwt_verify] checks, in the library's order: shape, signature, expiry,
    audience, issuer. *)
Inductive Token :=
| Opaque (s : string)
| Jwt (secret issuer audience : string) (claims : TokenPayload).

Inductive JwtResult :=
| JwtOk (p : TokenPayload)
| JwtExpired
| JwtError (msg : string).

Definition jwt_sign (userId email role sessionId : string)
    (secret : string) (expiresIn : Z) (issuer audience : string)
    (now : Time) : Token :=
  let iat := now / 1000 in
  Jwt secret issuer audience
      (mkPayload userId email role sessionId iat (iat + expiresIn)).

Definition jwt_verify (t : Token) (secret issuer audience : string)
    (now : Time) : JwtResult :=
  match t with
  | Opaque _ => JwtError "jwt malformed"
  | Jwt s iss aud p =>
      if negb (String.eqb s secret) then JwtError "invalid signature"
      else if p_exp p <=? now / 1000 then JwtExpired
      else if negb (String.eqb aud audience) then JwtError "jwt audience invalid"
      else if negb (String.eqb iss issuer) then JwtError "jwt issuer invalid"
      else JwtOk p
  end.

(** JavaScript truthiness of a cookie value: absent and the empty string
    are falsy. *)
Definition token_present (t : option Token) : bool :=
  match t with
  | None => false
  | Some (Opaque s) => negb (String.eqb s "")
  | Some (Jwt _ _ _ _) => true
  end.

(** ** Redis

    One key space.  A value is the text written by [SETEX] (here: the
    literal ['true'] of the blacklist), the JSON text of a session object,
    or an integer counter maintained by [INCR].  Every entry carries its
    optional expiry instant; an entry whose expiry has been reached is
    gone for every command. *)
Inductive rvalue :=
| VText (s : string)
| VJson (d : SessionData)
| VInt (n : Z).

Record rentry := mkEntry {
  e_val : rvalue;
  e_expireAt : option Time
}.

Definition entry_live (now : Time) (e : rentry) : bool :=
  match e_expireAt e with
  | None => true
  | Some t => now <? t
  end.

Definition rlive (now : Time) (r : gmap string rentry) (k : string)
    : option rentry :=
  match r !! k with
  | Some e => if entry_live now e then Some e else None
  | None => None
  end.

(** GET *)
Definition redis_get (now : Time) (r : gmap string rentry) (k : string)
    : option rvalue :=
  e_val <$> rlive now r k.

(** SETEX key seconds value *)
Definition redis_setex (now : Time) (k : string) (seconds : Z) (v : rvalue)
    (r : gmap string rentry) : gmap string rentry :=
  <[k := mkEntry v (Some (now + seconds * 1000))]> r.

(** DEL *)
Definition redis_del (k : string) (r : gmap string rentry)
    : gmap string rentry :=
  delete k r.

(** INCR: a missing key counts from zero and gets no expiry; a counter
    keeps its expiry; a value that is no integer is left alone and the
    reply is an error ([None]). *)
Definition redis_incr (now : Time) (k : string) (r : gmap string rentry)
    : option Z * gmap string rentry :=
  match rlive now r k with
  | None => (Some 1, <[k := mkEntry (VInt 1) None]> r)
  | Some (mkEntry (VInt n) ex) => (Some (n + 1), <[k := mkEntry (VInt (n + 1)) ex]> r)
  | Some _ => (None, r)
  end.

(** TTL: -2 for a missing key, -1 for a key without expiry, otherwise the
    remaining time rounded to seconds. *)
Definition redis_ttl (now : Time) (r : gmap string rentry) (k : string) : Z :=
  match rlive now r k with
  | None => -2
  | Some e =>
      match e_expireAt e with
      | None => -1
      | Some t => (t - now + 500) / 1000
      end
  end.

(** EXPIRE key seconds *)
Definition redis_expire (now : Time) (k : string) (seconds : Z)
    (r : gmap string rentry) : gmap string rentry :=
  match rlive now r k with
  | Some e => <[k := mkEntry (e_val e) (Some (now + seconds * 1000))]> r
  | None => r
  end.

(** ** Handler monad *)

Inductive CookieOp :=
| SetCookie (name : string) (value : Token)
| ClearCookie (name path : string).

Inductive Event :=
| EvBcryptCompare (password hash : string)
| EvSecurityLog (level message : string)
| EvAudit (event userId : string).

(** [req.user] *)
Record Identity := mkIdentity {
  i_id : string;
  i_email : string;
  i_role : string
}.

(** The shared stores. *)
Record World := mkWorld {
  redis : gmap string rentry;
  db : list User
}.

(** What one request accumulates: cookie operations on [res], [req.user],
    and the calls to bcrypt and the loggers, oldest first. *)
Record Ctx := mkCtx {
  cookies : list CookieOp;
  user : option Identity;
  effects : list Event
}.

Record St := mkSt {
  world : World;
  ctx : Ctx
}.

(** The inputs of one request that are not part of any store. *)
Record Env := mkEnv {
  now : Time;
  uuid : string;
  redisUp : bool;
  dbUp : bool
}.

Definition M (A : Type) : Type := St -> (exn + A) * St.

Definition ret {A} (a : A) : M A := fun s => (inr a, s).
Definition throw {A} (e : exn) : M A := fun s => (inl e, s).
Definition bind {A B} (m : M A) (k : A -> M B) : M B :=
  fun s => match m s with
           | (inr a, s') => k a s'
           | (inl e, s') => (inl e, s')
           end.
(** [try { body } catch (e) { handler(e) }] *)
Definition try_catch {A} (body : M A) (handler : exn -> M A) : M A :=
  fun s => match body s with
           | (inr a, s') => (inr a, s')
           | (inl e, s') => handler e s'
           end.

Notation "'let!' x ':=' m 'in' k" := (bind m (fun x => k))
  (at level 10, x name, m at level 100, k at level 200).
Notation "'exec!' m 'in' k" := (bind m (fun _ => k))
  (at level 10, m at level 100, k at level 200).

Definition get_redis : M (gmap string rentry) := fun s => (inr (redis (world s)), s).
Definition get_db : M (list User) := fun s => (inr (db (world s)), s).
Definition put_redis (r : gmap string rentry) : M unit :=
  fun s => (inr tt, mkSt (mkWorld r (db (world s))) (ctx s)).
Definition put_db (d : list User) : M unit :=
  fun s => (inr tt, mkSt (mkWorld (redis (world s)) d) (ctx s)).
Definition emit (ev : Event) : M unit :=
  fun s => (inr tt, mkSt (world s)
                         (mkCtx (cookies (ctx s)) (user (ctx s))
                                (effects (ctx s) ++ [ev]))).
Definition res_cookie (c : CookieOp) : M unit :=
  fun s => (inr tt, mkSt (world s)
                         (mkCtx (cookies (ctx s) ++ [c]) (user (ctx s))
                                (effects (ctx s)))).
Definition set_req_user (i : Identity) : M unit :=
  fun s => (inr tt, mkSt (world s)
                         (mkCtx (cookies (ctx s)) (Some i) (effects (ctx s)))).

(** A Redis command is a suspension point that rejects when the store is
    unreachable. *)
Definition redis_call {A} (env : Env) (m : M A) : M A :=
  if redisUp env then m else throw (EStore "redis").
Definition prisma_call {A} (env : Env) (m : M A) : M A :=
  if dbUp env then m else throw (EStore "prisma").

(** ** utils/redis.ts *)

Record RateLimit := mkRateLimit {
  allowed : bool;
  remaining : option Z;   (* [None] is NaN: the INCR reply was an error *)
  resetAt : Time
}.

(** [checkRateLimit]: MULTI { INCR; TTL } EXEC, then EXPIRE when the
    counter has no expiry yet. *)
Definition checkRateLimit (env : Env) (key : string)
    (maxAttempts windowSeconds : Z) : M RateLimit :=
  let fullKey := "ratelimit:" +:+ key in
  let! results := redis_call env
      (let! r := get_redis in
       let '(count, r1) := redis_incr (now env) fullKey r in
       let ttl := redis_ttl (now env) r1 fullKey in
       exec! put_redis r1 in
       ret (count, ttl)) in
  let '(count, ttl) := results in
  exec! (if ttl =? -1
         then redis_call env
                (let! r := get_redis in
                 put_redis (redis_expire (now env) fullKey windowSeconds r))
         else ret tt) in
  let remaining := (fun c => Z.max 0 (maxAttempts - c)) <$> count in
  let resetAt := now env + (if 0 <? ttl then ttl else windowSeconds) * 1000 in
  ret (mkRateLimit
         (match count with Some c => c <=? maxAttempts | None => false end)
         remaining resetAt).

(** ** config/security.config.ts *)

(** [jwtConfig]: the two secrets come from the environment, the lifetimes
    (['15m'] and ['7d'] by default) are given in seconds. *)
Record JwtConfig := mkJwtConfig {
  accessSecret : string;
  accessExpiresIn : Z;
  refreshSecret : string;
  refreshExpiresIn : Z
}.

Definition issuer : string := "secureshop-api".
Definition audience : string := "secureshop-client".

(** [passwordConfig] *)
Definition maxLoginAttempts : Z := 5.
Definition lockoutDuration : Z := 30 * 60 * 1000.

(** ** The user table (Prisma) *)

Definition findUniqueByEmail (email : string) (d : list User) : option User :=
  List.find (fun u => String.eqb (u_email u) email) d.

Definition findUniqueById (id : string) (d : list User) : option User :=
  List.find (fun u => String.eqb (u_id u) id) d.

Definition update_rows (id : string) (f : User -> User) (d : list User)
    : list User :=
  List.map (fun u => if String.eqb (u_id u) id then f u else u) d.

(** [prisma.user.update({ where: { id }, data })]: rejects when no row has
    that id. *)
Definition prisma_update (env : Env) (id : string) (f : User -> User)
    : M unit :=
  prisma_call env
    (let! d := get_db in
     match findUniqueById id d with
     | Some _ => put_db (update_rows id f d)
     | None => throw (EStore "prisma: record to update not found")
     end).

Definition set_failed (n : Z) (lock : option Time) (u : User) : User :=
  mkUser (u_id u) (u_email u) (u_passwordHash u) (u_role u) (u_firstName u)
         (u_lastName u) (u_isActive u) lock n (u_emailVerified u)
         (u_lastLoginAt u).

Definition set_lastLogin (t : Time) (u : User) : User :=
  mkUser (u_id u) (u_email u) (u_passwordHash u) (u_role u) (u_firstName u)
         (u_lastName u) (u_isActive u) (u_lockedUntil u)
         (u_failedLoginAttempts u) (u_emailVerified u) (Some t).

(** [user.lockedUntil && user.lockedUntil > new Date()] *)
Definition is_locked (now : Time) (u : User) : bool :=
  match u_lockedUntil u with
  | Some t => now <? t
  | None => false
  end.

(** ** The request *)

Record Request := mkRequest {
  cookie_access : option Token;    (* req.cookies.access_token *)
  cookie_refresh : option Token;   (* req.cookies.refresh_token *)
  bearer : option Token;           (* what follows 'Bearer ' in Authorization *)
  body_email : string;
  body_password : string;
  body_rememberMe : bool;
  req_ip : option string;
  req_userAgent : string
}.

(** [req.ip || 'unknown'] *)
Definition clientIp (req : Request) : string :=
  match req_ip req with
  | Some s => if String.eqb s "" then "unknown" else s
  | None => "unknown"
  end.

(** The token [authenticate] verifies:
    [let token = req.cookies?.access_token;
     if (!token && req.headers.authorization?.startsWith('Bearer '))
       token = req.headers.authorization.substring(7);] *)
Definition presented_token (req : Request) : option Token :=
  if negb (token_present (cookie_access req))
  then match bearer req with
       | Some b => Some b
       | None => cookie_access req
       end
  else cookie_access req.

Inductive Body :=
| BodyMessage (message : string)
| BodyLogin (message id email firstName lastName role : string)
            (emailVerified : bool).

Section Handlers.

(** [bcrypt.compare] is the library's; the handlers only branch on its
    answer. *)
Variable bcrypt_compare : string -> string -> bool.

(** The process environment ([JWT_ACCESS_SECRET] and friends). *)
Variable cfg : JwtConfig.

Definition bcrypt_compare_call (password hash : string) : M bool :=
  exec! emit (EvBcryptCompare password hash) in
  ret (bcrypt_compare password hash).

(** ** middleware/auth.middleware.ts *)

Definition generateAccessToken (userId email role sessionId : string)
    (now : Time) : Token :=
  jwt_sign userId email role sessionId (accessSecret cfg)
           (accessExpiresIn cfg) issuer audience now.

Definition generateRefreshToken (userId email role sessionId : string)
    (now : Time) : Token :=
  jwt_sign userId email role sessionId (refreshSecret cfg)
           (refreshExpiresIn cfg) issuer audience now.

Definition lift_jwt (r : JwtResult) : M TokenPayload :=
  match r with
  | JwtOk p => ret p
  | JwtExpired => throw ETokenExpired
  | JwtError msg => throw (EJsonWebToken msg)
  end.

Definition verifyAccessToken (env : Env) (token : Token) : M TokenPayload :=
  lift_jwt (jwt_verify token (accessSecret cfg) issuer audience (now env)).

Definition verifyRefreshToken (env : Env) (token : Token) : M TokenPayload :=
  lift_jwt (jwt_verify token (refreshSecret cfg) issuer audience (now env)).

Definition setAuthCookies (accessToken refreshToken : Token) : M unit :=
  exec! res_cookie (SetCookie "access_token" accessToken) in
  res_cookie (SetCookie "refresh_token" refreshToken).

Definition clearAuthCookies : M unit :=
  exec! res_cookie (ClearCookie "access_token" "/") in
  res_cookie (ClearCookie "refresh_token" "/api/v1/auth/refresh").

Definition blacklist_key (sessionId : string) : string :=
  "blacklist:session:" +:+ sessionId.

Definition session_key (sessionId : string) : string :=
  "session:" +:+ sessionId.

(** [blacklisted !== null] *)
Definition isSessionBlacklisted (env : Env) (sessionId : string) : M bool :=
  redis_call env
    (let! r := get_redis in
     ret (match redis_get (now env) r (blacklist_key sessionId) with
          | Some _ => true
          | None => false
          end)).

(** [blacklistSession(sessionId, expiresIn = 7 * 24 * 60 * 60)] *)
Definition blacklistSession (env : Env) (sessionId : string)
    (expiresIn : Z) : M unit :=
  redis_call env
    (let! r := get_redis in
     put_redis (redis_setex (now env) (blacklist_key sessionId) expiresIn
                            (VText "true") r)).

Definition blacklist_default_ttl : Z := 7 * 24 * 60 * 60.

(** The token a middleware reads; only consulted once [token_present]
    holds. *)
Definition token_value (t : option Token) : Token :=
  match t with
  | Some tok => tok
  | None => Opaque ""
  end.

(** [authenticate]: the value returned is the argument handed to [next]
    ([None] for [next()]). *)
Definition authenticate (env : Env) (req : Request) : M (option exn) :=
  try_catch
    (let token := presented_token req in
     if negb (token_present token)
     then throw (EApp (mkAppError "Authentication required" 401 "UNAUTHORIZED"))
     else
     let! payload := verifyAccessToken env (token_value token) in
     let! blacklisted := isSessionBlacklisted env (p_sessionId payload) in
     if blacklisted
     then exec! clearAuthCookies in
          throw (EApp (mkAppError "Session expired. Please log in again." 401
                                  "SESSION_EXPIRED"))
     else
     let! found := prisma_call env
                     (let! d := get_db in
                      ret (findUniqueById (p_userId payload) d)) in
     match found with
     | None => throw (EApp (mkAppError "User not found" 401 "USER_NOT_FOUND"))
     | Some u =>
         if negb (u_isActive u)
         then throw (EApp (mkAppError "Account is deactivated" 403
                                      "ACCOUNT_DEACTIVATED"))
         else if is_locked (now env) u
         then throw (EApp (mkAppError "Account is temporarily locked" 403
                                      "ACCOUNT_LOCKED"))
         else
           exec! set_req_user (mkIdentity (u_id u) (u_email u) (u_role u)) in
           exec! emit (EvSecurityLog "debug" "Authentication successful") in
           ret None
     end)
    (fun error =>
       match error with
       | ETokenExpired =>
           exec! clearAuthCookies in
           ret (Some (EApp (mkAppError "Token expired. Please log in again."
                                       401 "TOKEN_EXPIRED")))
       | EJsonWebToken _ =>
           exec! clearAuthCookies in
           exec! emit (EvSecurityLog "warn" "Invalid token attempt") in
           ret (Some (EApp (mkAppError "Invalid token" 401 "INVALID_TOKEN")))
       | _ => ret (Some error)
       end).

(** [optionalAuth] *)
Definition optionalAuth (env : Env) (req : Request) : M (option exn) :=
  try_catch
    (let token := cookie_access req in
     if negb (token_present token)
     then ret None
     else
     let! payload := verifyAccessToken env (token_value token) in
     let! blacklisted := isSessionBlacklisted env (p_sessionId payload) in
     if blacklisted
     then exec! clearAuthCookies in ret None
     else
     let! found := prisma_call env
                     (let! d := get_db in
                      ret (findUniqueById (p_userId payload) d)) in
     exec! match found with
           | Some u =>
               if u_isActive u
               then set_req_user (mkIdentity (u_id u) (u_email u) (u_role u))
               else ret tt
           | None => ret tt
           end in
     ret None)
    (fun _ => ret None).

(** ** controllers/auth.controller.ts *)

Definition dummy_hash : string :=
  "$2a$12$dummy.hash.for.timing.attack.prevention".

Definition genericError : AppError :=
  mkAppError "Invalid email or password" 401 "INVALID_CREDENTIALS".

(** [login], in source order, cut at two of its suspension points: the
    rate-limit gate, the [findUnique] that reads the account row, and
    everything from [if (!user)] on. *)
Definition login_gate (env : Env) (req : Request) : M unit :=
  let email := body_email req in
  let clientIp := clientIp req in
  let rateLimitKey := "login:" +:+ clientIp +:+ ":" +:+ email in
  let! rateLimit := checkRateLimit env rateLimitKey 5 (15 * 60) in
  if negb (allowed rateLimit)
  then exec! emit (EvSecurityLog "warn" "Login rate limit exceeded") in
       throw (EApp (mkAppError
                      "Too many login attempts. Please try again later."
                      429 "RATE_LIMITED"))
  else ret tt.

Definition login_lookup (env : Env) (req : Request) : M (option User) :=
  prisma_call env
    (let! d := get_db in ret (findUniqueByEmail (body_email req) d)).

Definition login_check (env : Env) (req : Request) (found : option User)
    : M Body :=
  let password := body_password req in
  let rememberMe := body_rememberMe req in
  let clientIp := clientIp req in
  match found with
  | None =>
      exec! bcrypt_compare_call password dummy_hash in
      throw (EApp genericError)
  | Some u =>
      if is_locked (now env) u
      then exec! emit (EvSecurityLog "warn" "Login attempt on locked account") in
           throw (EApp (mkAppError
                          "Account is temporarily locked. Please try again later."
                          403 "ACCOUNT_LOCKED"))
      else if negb (u_isActive u)
      then throw (EApp (mkAppError "Account is deactivated" 403
                                   "ACCOUNT_DEACTIVATED"))
      else
      let! isValidPassword := bcrypt_compare_call password (u_passwordHash u) in
      if negb isValidPassword
      then
        let failedAttempts := u_failedLoginAttempts u + 1 in
        let shouldLock := maxLoginAttempts <=? failedAttempts in
        exec! prisma_update env (u_id u)
                (set_failed failedAttempts
                   (if shouldLock then Some (now env + lockoutDuration)
                    else None)) in
        exec! emit (EvSecurityLog "warn" "Failed login attempt") in
        exec! emit (EvAudit "auth.failed_login" (u_id u)) in
        throw (EApp genericError)
      else
        exec! (if 0 <? u_failedLoginAttempts u
               then prisma_update env (u_id u) (set_failed 0 None)
               else ret tt) in
        let sessionId := uuid env in
        let accessToken :=
          generateAccessToken (u_id u) (u_email u) (u_role u) sessionId
                              (now env) in
        let refreshToken :=
          generateRefreshToken (u_id u) (u_email u) (u_role u) sessionId
                               (now env) in
        exec! redis_call env
                (let! r := get_redis in
                 put_redis
                   (redis_setex (now env) (session_key sessionId)
                      (if rememberMe then 30 * 24 * 60 * 60 else 24 * 60 * 60)
                      (VJson (mkSession (u_id u) (now env) clientIp
                                        (req_userAgent req)))
                      r)) in
        exec! setAuthCookies accessToken refreshToken in
        exec! prisma_update env (u_id u) (set_lastLogin (now env)) in
        exec! emit (EvAudit "auth.login" (u_id u)) in
        ret (BodyLogin "Login successful" (u_id u) (u_email u)
                       (u_firstName u) (u_lastName u) (u_role u)
                       (u_emailVerified u))
  end.

Definition login (env : Env) (req : Request) : M Body :=
  exec! login_gate env req in
  let! found := login_lookup env req in
  login_check env req found.

(** JavaScript truthiness of what [redis.get] resolved to. *)
Definition value_truthy (v : option rvalue) : bool :=
  match v with
  | None => false
  | Some (VText s) => negb (String.eqb s "")
  | Some _ => true
  end.

(** [refreshToken] *)
Definition refreshToken (env : Env) (req : Request) : M Body :=
  let token := cookie_refresh req in
  if negb (token_present token)
  then throw (EApp (mkAppError "Refresh token not provided" 401
                               "NO_REFRESH_TOKEN"))
  else
  let! payload := verifyRefreshToken env (token_value token) in
  let! session := redis_call env
                    (let! r := get_redis in
                     ret (redis_get (now env) r
                                    (session_key (p_sessionId payload)))) in
  if negb (value_truthy session)
  then exec! clearAuthCookies in
       throw (EApp (mkAppError "Session expired" 401 "SESSION_EXPIRED"))
  else
  let! found := prisma_call env
                  (let! d := get_db in
                   ret (findUniqueById (p_userId payload) d)) in
  match found with
  | Some u =>
      if negb (u_isActive u)
      then exec! clearAuthCookies in
           throw (EApp (mkAppError "User not found or inactive" 401
                                   "USER_INVALID"))
      else
      let newSessionId := uuid env in
      let newAccessToken :=
        generateAccessToken (u_id u) (u_email u) (u_role u) newSessionId
                            (now env) in
      let newRefreshToken :=
        generateRefreshToken (u_id u) (u_email u) (u_role u) newSessionId
                             (now env) in
      exec! redis_call env
              (let! r := get_redis in
               put_redis (redis_del (session_key (p_sessionId payload)) r)) in
      exec! redis_call env
              (let! r := get_redis in
               put_redis
                 (redis_setex (now env) (session_key newSessionId)
                    (7 * 24 * 60 * 60)
                    (VJson (mkSession (u_id u) (now env)
                                      (default "" (req_ip req))
                                      (req_userAgent req)))
                    r)) in
      exec! setAuthCookies newAccessToken newRefreshToken in
      exec! emit (EvAudit "auth.token_refresh" (u_id u)) in
      ret (BodyMessage "Token refreshed successfully")
  | None =>
      exec! clearAuthCookies in
      throw (EApp (mkAppError "User not found or inactive" 401 "USER_INVALID"))
  end.

(** [logout] *)
Definition logout (env : Env) (req : Request) : M Body :=
  let token := cookie_refresh req in
  exec! (if token_present token
         then try_catch
                (let! payload := verifyRefreshToken env (token_value token) in
                 exec! blacklistSession env (p_sessionId payload)
                         blacklist_default_ttl in
                 exec! redis_call env
                         (let! r := get_redis in
                          put_redis
                            (redis_del (session_key (p_sessionId payload)) r)) in
                 emit (EvAudit "auth.logout" (p_userId payload)))
                (fun _ => ret tt)
         else ret tt) in
  exec! clearAuthCookies in
  ret (BodyMessage "Logged out successfully").

End Handlers.

(** ** Running a request

    Every request starts with an untouched response and no [req.user].
    [asyncHandler] hands a rejection to [next]; a middleware returns the
    argument it gave to [next] itself. *)

Definition fresh_ctx : Ctx := mkCtx [] None [].

Inductive Outcome :=
| Responded (b : Body)
| NextError (e : exn)
| NextOk.

Record Reply := mkReply {
  outcome : Outcome;
  reply_ctx : Ctx;
  after : World
}.

Definition asyncHandler (h : M Body) (w : World) : Reply :=
  match h (mkSt w fresh_ctx) with
  | (inr b, s) => mkReply (Responded b) (ctx s) (world s)
  | (inl e, s) => mkReply (NextError e) (ctx s) (world s)
  end.

Definition middleware (h : M (option exn)) (w : World) : Reply :=
  match h (mkSt w fresh_ctx) with
  | (inr None, s) => mkReply NextOk (ctx s) (world s)
  | (inr (Some e), s) => mkReply (NextError e) (ctx s) (world s)
  | (inl e, s) => mkReply (NextError e) (ctx s) (world s)
  end.

(** ** Vocabulary of the statements *)

(** Consecutive [login] requests against the shared stores. *)
Fixpoint run_logins (bc : string -> string -> bool) (cfg : JwtConfig)
    (attempts : list (Env * Request)) (w : World) : list Reply * World :=
  match attempts with
  | [] => ([], w)
  | (env, req) :: rest =>
      let rp := asyncHandler (login bc cfg env req) w in
      let '(rps, w') := run_logins bc cfg rest (after rp) in
      (rp :: rps, w')
  end.

(** The rate-limit key [login] builds for a request. *)
Definition login_rate_key (req : Request) : string :=
  "ratelimit:" +:+ ("login:" +:+ clientIp req +:+ ":" +:+ body_email req).

(** The counter a key currently holds, as [INCR] sees it: zero when the
    key is missing or expired, nothing when the value is no integer. *)
Definition rate_count (now : Time) (r : gmap string rentry) (k : string)
    : option Z :=
  match rlive now r k with
  | None => Some 0
  | Some e => match e_val e with VInt n => Some n | _ => None end
  end.

(** Whether the rate limiter lets a login request through. *)
Definition passes_rate_limit (env : Env) (req : Request) (w : World) : bool :=
  match checkRateLimit env ("login:" +:+ clientIp req +:+ ":" +:+ body_email req)
                       5 (15 * 60) (mkSt w fresh_ctx) with
  | (inr rl, _) => allowed rl
  | (inl _, _) => false
  end.

(** What [INCR] then [EXPIRE-if-no-TTL] leave under the key. *)
Definition bump (now : Time) (windowSeconds : Z) (r : gmap string rentry)
    (k : string) : gmap string rentry :=
  let r1 := snd (redis_incr now k r) in
  if redis_ttl now r1 k =? -1
  then redis_expire now k windowSeconds r1
  else r1.

Definition gate_world (env : Env) (req : Request) (w : World) : World :=
  mkWorld (bump (now env) (15 * 60) (redis w) (login_rate_key req)) (db w).

(** Requests of one client, all arriving before the counter's expiry [t]. *)
Definition in_window (k : string) (t : Time) (a : Env * Request) : Prop :=
  login_rate_key (snd a) = k ∧ redisUp (fst a) = true ∧ now (fst a) < t.

(** A request for account [u] that carries a password bcrypt rejects,
    while the user table is reachable. *)
Definition wrong_password_attempt (bc : string -> string -> bool) (u : User)
    (a : Env * Request) : Prop :=
  body_email (snd a) = u_email u
  ∧ bc (body_password (snd a)) (u_passwordHash u) = false
  ∧ dbUp (fst a) = true.

(** Every request of the run gets past the rate limiter in the world it
    meets. *)
Fixpoint all_admitted (bc : string -> string -> bool) (cfg : JwtConfig)
    (attempts : list (Env * Request)) (w : World) : Prop :=
  match attempts with
  | [] => True
  | (env, req) :: rest =>
      passes_rate_limit env req w = true
      ∧ all_admitted bc cfg rest (after (asyncHandler (login bc cfg env req) w))
  end.

(** How often a request called [bcrypt.compare]. *)
Definition bcrypt_calls (evs : list Event) : nat :=
  length (List.filter (fun ev => match ev with
                            | EvBcryptCompare _ _ => true
                            | _ => false
                            end) evs).

(** bcryptjs is outside the repository.  Its [compare(s, hash)] answers
    [false] on the next tick when [hash.length !== 60], without hashing
    anything; only for a hash of 60 characters does it run bcrypt's key
    setup on [s] (2^12 rounds at the configured [bcryptRounds] of 12) and
    compare the result with [hash]. *)
Definition compare_hashes (hash : string) : bool :=
  Nat.eqb (String.length hash) 60.

(** The calls of [bcrypt.compare] that run the hash function. *)
Definition hashing_calls (evs : list Event) : nat :=
  length (List.filter (fun ev => match ev with
                            | EvBcryptCompare _ hash => compare_hashes hash
                            | _ => false
                            end) evs).

Definition rateLimited : AppError :=
  mkAppError "Too many login attempts. Please try again later." 429
             "RATE_LIMITED".

Definition accountLocked : AppError :=
  mkAppError "Account is temporarily locked. Please try again later." 403
             "ACCOUNT_LOCKED".

Definition sessionExpired : AppError :=
  mkAppError "Session expired. Please log in again." 401 "SESSION_EXPIRED".

Definition sessionGone : AppError :=
  mkAppError "Session expired" 401 "SESSION_EXPIRED".

Definition clear_both : list CookieOp :=
  [ClearCookie "access_token" "/";
   ClearCookie "refresh_token" "/api/v1/auth/refresh"].

(** The counter is never negative, and a lockout instant is only ever
    stored next to a positive counter: [login] sets the instant together
    with a counter of at least [maxLoginAttempts] and clears both
    together. *)
Definition counter_consistent (u : User) : Prop :=
  0 <= u_failedLoginAttempts u
  ∧ (u_failedLoginAttempts u = 0 -> u_lockedUntil u = None).

(** ** Concurrent logins

    Requests run concurrently and interleave at their suspension points.
    For the account row the decisive one lies between the [findUnique]
    that reads it and the [update] that writes the counter back: a
    request holds the row it read in a local variable while other
    requests run. *)

Inductive Thread :=
| Arrived (env : Env) (req : Request)
| HoldsRow (env : Env) (req : Request) (found : option User) (c : Ctx)
| Finished (result : exn + Body) (c : Ctx).

(** [login] up to and including the read of the account row. *)
Definition login_read (env : Env) (req : Request) : M (option User) :=
  exec! login_gate env req in login_lookup env req.

(** One scheduling step of one request: from arrival to the resolved
    [findUnique], or from there to the response. *)
Definition thread_step (bc : string -> string -> bool) (cfg : JwtConfig)
    (th : Thread) (w : World) : Thread * World :=
  match th with
  | Arrived env req =>
      match login_read env req (mkSt w fresh_ctx) with
      | (inr found, s) => (HoldsRow env req found (ctx s), world s)
      | (inl e, s) => (Finished (inl e) (ctx s), world s)
      end
  | HoldsRow env req found c =>
      match login_check bc cfg env req found (mkSt w c) with
      | (result, s) => (Finished result (ctx s), world s)
      end
  | Finished result c => (Finished result c, w)
  end.

(** A schedule names, step by step, the request that runs next.  The
    result is the requests' final states and every world the run passed
    through, the initial one first. *)
Fixpoint run_schedule (bc : string -> string -> bool) (cfg : JwtConfig)
    (schedule : list nat) (ths : list Thread) (w : World)
    : list Thread * list World :=
  match schedule with
  | [] => (ths, [w])
  | i :: rest =>
      match ths !! i with
      | Some th =>
          let '(th', w') := thread_step bc cfg th w in
          let '(ths', ws) := run_schedule bc cfg rest (<[i := th']> ths) w' in
          (ths', w :: ws)
      | None =>
          let '(ths', ws) := run_schedule bc cfg rest ths w in
          (ths', w :: ws)
      end
  end.

Definition lockout_set (email : string) (w : World) : bool :=
  match findUniqueByEmail email (db w) with
  | Some u => match u_lockedUntil u with Some _ => true | None => false end
  | None => false
  end.

(** How often the account went from unlocked to locked along a run. *)
Fixpoint lock_transitions (email : string) (ws : list World) : nat :=
  match ws with
  | w :: ((w' :: _) as rest) =>
      ((if negb (lockout_set email w) && lockout_set email w' then 1 else 0)
       + lock_transitions email rest)%nat
  | _ => 0%nat
  end.

Definition failed_with (e : AppError) (th : Thread) : bool :=
  match th with
  | Finished (inl (EApp e')) _ =>
      String.eqb (ae_code e') (ae_code e)
  | _ => false
  end.

Definition finished (th : Thread) : nat :=
  match th with
  | Finished _ _ => 1
  | _ => 0
  end.

Fixpoint finished_count (ths : list Thread) : nat :=
  match ths with
  | [] => 0
  | th :: rest => finished th + finished_count rest
  end%nat.

Definition below (B : Z) (u : User) : Prop := u_failedLoginAttempts u <= B.

(** The row a suspended request holds obeys the bound too. *)
Definition holds_below (B : Z) (th : Thread) : Prop :=
  match th with
  | HoldsRow _ _ (Some u) _ => below B u
  | _ => True
  end.

(** ** More vocabulary: what a request leaves alone *)

(** The columns of an account row that [login] has no business with. *)
Definition fixed_columns (u : User)
    : string * string * string * string * string * string * bool * bool :=
  (u_id u, u_email u, u_passwordHash u, u_role u, u_firstName u,
   u_lastName u, u_isActive u, u_emailVerified u).

(** Row [y] is row [x], or it is the row with id [id] with nothing but
    its counter, lockout instant and last-login instant changed. *)
Definition same_or_touched (id : string) (x y : User) : Prop :=
  y = x \/ (u_id x = id /\ fixed_columns y = fixed_columns x).

(** The lifetime in seconds [login] gives a session. *)
Definition session_ttl (rememberMe : bool) : Z :=
  if rememberMe then 30 * 24 * 60 * 60 else 24 * 60 * 60.

Definition invalidToken : AppError :=
  mkAppError "Invalid token" 401 "INVALID_TOKEN".

Definition tokenExpired : AppError :=
  mkAppError "Token expired. Please log in again." 401 "TOKEN_EXPIRED".

Definition accountLockedNow : AppError :=
  mkAppError "Account is temporarily locked" 403 "ACCOUNT_LOCKED".

Definition accountDeactivated : AppError :=
  mkAppError "Account is deactivated" 403 "ACCOUNT_DEACTIVATED".

(** The row [login] leaves behind for the account it let in. *)
Definition after_login_row (now : Time) (u : User) : User :=
  set_lastLogin now
    (if 0 <? u_failedLoginAttempts u then set_failed 0 None u else u).

(** Whether the character occurs in the string. *)
Fixpoint mentions (c : Ascii.ascii) (s : string) : bool :=
  match s with
  | EmptyString => false
  | String a rest => if Ascii.eqb a c then true else mentions c rest
  end.

(** ** middleware/auth.middleware.ts: [authorize] *)

Definition get_req_user : M (option Identity) :=
  fun s => (inr (user (ctx s)), s).

(** [authorize(...allowedRoles)]: the value returned is the argument handed
    to [next]. *)
Definition authorize (allowedRoles : list string) : M (option exn) :=
  let! u := get_req_user in
  match u with
  | None =>
      ret (Some (EApp (mkAppError "Authentication required" 401
                                  "UNAUTHORIZED")))
  | Some i =>
      if negb (existsb (String.eqb (i_role i)) allowedRoles)
      then exec! emit (EvSecurityLog "warn" "Authorization failed") in
           ret (Some (EApp (mkAppError "Insufficient permissions" 403
                                       "FORBIDDEN")))
      else ret None
  end.

(** The middlewares of one route: Express runs them in the order given on
    the same [req] and [res]; [next(error)] skips the rest. *)
Fixpoint route (stack : list (M (option exn))) : M (option exn) :=
  match stack with
  | [] => ret None
  | h :: rest =>
      let! r := h in
      match r with
      | None => route rest
      | Some e => ret (Some e)
      end
  end.

Definition unauthorized : AppError :=
  mkAppError "Authentication required" 401 "UNAUTHORIZED".

Definition forbidden : AppError :=
  mkAppError "Insufficient permissions" 403 "FORBIDDEN".

(** ** middleware/error.middleware.ts *)

(** An issue of a [ZodError]: its path, each segment as [join] renders
    it, and its message. *)
Record ZodIssue := mkIssue {
  issue_path : list string;
  issue_message : string
}.

(** [Array.prototype.join] *)
Fixpoint join (sep : string) (parts : list string) : string :=
  match parts with
  | [] => ""
  | x :: rest =>
      match rest with
      | [] => x
      | _ => x +:+ sep +:+ join sep rest
      end
  end.

(** The own property names of [Object.prototype].  Read on the object
    literal [{}] each of them yields an inherited value that is truthy and
    has no [push]. *)
Definition object_prototype_names : list string :=
  ["constructor"; "__defineGetter__"; "__defineSetter__"; "hasOwnProperty";
   "__lookupGetter__"; "__lookupSetter__"; "isPrototypeOf";
   "propertyIsEnumerable"; "toString"; "valueOf"; "__proto__";
   "toLocaleString"].

Definition inherited (key : string) : bool :=
  existsb (String.eqb key) object_prototype_names.

(** One turn of the loop of [formatZodError]:
    [if (!formatted[path]) formatted[path] = [];
     formatted[path].push(issue.message);]
    [None] is the [TypeError] of calling [push] on an inherited member. *)
Definition push_issue (formatted : gmap string (list string))
    (issue : ZodIssue) : option (gmap string (list string)) :=
  let path := join "." (issue_path issue) in
  if inherited path then None
  else Some (<[path := (default [] (formatted !! path) ++ [issue_message issue])%list]>
               formatted).

Fixpoint formatZodError_from (formatted : gmap string (list string))
    (issues : list ZodIssue) : option (gmap string (list string)) :=
  match issues with
  | [] => Some formatted
  | issue :: rest =>
      match push_issue formatted issue with
      | Some formatted' => formatZodError_from formatted' rest
      | None => None
      end
  end.

(** [formatZodError] *)
Definition formatZodError (issues : list ZodIssue)
    : option (gmap string (list string)) :=
  formatZodError_from ∅ issues.

(** What reaches [errorHandler]: an [AppError] with its [isOperational]
    flag and its [details] (in this code base always of the shape
    [{ errors }]), a [ZodError], a Prisma known-request error with its code
    and [meta.target], a Prisma validation error, the [SyntaxError] of the
    body parser, or any other [Error]. *)
Inductive Thrown :=
| ThrownApp (e : AppError) (isOperational : bool)
            (details : option (gmap string (list string)))
| ThrownZod (issues : list ZodIssue)
| ThrownPrismaKnown (code : string) (target : option (list string))
| ThrownPrismaValidation
| ThrownBodySyntax
| ThrownOther (message : string).

Inductive LogLine :=
| RequestLog (level message : string)
| SecurityLog (level message : string).

(** [handlePrismaError], with the [isOperational] flag of the error it
    builds and what it logs. *)
Definition handlePrismaError (code : string) (target : option (list string))
    : AppError * bool * list LogLine :=
  if String.eqb code "P2002" then
    let joined := default "" (join ", " <$> target) in
    let field := if String.eqb joined "" then "field" else joined in
    (mkAppError ("A record with this " +:+ field +:+ " already exists") 409
                "DUPLICATE_ENTRY", true, [])
  else if String.eqb code "P2025" then
    (mkAppError "Record not found" 404 "NOT_FOUND", true, [])
  else if String.eqb code "P2003" then
    (mkAppError "Related record not found" 400 "INVALID_REFERENCE", true, [])
  else if String.eqb code "P2014" then
    (mkAppError "Invalid identifier" 400 "INVALID_ID", true, [])
  else
    (mkAppError "Database error" 500 "DATABASE_ERROR", false,
     [SecurityLog "error" "Unhandled Prisma error"]).

(** The JSON body [errorHandler] sends, without [requestId] and
    [timestamp]; [res_stack] tells whether the stack is included. *)
Record ErrorResponse := mkErrorResponse {
  res_status : Z;
  res_code : string;
  res_message : string;
  res_details : option (gmap string (list string));
  res_stack : bool
}.

Definition unexpected : string := "An unexpected error occurred".

(** [errorHandler]; [node_env] is [process.env.NODE_ENV].  [None] is the
    [TypeError] that escapes from [formatZodError]. *)
Definition errorHandler (node_env : option string) (error : Thrown)
    : option (ErrorResponse * list LogLine) :=
  let classified :=
    match error with
    | ThrownApp e isOperational details =>
        Some (ae_statusCode e, ae_code e, ae_message e, details,
              isOperational, [])
    | ThrownZod issues =>
        match formatZodError issues with
        | Some formatted =>
            Some (422, "VALIDATION_ERROR", "Validation failed",
                  Some formatted, true, [])
        | None => None
        end
    | ThrownPrismaKnown code target =>
        let '(prismaError, isOperational, logs) :=
          handlePrismaError code target in
        Some (ae_statusCode prismaError, ae_code prismaError,
              ae_message prismaError, None, isOperational, logs)
    | ThrownPrismaValidation =>
        Some (400, "VALIDATION_ERROR", "Invalid data provided", None, true, [])
    | ThrownBodySyntax =>
        Some (400, "INVALID_JSON", "Invalid JSON in request body", None,
              true, [])
    | ThrownOther _ =>
        Some (500, "INTERNAL_ERROR", unexpected, None, false, [])
    end in
  match classified with
  | None => None
  | Some (statusCode, code, message, details, isOperational, logs) =>
      let log := if isOperational
                 then RequestLog "warn" "Operational error"
                 else SecurityLog "error" "Non-operational error" in
      let hide := bool_decide (node_env = Some "production")
                  && negb isOperational in
      Some (mkErrorResponse statusCode code
              (if hide then unexpected else message)
              (if hide then None else details)
              (bool_decide (node_env = Some "development")),
            (logs ++ [log])%list)
  end.

(** The errors of the handlers as [errorHandler] meets them.  Every
    [AppError] the handlers build is operational and has no details; the
    errors of jsonwebtoken extend [Error] and are of none of the classes
    [errorHandler] tells apart, and so are the connection errors of ioredis
    and Prisma; an [update] that finds no record rejects with Prisma's
    known-request error [P2025]. *)
Definition as_thrown (e : exn) : Thrown :=
  match e with
  | EApp a => ThrownApp a true None
  | ETokenExpired => ThrownOther "jwt expired"
  | EJsonWebToken msg => ThrownOther msg
  | EStore what =>
      if String.eqb what "prisma: record to update not found"
      then ThrownPrismaKnown "P2025" None
      else ThrownOther what
  end.


(** The messages of the issues at a path, in the order of the issues. *)
Definition messages_at (path : string) (issues : list ZodIssue)
    : list string :=
  issue_message <$>
    List.filter (fun i => String.eqb (join "." (issue_path i)) path) issues.

(** ** routes/user.routes.ts: change password *)

Definition set_passwordHash (h : string) (u : User) : User :=
  mkUser (u_id u) (u_email u) h (u_role u) (u_firstName u) (u_lastName u)
         (u_isActive u) (u_lockedUntil u) (u_failedLoginAttempts u)
         (u_emailVerified u) (u_lastLoginAt u).

(** The handler of [PUT /api/v1/users/password], which runs behind
    [authenticate]: [userId] is [req.user!.id], and [hashed] is what
    [bcrypt.hash(newPassword, rounds)] resolved to (it depends on a random
    salt). *)
Definition changePassword (bcrypt_compare : string -> string -> bool)
    (env : Env) (userId currentPassword hashed : string) : M Body :=
  let! found := prisma_call env
                  (let! d := get_db in ret (findUniqueById userId d)) in
  match found with
  | None => throw (EApp (mkAppError "User not found" 404 "NOT_FOUND"))
  | Some u =>
      let! isValid := bcrypt_compare_call bcrypt_compare currentPassword
                                          (u_passwordHash u) in
      if negb isValid
      then throw (EApp (mkAppError "Current password is incorrect" 400
                                   "BAD_REQUEST"))
      else
        let passwordHash := hashed in
        exec! prisma_update env userId (set_passwordHash passwordHash) in
        exec! emit (EvAudit "user.password_changed" userId) in
        ret (BodyMessage "Password changed successfully")
  end.

(** ** utils/logger.ts: redaction *)

(** A value as [redactSensitive] tells values apart; an object is the list
    of its entries in the order of [Object.entries]. *)
#[local] Unset Elimination Schemes.
Inductive Json :=
| JNull
| JUndefined
| JBool (b : bool)
| JNumber (n : Z)
| JString (s : string)
| JArray (items : list Json)
| JObject (entries : list (string * Json)).
#[local] Set Elimination Schemes.

Definition SENSITIVE_FIELDS : list string :=
  ["password"; "confirmPassword"; "currentPassword"; "newPassword"; "token";
   "accessToken"; "refreshToken"; "apiKey"; "secret"; "creditCard";
   "cardNumber"; "cvv"; "ssn"; "authorization"].

(** [String.prototype.includes] *)
Fixpoint includes (s sub : string) : bool :=
  String.prefix sub s
  || match s with
     | EmptyString => false
     | String _ rest => includes rest sub
     end.

(** [typeof value === 'object'] *)
Definition typeof_object (value : Json) : bool :=
  match value with
  | JNull | JArray _ | JObject _ => true
  | _ => false
  end.

Section Redaction.

(** [String.prototype.toLowerCase] *)
Variable toLowerCase : string -> string.

Definition sensitive (key : string) : bool :=
  existsb (fun field => includes (toLowerCase key) (toLowerCase field))
          SENSITIVE_FIELDS.

(** [redacted[key] = value]: for every key but [__proto__] the assignment
    creates the entry; for [__proto__] it runs the setter that
    [Object.prototype] provides, which changes the prototype or does
    nothing: no entry is created. *)
Definition assigned (entry : string * Json) : bool :=
  negb (String.eqb (fst entry) "__proto__").

(** [redactSensitive]; the result is read as its own entries, as
    [Object.entries], the spread in [logAuditEvent] and [JSON.stringify]
    read it. *)
Fixpoint redactSensitive (obj : Json) : Json :=
  match obj with
  | JNull | JUndefined => obj
  | JString _ => obj
  | JArray items => JArray (List.map redactSensitive items)
  | JObject entries =>
      JObject
        (List.filter assigned
           (List.map
              (fun entry =>
                 match entry with
                 | (key, value) =>
                     if sensitive key then (key, JString "[REDACTED]")
                     else if typeof_object value
                          then (key, redactSensitive value)
                          else (key, value)
                 end)
              entries))
  | _ => obj
  end.

(** Whether, at any depth, an entry with a sensitive key holds anything
    but the placeholder. *)
Fixpoint exposes (obj : Json) : bool :=
  match obj with
  | JArray items => existsb exposes items
  | JObject entries =>
      existsb
        (fun entry =>
           match entry with
           | (key, value) =>
               if sensitive key
               then match value with
                    | JString s => negb (String.eqb s "[REDACTED]")
                    | _ => true
                    end
               else exposes value
           end)
        entries
  | _ => false
  end.

End Redaction.

(** ASCII lower case, for strings without other letters. *)
Definition ascii_lower (c : ascii) : ascii :=
  let n := nat_of_ascii c in
  if (65 <=? n)%nat && (n <=? 90)%nat then ascii_of_nat (n + 32) else c.

Fixpoint lower (s : string) : string :=
  match s with
  | EmptyString => EmptyString
  | String c rest => String (ascii_lower c) (lower rest)
  end.

(** ** Concurrent refreshes

    [refreshToken] cut at the [await] that follows its read of the
    session: up to there it has verified the token and found the session
    in the registry; everything from the [findUnique] on comes after. *)
Definition refresh_enter (cfg : JwtConfig) (env : Env) (req : Request)
    : M TokenPayload :=
  let token := cookie_refresh req in
  if negb (token_present token)
  then throw (EApp (mkAppError "Refresh token not provided" 401
                               "NO_REFRESH_TOKEN"))
  else
  let! payload := verifyRefreshToken cfg env (token_value token) in
  let! session := redis_call env
                    (let! r := get_redis in
                     ret (redis_get (now env) r
                                    (session_key (p_sessionId payload)))) in
  if negb (value_truthy session)
  then exec! clearAuthCookies in
       throw (EApp (mkAppError "Session expired" 401 "SESSION_EXPIRED"))
  else ret payload.

Definition refresh_finish (cfg : JwtConfig) (env : Env) (req : Request)
    (payload : TokenPayload) : M Body :=
  let! found := prisma_call env
                  (let! d := get_db in
                   ret (findUniqueById (p_userId payload) d)) in
  match found with
  | Some u =>
      if negb (u_isActive u)
      then exec! clearAuthCookies in
           throw (EApp (mkAppError "User not found or inactive" 401
                                   "USER_INVALID"))
      else
      let newSessionId := uuid env in
      let newAccessToken :=
        generateAccessToken cfg (u_id u) (u_email u) (u_role u) newSessionId
                            (now env) in
      let newRefreshToken :=
        generateRefreshToken cfg (u_id u) (u_email u) (u_role u) newSessionId
                             (now env) in
      exec! redis_call env
              (let! r := get_redis in
               put_redis (redis_del (session_key (p_sessionId payload)) r)) in
      exec! redis_call env
              (let! r := get_redis in
               put_redis
                 (redis_setex (now env) (session_key newSessionId)
                    (7 * 24 * 60 * 60)
                    (VJson (mkSession (u_id u) (now env)
                                      (default "" (req_ip req))
                                      (req_userAgent req)))
                    r)) in
      exec! setAuthCookies newAccessToken newRefreshToken in
      exec! emit (EvAudit "auth.token_refresh" (u_id u)) in
      ret (BodyMessage "Token refreshed successfully")
  | None =>
      exec! clearAuthCookies in
      throw (EApp (mkAppError "User not found or inactive" 401
                              "USER_INVALID"))
  end.

(** Two refresh requests, A and B, on the shared stores, each with its own
    response: A reads the session, B reads the session, A runs to its
    end, B runs to its end.  The result is what each of them answers and
    the stores they leave. *)
Definition refreshes_interleaved (cfg : JwtConfig)
    (envA : Env) (reqA : Request) (envB : Env) (reqB : Request) (w : World)
    : (exn + Body) * (exn + Body) * World :=
  let '(ra, sa) := refresh_enter cfg envA reqA (mkSt w fresh_ctx) in
  let '(rb, sb) := refresh_enter cfg envB reqB (mkSt (world sa) fresh_ctx) in
  let '(fa, sa') :=
    match ra with
    | inr payload =>
        refresh_finish cfg envA reqA payload (mkSt (world sb) (ctx sa))
    | inl e => (inl e, mkSt (world sb) (ctx sa))
    end in
  let '(fb, sb') :=
    match rb with
    | inr payload =>
        refresh_finish cfg envB reqB payload (mkSt (world sa') (ctx sb))
    | inl e => (inl e, mkSt (world sa') (ctx sb))
    end in
  (fa, fb, world sb').

(** ** middleware/auth.middleware.ts: [csrfProtection] *)

(** What [csrfProtection] reads of a request: [req.method], the
    [x-csrf-token] header and the [session_id] cookie. *)
Record CsrfRequest := mkCsrfRequest {
  csrf_method : string;
  csrf_header : option string;
  csrf_session_id : option string
}.

(** JavaScript truthiness of a string that may be absent. *)
Definition text_present (s : option string) : bool :=
  match s with
  | Some s => negb (String.eqb s "")
  | None => false
  end.

Definition csrf_key (sessionId : string) : string := "csrf:" +:+ sessionId.

Definition csrfMissing : AppError :=
  mkAppError "CSRF token missing" 403 "CSRF_ERROR".

Definition csrfInvalid : AppError :=
  mkAppError "Invalid CSRF token" 403 "CSRF_ERROR".

Section Csrf.

(** The JSON text of a session object, as [redis.get] returns it. *)
Variable stringify : SessionData -> string.

(** The string [redis.get] resolves to for a stored value. *)
Definition redis_text (v : rvalue) : string :=
  match v with
  | VText s => s
  | VJson d => stringify d
  | VInt n => pretty n
  end.

(** [csrfProtection]: the value returned is the argument handed to
    [next].  The function has no [try]: a Redis call that rejects rejects
    its promise, shown here as the store error. *)
Definition csrfProtection (env : Env) (req : CsrfRequest) : M (option exn) :=
  if existsb (String.eqb (csrf_method req)) ["GET"; "HEAD"; "OPTIONS"]
  then ret None
  else
  let csrfToken := csrf_header req in
  let sessionId := csrf_session_id req in
  if negb (text_present csrfToken) || negb (text_present sessionId)
  then ret (Some (EApp (mkAppError "CSRF token missing" 403 "CSRF_ERROR")))
  else
  let! storedToken :=
    redis_call env
      (let! r := get_redis in
       ret (redis_text <$>
              redis_get (now env) r ("csrf:" +:+ default "" sessionId))) in
  if negb (text_present storedToken)
     || negb (bool_decide (storedToken = csrfToken))
  then exec! emit (EvSecurityLog "warn" "CSRF validation failed") in
       ret (Some (EApp (mkAppError "Invalid CSRF token" 403 "CSRF_ERROR")))
  else ret None.

End Csrf.

(** A request to one of the three session endpoints. *)
Inductive AuthCall :=
| CallLogin (env : Env) (req : Request)
| CallRefresh (env : Env) (req : Request)
| CallLogout (env : Env) (req : Request).

Definition call (bc : string -> string -> bool) (cfg : JwtConfig)
    (c : AuthCall) (w : World) : World :=
  match c with
  | CallLogin env req => after (asyncHandler (login bc cfg env req) w)
  | CallRefresh env req => after (asyncHandler (refreshToken cfg env req) w)
  | CallLogout env req => after (asyncHandler (logout cfg env req) w)
  end.

(** Requests served one after the other. *)
Definition run_calls (bc : string -> string -> bool) (cfg : JwtConfig)
    (cs : list AuthCall) (w : World) : World :=
  foldl (fun w c => call bc cfg c w) w cs.

(** ** utils/encryption.ts: [maskSensitive]

    A string is the sequence of its code units. *)

(** [String.prototype.slice(start, end)] for integer arguments; [None] is
    an omitted [end]. *)
Definition js_slice (s : string) (start : Z) (end_ : option Z) : string :=
  let len := Z.of_nat (String.length s) in
  let from := if start <? 0 then Z.max (len + start) 0 else Z.min start len in
  let to := match end_ with
            | None => len
            | Some e => if e <? 0 then Z.max (len + e) 0 else Z.min e len
            end in
  String.substring (Z.to_nat from) (Z.to_nat (to - from)) s.

Fixpoint repeat_string (s : string) (n : nat) : string :=
  match n with
  | O => ""
  | S n => s +:+ repeat_string s n
  end.

Section Strings.

(** The length of the longest string the engine builds
    (implementation-defined; [2^29 - 24] in V8).  An operation whose result
    would be longer throws a [RangeError]. *)
Variable string_limit : Z.

(** [String.prototype.repeat]: a [RangeError] for a negative count and for
    a result beyond the limit. *)
Definition js_repeat (s : string) (count : Z) : option string :=
  if count <? 0 then None
  else if string_limit <? Z.of_nat (String.length s) * count then None
  else Some (repeat_string s (Z.to_nat count)).

(** [a + b] on strings. *)
Definition js_concat (a b : string) : option string :=
  if string_limit <? Z.of_nat (String.length a) + Z.of_nat (String.length b)
  then None
  else Some (a +:+ b).

(** [maskSensitive(data, visibleStart = 0, visibleEnd = 4, maskChar = '*')];
    [None] is a [RangeError] thrown on the way. *)
Definition maskSensitive (data : string) (visibleStart visibleEnd : Z)
    (maskChar : string) : option string :=
  let len := Z.of_nat (String.length data) in
  if len <=? visibleStart + visibleEnd
  then js_repeat maskChar len
  else
    let start := js_slice data 0 (Some visibleStart) in
    let end_ := js_slice data (- visibleEnd) None in
    match js_repeat maskChar (len - visibleStart - visibleEnd) with
    | Some masked =>
        match js_concat start masked with
        | Some shown => js_concat shown end_
        | None => None
        end
    | None => None
    end.

End Strings.

(** ** controllers/auth.controller.ts: [resetPassword] *)

(** A row selected by the [findMany] of [resetPassword]: the account's id
    and its reset-token hash.  The two reset columns are not among the
    columns of [User]; the rows [findMany] returned (the accounts with an
    unexpired reset token, in the order the database gave them) are an
    input of the request. *)
Record ResetRow := mkResetRow {
  rr_id : string;
  rr_passwordResetToken : string
}.

(** The data of the [update] in [resetPassword]. *)
Definition reset_row (passwordHash : string) (u : User) : User :=
  mkUser (u_id u) (u_email u) passwordHash (u_role u) (u_firstName u)
         (u_lastName u) (u_isActive u) None 0 (u_emailVerified u)
         (u_lastLoginAt u).

(** KEYS prefix*: the live keys that begin with [prefix], in the order of
    the store. *)
Definition redis_keys (now : Time) (prefix : string)
    (r : gmap string rentry) : list string :=
  fst <$> List.filter (fun kv => String.prefix prefix (fst kv)
                                 && entry_live now (snd kv))
                      (map_to_list r).

Section Reset.

Variable bcrypt_compare : string -> string -> bool.

(** [JSON.parse(text).userId] for a stored text that is not a session
    object written by this code: the value ([None] for [undefined]), or
    the error the expression throws. *)
Variable parsed_userId : string -> exn + option string.

(** [for (const user of users) { if (await bcrypt.compare(...)) ... break }] *)
Fixpoint find_reset (token : string) (users : list ResetRow)
    : M (option ResetRow) :=
  match users with
  | [] => ret None
  | user :: rest =>
      let! isMatch := bcrypt_compare_call bcrypt_compare token
                                          (rr_passwordResetToken user) in
      if isMatch then ret (Some user) else find_reset token rest
  end.

(** One turn of the loop over the session keys. *)
Definition sweep_step (env : Env) (userId sessionKey : string) : M unit :=
  let! session := redis_call env
                    (let! r := get_redis in
                     ret (redis_get (now env) r sessionKey)) in
  if negb (value_truthy session)
  then ret tt
  else
    let! owner :=
      match session with
      | Some (VJson d) => ret (Some (s_userId d))
      | Some (VText s) =>
          match parsed_userId s with
          | inr o => ret o
          | inl e => throw e
          end
      | _ => ret None
      end in
    if bool_decide (owner = Some userId)
    then redis_call env
           (let! r := get_redis in put_redis (redis_del sessionKey r))
    else ret tt.

Fixpoint sweep (env : Env) (userId : string) (sessions : list string)
    : M unit :=
  match sessions with
  | [] => ret tt
  | sessionKey :: rest =>
      exec! sweep_step env userId sessionKey in
      sweep env userId rest
  end.

(** [resetPassword]; [users] is what [findMany] returned and [hashed] what
    [bcrypt.hash(password, rounds)] resolved to. *)
Definition resetPassword (env : Env) (users : list ResetRow)
    (token hashed : string) : M Body :=
  let! users := prisma_call env (ret users) in
  let! matchedUser := find_reset token users in
  match matchedUser with
  | None =>
      throw (EApp (mkAppError "Invalid or expired reset token" 400
                              "INVALID_RESET_TOKEN"))
  | Some m =>
      let passwordHash := hashed in
      exec! prisma_update env (rr_id m) (reset_row passwordHash) in
      let! sessions := redis_call env
                         (let! r := get_redis in
                          ret (redis_keys (now env) "session:" r)) in
      exec! sweep env (rr_id m) sessions in
      exec! emit (EvAudit "auth.password_reset" (rr_id m)) in
      ret (BodyMessage
             "Password reset successfully. Please log in with your new password.")
  end.

End Reset.

(** Whether the loop of [resetPassword] deletes the key: it holds a live
    session object of the user. *)
Definition doomed (now : Time) (userId : string) (r : gmap string rentry)
    (k : string) : bool :=
  match redis_get now r k with
  | Some (VJson d) => String.eqb (s_userId d) userId
  | _ => false
  end.

(** Every live value under a [session:] key is a session object, as
    [login] and [refreshToken] write them. *)
Definition sessions_well_formed (now : Time) (r : gmap string rentry) : Prop :=
  forall k v,
    String.prefix "session:" k = true ->
    redis_get now r k = Some v ->
    exists d, v = VJson d.

(** What the loop over the session keys leaves of Redis. *)
Definition swept (now : Time) (userId : string) (keys : list string)
    (r : gmap string rentry) : gmap string rentry :=
  foldl (fun r k => if doomed now userId r k then delete k r else r) r keys.

(** The calls of [bcrypt.compare] the search for the reset token makes. *)
Fixpoint reset_compares (bc : string -> string -> bool) (token : string)
    (users : list ResetRow) : list Event :=
  match users with
  | [] => []
  | user :: rest =>
      EvBcryptCompare token (rr_passwordResetToken user)
      :: (if bc token (rr_passwordResetToken user) then []
          else reset_compares bc token rest)
  end.

(** ** Sample data for the closed examples *)

Definition sample_cfg : JwtConfig :=
  mkJwtConfig "an-access-secret-of-32-characters" (15 * 60)
              "a-refresh-secret-of-32-characters" (7 * 24 * 60 * 60).

(** A stand-in for bcrypt: the hash of [p] is [bcrypt:p]. *)
Definition sample_bcrypt (password hash : string) : bool :=
  String.eqb ("bcrypt:" +:+ password) hash.

Definition alice : User :=
  mkUser "u-alice" "alice@example.com" "bcrypt:correct horse" "CUSTOMER"
         "Alice" "Liddell" true None 0 true None.

Definition sample_world : World := mkWorld ∅ [alice].

Definition sample_env (t : Time) (sid : string) : Env := mkEnv t sid true true.

Definition sample_login (ip password : string) : Request :=
  mkRequest None None None "alice@example.com" password false (Some ip)
            "agent".

(** Five wrong passwords from one address, one second apart. *)
Definition five_wrong : list (Env * Request) :=
  [(sample_env 1000 "s1", sample_login "10.0.0.1" "guess 1");
   (sample_env 2000 "s2", sample_login "10.0.0.1" "guess 2");
   (sample_env 3000 "s3", sample_login "10.0.0.1" "guess 3");
   (sample_env 4000 "s4", sample_login "10.0.0.1" "guess 4");
   (sample_env 5000 "s5", sample_login "10.0.0.1" "guess 5")].

(** Five more requests of the client of [five_wrong], after its first
    one and inside the same window; the last carries the right password. *)
Definition five_more : list (Env * Request) :=
  (tl five_wrong ++
   [(sample_env 6000 "s6", sample_login "10.0.0.1" "correct horse")])%list.

(** Six wrong passwords for Alice, from six addresses, at the same
    instant. *)
Definition six_arrivals : list Thread :=
  [Arrived (sample_env 1000 "s1") (sample_login "10.0.0.1" "guess 1");
   Arrived (sample_env 1000 "s2") (sample_login "10.0.0.2" "guess 2");
   Arrived (sample_env 1000 "s3") (sample_login "10.0.0.3" "guess 3");
   Arrived (sample_env 1000 "s4") (sample_login "10.0.0.4" "guess 4");
   Arrived (sample_env 1000 "s5") (sample_login "10.0.0.5" "guess 5");
   Arrived (sample_env 1000 "s6") (sample_login "10.0.0.6" "guess 6")].

(** All six read the row before any of them writes it. *)
Definition reads_then_writes : list nat :=
  [0; 1; 2; 3; 4; 5; 0; 1; 2; 3; 4; 5]%nat.

(** Each request runs to completion before the next starts. *)
Definition one_after_another : list nat :=
  [0; 0; 1; 1; 2; 2; 3; 3; 4; 4; 5; 5]%nat.

Definition w_logged_in : World :=
  after (asyncHandler
           (login sample_bcrypt sample_cfg (sample_env 1000 "s1")
                  (sample_login "10.0.0.1" "correct horse"))
           sample_world).

Definition at1 : Token :=
  generateAccessToken sample_cfg "u-alice" "alice@example.com" "CUSTOMER"
                      "s1" 1000.

Definition rt1 : Token :=
  generateRefreshToken sample_cfg "u-alice" "alice@example.com" "CUSTOMER"
                       "s1" 1000.

Definition payload1 : TokenPayload :=
  mkPayload "u-alice" "alice@example.com" "CUSTOMER" "s1" 1
            (1 + 7 * 24 * 60 * 60).

Definition with_refresh_cookie : Request :=
  mkRequest None (Some rt1) None "" "" false (Some "10.0.0.1") "agent".

Definition with_access_cookie : Request :=
  mkRequest (Some at1) None None "" "" false (Some "10.0.0.1") "agent".

Definition w_locked : World :=
  snd (run_logins sample_bcrypt sample_cfg five_wrong sample_world).

(** An account whose stored hash has the shape of a bcrypt hash at cost
    12. *)
Definition bob : User :=
  mkUser "u-bob" "bob@example.com"
         "$2a$12$N9qo8uLOickgx2ZMRZoMyeIjZAgcfl7p92ldGxad68LJZdL17lhWy"
         "CUSTOMER" "Bob" "Sawyer" true None 0 true None.

Definition login_as (email password : string) : Request :=
  mkRequest None None None email password false (Some "10.0.0.1") "agent".

(** Alice's account, deactivated. *)
Definition alice_deactivated : User :=
  mkUser "u-alice" "alice@example.com" "bcrypt:correct horse" "CUSTOMER"
         "Alice" "Liddell" false None 0 true None.

(** Four right passwords and a wrong one from one address, one second
    apart. *)
Definition four_right_one_wrong : list (Env * Request) :=
  [(sample_env 1000 "s1", sample_login "10.0.0.1" "correct horse");
   (sample_env 2000 "s2", sample_login "10.0.0.1" "correct horse");
   (sample_env 3000 "s3", sample_login "10.0.0.1" "correct horse");
   (sample_env 4000 "s4", sample_login "10.0.0.1" "correct horse");
   (sample_env 5000 "s5", sample_login "10.0.0.1" "guess")].

(** ** More sample data *)

(** Alice after four wrong passwords. *)
Definition alice_four : User := set_failed 4 None alice.

(** Alice in the middle of a lockout that lasts until 5000 s. *)
Definition alice_locked : User := set_failed 5 (Some 5000000) alice.

(** The tokens of the session a rotation at 2 s creates. *)
Definition at2 : Token :=
  generateAccessToken sample_cfg "u-alice" "alice@example.com" "CUSTOMER"
                      "s2" 2000.

Definition rt2 : Token :=
  generateRefreshToken sample_cfg "u-alice" "alice@example.com" "CUSTOMER"
                       "s2" 2000.

Definition access_payload1 : TokenPayload :=
  mkPayload "u-alice" "alice@example.com" "CUSTOMER" "s1" 1 (1 + 15 * 60).

(** A cookie that is no token, beside a bearer token that is one. *)
Definition stale_cookie_valid_bearer : Request :=
  mkRequest (Some (Opaque "stale")) None (Some at1) "" "" false
            (Some "10.0.0.1") "agent".

Definition garbage_refresh_cookie : Request :=
  mkRequest None (Some (Opaque "garbage")) None "" "" false
            (Some "10.0.0.1") "agent".

(** ** Tactics *)

(** Unfolds the monad and the stores' accessors until a handler's run is
    a nest of [if]s and [match]es on its inputs. *)
Ltac run_m :=
  repeat (progress
    (unfold bind, ret, throw, try_catch, emit, res_cookie, set_req_user,
       get_redis, get_db, put_redis, put_db, redis_call, prisma_call,
       prisma_update, bcrypt_compare_call, setAuthCookies, clearAuthCookies,
       lift_jwt;
     cbn [world ctx db redis effects cookies user fst snd negb andb orb])).

Ltac crunch := vm_compute; first [reflexivity | discriminate | congruence].
Tactic Notation "feed" integer(n) hyp(H) :=
  do n (specialize (H ltac:(crunch))).

Ltac auth_table :=
  repeat split;
  first [ done | congruence
        | by left | by right
        | by (intros _; left) | by (intros _; right; left)
        | by (intros _; right; right)
        | by (intros [|[|]]) ].

Ltac opt_table :=
  repeat split;
  first [ done | congruence
        | by left | by right
        | by (intros [|]) ].

(** * Properties *)

(** ** Redis commands and keys *)

Lemma rlive_insert_eq now (r : gmap string rentry) k e :
  rlive now (<[k := e]> r) k = if entry_live now e then Some e else None.
Proof. unfold rlive. by rewrite lookup_insert_eq. Qed.

Lemma rlive_insert_ne now (r : gmap string rentry) k k' e :
  k ≠ k' -> rlive now (<[k := e]> r) k' = rlive now r k'.
Proof. intros H. unfold rlive. by rewrite lookup_insert_ne. Qed.

Lemma rlive_delete_eq now (r : gmap string rentry) k :
  rlive now (delete k r) k = None.
Proof. unfold rlive. by rewrite lookup_delete_eq. Qed.

Lemma rlive_delete_ne now (r : gmap string rentry) k k' :
  k ≠ k' -> rlive now (delete k r) k' = rlive now r k'.
Proof. intros H. unfold rlive. by rewrite lookup_delete_ne. Qed.

Lemma rlive_Some_lookup now (r : gmap string rentry) k e :
  rlive now r k = Some e -> r !! k = Some e.
Proof.
  unfold rlive. destruct (r !! k) as [e'|]; [|done].
  destruct (entry_live now e'); congruence.
Qed.

Lemma session_key_ne_rate sid x : session_key sid ≠ "ratelimit:" +:+ x.
Proof. unfold session_key. simpl. discriminate. Qed.

Lemma blacklist_key_ne_session sid sid' : blacklist_key sid ≠ session_key sid'.
Proof. unfold blacklist_key, session_key. simpl. discriminate. Qed.

Lemma session_key_inj sid sid' : session_key sid = session_key sid' -> sid = sid'.
Proof. unfold session_key. simpl. intros H. by simplify_eq. Qed.

Lemma blacklist_key_inj sid sid' :
  blacklist_key sid = blacklist_key sid' -> sid = sid'.
Proof. unfold blacklist_key. simpl. intros H. by simplify_eq. Qed.

Lemma incr_count now (r : gmap string rentry) k c :
  rate_count now r k = Some c -> fst (redis_incr now k r) = Some (c + 1).
Proof.
  unfold rate_count, redis_incr.
  destruct (rlive now r k) as [[[s|d|n] ex]|]; cbn;
    intros H; by simplify_eq.
Qed.

Lemma bump_frame now win (r : gmap string rentry) k k' :
  k ≠ k' -> bump now win r k !! k' = r !! k'.
Proof.
  intros Hne. unfold bump, redis_incr, redis_expire.
  destruct (rlive now r k) as [[[s|d|n] ex]|]; cbn [snd];
    repeat match goal with
           | |- context [if ?b then _ else _] => destruct b
           | |- context [match rlive ?a ?b ?c with _ => _ end] =>
               destruct (rlive a b c)
           end;
    rewrite ?lookup_insert_ne by done; done.
Qed.

Lemma bump_stored now win (r : gmap string rentry) k c :
  rate_count now r k = Some c ->
  exists ex, bump now win r k !! k = Some (mkEntry (VInt (c + 1)) ex).
Proof.
  unfold rate_count, bump, redis_incr, redis_expire, redis_ttl.
  destruct (rlive now r k) as [[[s|d|n] ex]|] eqn:Hl; cbn [e_val snd];
    intros [= <-].
  - rewrite rlive_insert_eq.
    destruct (entry_live now _) eqn:Hlive; cbn [e_expireAt e_val].
    + destruct ex as [t|].
      * destruct (_ =? -1); rewrite ?lookup_insert_eq; eauto.
      * cbn. rewrite lookup_insert_eq. eauto.
    + cbn. rewrite lookup_insert_eq. eauto.
  - rewrite rlive_insert_eq. cbn. rewrite lookup_insert_eq. eauto.
Qed.

(** A key without a live entry: the first request of a window. *)
Lemma bump_fresh now win (r : gmap string rentry) k :
  rlive now r k = None ->
  bump now win r k = <[k := mkEntry (VInt 1) (Some (now + win * 1000))]> r.
Proof.
  intros Hl. unfold bump, redis_incr, redis_ttl, redis_expire. rewrite Hl.
  cbn [snd]. rewrite rlive_insert_eq. cbn.
  by rewrite insert_insert_eq.
Qed.

(** A live counter inside its window: the count goes up, the expiry
    stays. *)
Lemma bump_live now win (r : gmap string rentry) k n t :
  r !! k = Some (mkEntry (VInt n) (Some t)) -> now < t ->
  bump now win r k = <[k := mkEntry (VInt (n + 1)) (Some t)]> r.
Proof.
  intros Hk Hlt.
  assert (Hl : rlive now r k = Some (mkEntry (VInt n) (Some t))).
  { unfold rlive. rewrite Hk. unfold entry_live. cbn.
    destruct (Z.ltb_spec now t); [done | lia]. }
  unfold bump, redis_incr, redis_ttl, redis_expire. rewrite Hl.
  cbn [snd]. rewrite rlive_insert_eq. unfold entry_live. cbn.
  destruct (Z.ltb_spec now t); [|lia]. cbn.
  assert (0 <= (t - now + 500) / 1000) by (apply Z.div_pos; lia).
  destruct (Z.eqb_spec ((t - now + 500) / 1000) (-1)); [lia | done].
Qed.

Lemma checkRateLimit_run env key maxAttempts windowSeconds s :
  redisUp env = true ->
  let k := "ratelimit:" +:+ key in
  let r := redis (world s) in
  let count := fst (redis_incr (now env) k r) in
  let ttl := redis_ttl (now env) (snd (redis_incr (now env) k r)) k in
  checkRateLimit env key maxAttempts windowSeconds s =
  (inr (mkRateLimit
          (match count with Some c => c <=? maxAttempts | None => false end)
          ((fun c => Z.max 0 (maxAttempts - c)) <$> count)
          (now env + (if 0 <? ttl then ttl else windowSeconds) * 1000)),
   mkSt (mkWorld (bump (now env) windowSeconds r k) (db (world s))) (ctx s)).
Proof.
  intros Hup. cbv zeta.
  unfold checkRateLimit, redis_call, bump. rewrite Hup.
  unfold bind, get_redis, put_redis, ret. cbn [world redis db ctx].
  destruct (redis_incr (now env) ("ratelimit:" +:+ key) (redis (world s)))
    as [count r1] eqn:Hincr.
  cbn [fst snd world redis db ctx].
  destruct (redis_ttl (now env) r1 ("ratelimit:" +:+ key) =? -1) eqn:Httl;
    cbn [world redis db ctx]; reflexivity.
Qed.

(** ** The user table *)

Lemma find_email_Some_id email (d : list User) u :
  findUniqueByEmail email d = Some u ->
  exists u', findUniqueById (u_id u) d = Some u'.
Proof.
  unfold findUniqueByEmail, findUniqueById. intros H.
  apply find_some in H as [Hin _].
  destruct (find (λ u0, String.eqb (u_id u0) (u_id u)) d) as [u'|] eqn:Hf;
    [eauto|].
  eapply find_none in Hf; [|exact Hin]. cbn in Hf.
  by rewrite String.eqb_refl in Hf.
Qed.

Lemma find_id_update id id' f (d : list User) :
  (forall u, u_id (f u) = u_id u) ->
  findUniqueById id' (update_rows id f d) =
  (fun u => if String.eqb (u_id u) id then f u else u) <$> findUniqueById id' d.
Proof.
  intros Hid. unfold findUniqueById, update_rows.
  induction d as [|u d IH]; [done|]. cbn.
  destruct (String.eqb (u_id u) id) eqn:E.
  - rewrite Hid. destruct (String.eqb (u_id u) id'); [by cbn; rewrite E|done].
  - destruct (String.eqb (u_id u) id'); [by cbn; rewrite E|done].
Qed.

(** Updating the row that [findUnique({ where: { email } })] returned, by
    its id, with a change that keeps e-mail addresses. *)
Lemma find_email_update email f (d : list User) u :
  (forall u, u_email (f u) = u_email u) ->
  findUniqueByEmail email d = Some u ->
  findUniqueByEmail email (update_rows (u_id u) f d) = Some (f u).
Proof.
  intros Hem. unfold findUniqueByEmail, update_rows.
  induction d as [|x d IH]; [done|]. cbn.
  destruct (String.eqb (u_email x) email) eqn:E.
  - intros [= ->]. rewrite String.eqb_refl, Hem, E. done.
  - intros H. destruct (String.eqb (u_id x) (u_id u)).
    + rewrite Hem, E. auto.
    + rewrite E. auto.
Qed.

Lemma update_rows_Forall (P : User -> Prop) id f (d : list User) :
  Forall P d -> (forall x, P x -> P (f x)) -> Forall P (update_rows id f d).
Proof.
  intros Hd Hf. unfold update_rows. induction Hd as [|x d Hx Hd IH]; cbn.
  - constructor.
  - constructor; [|exact IH]. destruct (String.eqb (u_id x) id); auto.
Qed.

Lemma find_email_Forall (P : User -> Prop) email (d : list User) u :
  Forall P d -> findUniqueByEmail email d = Some u -> P u.
Proof.
  intros Hd Hf. apply find_some in Hf as [Hin _].
  rewrite List.Forall_forall in Hd. auto.
Qed.

Lemma set_failed_twice a b c d u :
  set_failed a b (set_failed c d u) = set_failed a b u.
Proof. reflexivity. Qed.

(** ** Tokens *)

Lemma verify_present t secret iss aud now p :
  jwt_verify t secret iss aud now = JwtOk p -> token_present (Some t) = true.
Proof. destruct t; [discriminate | done]. Qed.

(** An access token the server issued verifies until its expiry. *)
Lemma verify_generated_access cfg uid em role sid t0 now :
  now / 1000 < t0 / 1000 + accessExpiresIn cfg ->
  jwt_verify (generateAccessToken cfg uid em role sid t0) (accessSecret cfg)
             issuer audience now
  = JwtOk (mkPayload uid em role sid (t0 / 1000)
                     (t0 / 1000 + accessExpiresIn cfg)).
Proof.
  intros Hlt. unfold generateAccessToken, jwt_sign, jwt_verify.
  rewrite !String.eqb_refl. cbn [negb p_exp].
  destruct (Z.leb_spec (t0 / 1000 + accessExpiresIn cfg) (now / 1000));
    [lia | done].
Qed.

(** ** [login], branch by branch *)

Lemma passes_rate_limit_spec env req w :
  passes_rate_limit env req w =
  redisUp env &&
  match fst (redis_incr (now env) (login_rate_key req) (redis w)) with
  | Some c => c <=? 5
  | None => false
  end.
Proof.
  unfold passes_rate_limit. destruct (redisUp env) eqn:Hup.
  - rewrite checkRateLimit_run by done. reflexivity.
  - unfold checkRateLimit, redis_call. rewrite Hup. reflexivity.
Qed.

Lemma passes_redisUp env req w :
  passes_rate_limit env req w = true -> redisUp env = true.
Proof. rewrite passes_rate_limit_spec. by intros [? _]%andb_prop. Qed.

Lemma login_gate_run env req s :
  redisUp env = true ->
  login_gate env req s =
  if passes_rate_limit env req (world s)
  then (inr tt, mkSt (gate_world env req (world s)) (ctx s))
  else (inl (EApp rateLimited),
        mkSt (gate_world env req (world s))
             (mkCtx (cookies (ctx s)) (user (ctx s))
                    (effects (ctx s) ++
                       [EvSecurityLog "warn" "Login rate limit exceeded"]))).
Proof.
  intros Hup. rewrite passes_rate_limit_spec, Hup. cbn [andb].
  unfold login_gate, bind. rewrite checkRateLimit_run by done.
  cbn [allowed]. fold (login_rate_key req).
  destruct (match fst (redis_incr _ _ _) with Some c => c <=? 5 | None => false end);
    reflexivity.
Qed.

Section LoginBranches.

Variable bc : string -> string -> bool.
Variable cfg : JwtConfig.
Variables (env : Env) (req : Request) (w : World).

Lemma login_rate_limited :
  redisUp env = true ->
  passes_rate_limit env req w = false ->
  asyncHandler (login bc cfg env req) w =
  mkReply (NextError (EApp rateLimited))
          (mkCtx [] None [EvSecurityLog "warn" "Login rate limit exceeded"])
          (gate_world env req w).
Proof.
  intros Hup Hp. unfold asyncHandler, login, bind.
  rewrite login_gate_run by done. cbn [world]. rewrite Hp. reflexivity.
Qed.

Lemma login_store_down :
  redisUp env = false ->
  asyncHandler (login bc cfg env req) w =
  mkReply (NextError (EStore "redis")) fresh_ctx w.
Proof.
  intros Hup. unfold asyncHandler, login, login_gate, checkRateLimit,
    redis_call, bind. rewrite Hup. reflexivity.
Qed.

Hypothesis Hpass : passes_rate_limit env req w = true.
Hypothesis Hdb : dbUp env = true.

Lemma login_admitted :
  asyncHandler (login bc cfg env req) w =
  asyncHandler
    (login_check bc cfg env req (findUniqueByEmail (body_email req) (db w)))
    (gate_world env req w).
Proof.
  unfold asyncHandler, login, bind.
  rewrite login_gate_run by (by eapply passes_redisUp).
  cbn [world]. rewrite Hpass.
  unfold login_lookup, prisma_call. rewrite Hdb. reflexivity.
Qed.

Lemma login_unknown_email :
  findUniqueByEmail (body_email req) (db w) = None ->
  asyncHandler (login bc cfg env req) w =
  mkReply (NextError (EApp genericError))
          (mkCtx [] None [EvBcryptCompare (body_password req) dummy_hash])
          (gate_world env req w).
Proof. intros Hf. rewrite login_admitted, Hf. reflexivity. Qed.

Lemma login_locked u :
  findUniqueByEmail (body_email req) (db w) = Some u ->
  is_locked (now env) u = true ->
  asyncHandler (login bc cfg env req) w =
  mkReply (NextError (EApp accountLocked))
          (mkCtx [] None
                 [EvSecurityLog "warn" "Login attempt on locked account"])
          (gate_world env req w).
Proof.
  intros Hf Hl. rewrite login_admitted, Hf.
  unfold asyncHandler, login_check. rewrite Hl. reflexivity.
Qed.

Lemma login_wrong_password u :
  findUniqueByEmail (body_email req) (db w) = Some u ->
  is_locked (now env) u = false ->
  u_isActive u = true ->
  bc (body_password req) (u_passwordHash u) = false ->
  asyncHandler (login bc cfg env req) w =
  mkReply (NextError (EApp genericError))
          (mkCtx [] None
                 [EvBcryptCompare (body_password req) (u_passwordHash u);
                  EvSecurityLog "warn" "Failed login attempt";
                  EvAudit "auth.failed_login" (u_id u)])
          (mkWorld
             (redis (gate_world env req w))
             (update_rows (u_id u)
                (set_failed (u_failedLoginAttempts u + 1)
                   (if maxLoginAttempts <=? u_failedLoginAttempts u + 1
                    then Some (now env + lockoutDuration) else None))
                (db w))).
Proof.
  intros Hf Hl Ha Hbc. rewrite login_admitted, Hf.
  destruct (find_email_Some_id _ _ _ Hf) as [u' Hid].
  unfold asyncHandler, login_check, gate_world, fresh_ctx.
  rewrite Hl, Ha. run_m. rewrite Hbc, Hdb. run_m. rewrite Hid.
  reflexivity.
Qed.

Lemma login_success u :
  findUniqueByEmail (body_email req) (db w) = Some u ->
  is_locked (now env) u = false ->
  u_isActive u = true ->
  bc (body_password req) (u_passwordHash u) = true ->
  asyncHandler (login bc cfg env req) w =
  mkReply (Responded (BodyLogin "Login successful" (u_id u) (u_email u)
                                (u_firstName u) (u_lastName u) (u_role u)
                                (u_emailVerified u)))
          (mkCtx [SetCookie "access_token"
                    (generateAccessToken cfg (u_id u) (u_email u) (u_role u)
                                         (uuid env) (now env));
                  SetCookie "refresh_token"
                    (generateRefreshToken cfg (u_id u) (u_email u) (u_role u)
                                          (uuid env) (now env))]
                 None
                 [EvBcryptCompare (body_password req) (u_passwordHash u);
                  EvAudit "auth.login" (u_id u)])
          (mkWorld
             (redis_setex (now env) (session_key (uuid env))
                (if body_rememberMe req then 30 * 24 * 60 * 60
                 else 24 * 60 * 60)
                (VJson (mkSession (u_id u) (now env) (clientIp req)
                                  (req_userAgent req)))
                (redis (gate_world env req w)))
             (update_rows (u_id u) (set_lastLogin (now env))
                (if 0 <? u_failedLoginAttempts u
                 then update_rows (u_id u) (set_failed 0 None) (db w)
                 else db w))).
Proof.
  intros Hf Hl Ha Hbc. rewrite login_admitted, Hf.
  destruct (find_email_Some_id _ _ _ Hf) as [u' Hid].
  pose proof (passes_redisUp _ _ _ Hpass) as Hup.
  unfold asyncHandler, login_check, gate_world, fresh_ctx.
  rewrite Hl, Ha. run_m. rewrite Hbc, Hdb, Hup. run_m.
  destruct (0 <? u_failedLoginAttempts u) eqn:Hn; run_m.
  - rewrite Hid. run_m.
    rewrite find_id_update by done. rewrite Hid. reflexivity.
  - rewrite Hid. reflexivity.
Qed.

End LoginBranches.

(** After the gate, [login] touches Redis only under the new session's
    key, and never answers with the rate limiter's error. *)
Lemma login_check_frame bc cfg env req found s res s' k :
  login_check bc cfg env req found s = (res, s') ->
  k ≠ session_key (uuid env) ->
  redis (world s') !! k = redis (world s) !! k ∧ res ≠ inl (EApp rateLimited).
Proof.
  intros Hrun Hk. unfold login_check in Hrun. revert Hrun. run_m.
  repeat (case_match; run_m); intros; simplify_eq; cbn [world redis];
    (split; [unfold redis_setex; rewrite ?lookup_insert_ne by done; reflexivity
            | discriminate]).
Qed.

(** One [login] request seen from its rate-limit counter. *)
Lemma login_counter_step bc cfg env req w :
  redisUp env = true ->
  let rp := asyncHandler (login bc cfg env req) w in
  redis (after rp) !! login_rate_key req =
    bump (now env) (15 * 60) (redis w) (login_rate_key req) !! login_rate_key req
  ∧ (outcome rp = NextError (EApp rateLimited) <->
     passes_rate_limit env req w = false).
Proof.
  intros Hup. cbv zeta.
  destruct (passes_rate_limit env req w) eqn:Hp.
  - unfold asyncHandler, login, bind. rewrite login_gate_run by done.
    cbn [world]. rewrite Hp.
    destruct (login_lookup env req _) as [[e|found] s1] eqn:Hlook.
    + unfold login_lookup, prisma_call in Hlook.
      destruct (dbUp env); revert Hlook; run_m; intros; simplify_eq;
        cbn; split; [done | split; [discriminate | discriminate]].
    + assert (s1 = mkSt (gate_world env req w) fresh_ctx) as ->.
      { unfold login_lookup, prisma_call in Hlook.
        destruct (dbUp env); revert Hlook; run_m; intros; by simplify_eq. }
      destruct (login_check bc cfg env req found _) as [res s2] eqn:Hchk.
      eapply login_check_frame with (k := login_rate_key req) in Hchk
        as [Hfr Hne].
      2:{ intros Heq. symmetry in Heq. by apply session_key_ne_rate in Heq. }
      destruct res as [e|b]; cbn [after outcome]; rewrite Hfr; cbn;
        (split; [done | split; [|discriminate]]).
      * intros [= ->]. by destruct Hne.
      * discriminate.
  - rewrite login_rate_limited by done. cbn. done.
Qed.

(** A request rejected by the rate limiter has looked at nothing else: no
    row was read or written, bcrypt was not called, no cookie was set. *)
Lemma login_rate_limited_inert bc cfg env req w :
  outcome (asyncHandler (login bc cfg env req) w) = NextError (EApp rateLimited) ->
  reply_ctx (asyncHandler (login bc cfg env req) w) =
    mkCtx [] None [EvSecurityLog "warn" "Login rate limit exceeded"]
  ∧ db (after (asyncHandler (login bc cfg env req) w)) = db w.
Proof.
  intros Hout. destruct (redisUp env) eqn:Hup.
  - apply (login_counter_step bc cfg env req w Hup) in Hout.
    rewrite login_rate_limited by done. done.
  - rewrite login_store_down in Hout by done. discriminate.
Qed.

Lemma run_logins_app bc cfg l1 l2 w :
  run_logins bc cfg (l1 ++ l2) w =
  ((fst (run_logins bc cfg l1 w) ++
     fst (run_logins bc cfg l2 (snd (run_logins bc cfg l1 w))))%list,
   snd (run_logins bc cfg l2 (snd (run_logins bc cfg l1 w)))).
Proof.
  revert w. induction l1 as [|[env req] l1 IH]; intros w; cbn.
  - by destruct (run_logins bc cfg l2 w).
  - rewrite IH. by destruct (run_logins bc cfg l1 _).
Qed.

Lemma all_admitted_app bc cfg l1 l2 w :
  all_admitted bc cfg (l1 ++ l2) w <->
  all_admitted bc cfg l1 w ∧ all_admitted bc cfg l2 (snd (run_logins bc cfg l1 w)).
Proof.
  revert w. induction l1 as [|[env req] l1 IH]; intros w; cbn.
  - tauto.
  - rewrite IH. destruct (run_logins bc cfg l1 _) eqn:E. cbn. tauto.
Qed.

(** ** The rate limiter *)

Lemma login_live_counter bc cfg env req w n t :
  redisUp env = true -> now env < t ->
  redis w !! login_rate_key req = Some (mkEntry (VInt n) (Some t)) ->
  let rp := asyncHandler (login bc cfg env req) w in
  redis (after rp) !! login_rate_key req = Some (mkEntry (VInt (n + 1)) (Some t))
  ∧ (outcome rp = NextError (EApp rateLimited) <-> 5 < n + 1).
Proof.
  intros Hup Hlt Hk. cbv zeta.
  destruct (login_counter_step bc cfg env req w Hup) as [Hred Hout].
  rewrite Hred, Hout. erewrite bump_live by done.
  rewrite lookup_insert_eq. split; [done|].
  rewrite passes_rate_limit_spec, Hup. unfold redis_incr, rlive.
  rewrite Hk. unfold entry_live. cbn.
  destruct (Z.ltb_spec (now env) t); [|lia]. cbn.
  destruct (Z.leb_spec (n + 1) 5); split; (done || lia).
Qed.

Lemma run_logins_counting bc cfg attempts :
  forall w k n t,
    Forall (in_window k t) attempts ->
    redis w !! k = Some (mkEntry (VInt n) (Some t)) ->
    forall (i : nat) rp,
      fst (run_logins bc cfg attempts w) !! i = Some rp ->
      (outcome rp = NextError (EApp rateLimited) <-> 5 < n + Z.of_nat i + 1).
Proof.
  induction attempts as [|[env req] rest IH]; intros w k n t Hall Hk i rp.
  - cbn. by rewrite lookup_nil.
  - apply Forall_cons in Hall as [(Hkey & Hup & Hlt) Hrest].
    cbn in Hkey, Hup, Hlt. subst k.
    cbn [run_logins].
    destruct (run_logins bc cfg rest _) as [rps w'] eqn:Hrun. cbn [fst].
    destruct (login_live_counter bc cfg env req w n t Hup Hlt Hk) as [Hnext Hout].
    destruct i as [|i]; cbn.
    + intros [= <-]. rewrite Hout. lia.
    + intros Hi.
      specialize (IH _ _ _ _ Hrest Hnext i rp). rewrite Hrun in IH.
      rewrite (IH Hi). lia.
Qed.

(** C6.  Rate limiter.  A call of [checkRateLimit] on a key whose counter
    stands at [c] (zero for a missing or expired key) stores [c + 1],
    answers [allowed] exactly when [c + 1 <= maxAttempts] and
    [remaining = max 0 (maxAttempts - (c + 1))], and touches nothing else.
    For [login] (limit 5, window 900 s): of any run of requests of one
    client (same IP and e-mail) that begins with no live counter and stays
    inside the window opened by the first request, exactly the first five
    get past the limiter, whatever their credentials; the sixth and later
    ones end in [RATE_LIMITED], and a request that ends so has read no
    account and called no password comparison. *)
Theorem rate_limiter_semantics :
  (forall env key maxAttempts windowSeconds s c,
      redisUp env = true ->
      rate_count (now env) (redis (world s)) ("ratelimit:" +:+ key) = Some c ->
      exists rl s',
        checkRateLimit env key maxAttempts windowSeconds s = (inr rl, s')
        ∧ (allowed rl = true <-> c + 1 <= maxAttempts)
        ∧ remaining rl = Some (Z.max 0 (maxAttempts - (c + 1)))
        ∧ (exists ex, redis (world s') !! ("ratelimit:" +:+ key)
                      = Some (mkEntry (VInt (c + 1)) ex))
        ∧ (forall k', "ratelimit:" +:+ key ≠ k' ->
                      redis (world s') !! k' = redis (world s) !! k')
        ∧ db (world s') = db (world s) ∧ ctx s' = ctx s)
  ∧ (forall bc cfg w env1 req1 rest,
      rlive (now env1) (redis w) (login_rate_key req1) = None ->
      redisUp env1 = true ->
      Forall (in_window (login_rate_key req1) (now env1 + 15 * 60 * 1000)) rest ->
      forall (i : nat) rp,
        fst (run_logins bc cfg ((env1, req1) :: rest) w) !! i = Some rp ->
        (outcome rp = NextError (EApp rateLimited) <-> (5 <= i)%nat))
  ∧ (forall bc cfg env req w,
      outcome (asyncHandler (login bc cfg env req) w)
        = NextError (EApp rateLimited) ->
      reply_ctx (asyncHandler (login bc cfg env req) w)
        = mkCtx [] None [EvSecurityLog "warn" "Login rate limit exceeded"]
      ∧ db (after (asyncHandler (login bc cfg env req) w)) = db w).
Proof.
  split; [|split].
  - intros env key maxAttempts windowSeconds s c Hup Hc.
    eexists _, _. split; [by apply checkRateLimit_run|].
    cbn [allowed remaining world redis db ctx].
    rewrite (incr_count _ _ _ _ Hc). cbn.
    repeat split.
    + by intros ?%Z.leb_le.
    + by intros ?%Z.leb_le.
    + by apply bump_stored.
    + intros k' Hne. by apply bump_frame.
  - intros bc cfg w env1 req1 rest Hfresh Hup Hrest i rp.
    cbn [run_logins].
    destruct (run_logins bc cfg rest _) as [rps w'] eqn:Hrun. cbn [fst].
    destruct (login_counter_step bc cfg env1 req1 w Hup) as [Hred Hout].
    rewrite bump_fresh, lookup_insert_eq in Hred by done.
    destruct i as [|i]; cbn.
    + intros [= <-]. rewrite Hout, passes_rate_limit_spec, Hup.
      unfold redis_incr. rewrite Hfresh. cbn. split; [done | lia].
    + intros Hi.
      pose proof (run_logins_counting bc cfg rest _ _ 1 _ Hrest Hred i rp) as Hc.
      rewrite Hrun in Hc. rewrite (Hc Hi). lia.
  - intros. by apply login_rate_limited_inert.
Qed.

(** The rate limiter on a fresh counter and on six requests of one
    client. *)
Lemma rate_limiter_semantics_witness :
  (exists rl s',
      checkRateLimit (sample_env 1000 "x") "login:10.0.0.1:alice@example.com"
                     5 (15 * 60) (mkSt sample_world fresh_ctx) = (inr rl, s')
      ∧ (allowed rl = true <-> 0 + 1 <= 5)
      ∧ remaining rl = Some (Z.max 0 (5 - (0 + 1))))
  ∧ (forall rp,
        fst (run_logins sample_bcrypt sample_cfg
               ((sample_env 1000 "s1", sample_login "10.0.0.1" "guess 1")
                  :: five_more)
               sample_world) !! 5%nat = Some rp ->
        outcome rp = NextError (EApp rateLimited)).
Proof.
  destruct rate_limiter_semantics as (H1 & H2 & H3). split.
  - specialize (H1 (sample_env 1000 "x") "login:10.0.0.1:alice@example.com"
                   5 (15 * 60) (mkSt sample_world fresh_ctx) 0).
    feed 2 H1. destruct H1 as (rl & s' & Hrun & Hall & Hrem & _).
    exists rl, s'. repeat split; (apply Hrun || apply Hall || apply Hrem).
  - intros rp E.
    specialize (H2 sample_bcrypt sample_cfg sample_world
                   (sample_env 1000 "s1") (sample_login "10.0.0.1" "guess 1")
                   five_more).
    feed 2 H2.
    assert (Hwin : Forall (in_window
                             (login_rate_key (sample_login "10.0.0.1" "guess 1"))
                             (now (sample_env 1000 "s1") + 15 * 60 * 1000))
                          five_more).
    { unfold five_more, five_wrong. cbn [tl app].
      repeat (constructor; [repeat split; crunch|]). constructor. }
    apply (H2 Hwin 5%nat rp E). lia.
Defined.

(** ** The login gate *)

Lemma login_check_consistent bc cfg env req found s res s' :
  login_check bc cfg env req found s = (res, s') ->
  Forall counter_consistent (db (world s)) ->
  (forall u, found = Some u -> counter_consistent u) ->
  Forall counter_consistent (db (world s')).
Proof.
  intros Hrun Hd Hfound. unfold login_check in Hrun. revert Hrun. run_m.
  repeat (case_match; run_m); intros; simplify_eq; cbn [world db]; try done;
    destruct (Hfound _ eq_refl) as [Hnn Hz];
    repeat (apply update_rows_Forall; [|intros x [Hx1 Hx2]; split; cbn; first [lia | done | auto]]);
    done.
Qed.

Lemma login_keeps_counters_consistent bc cfg env req w :
  Forall counter_consistent (db w) ->
  Forall counter_consistent (db (after (asyncHandler (login bc cfg env req) w))).
Proof.
  intros Hd. unfold asyncHandler, login, bind.
  destruct (redisUp env) eqn:Hup.
  - rewrite login_gate_run by done. cbn [world].
    destruct (passes_rate_limit env req w); [|done].
    unfold login_lookup, prisma_call.
    destruct (dbUp env); run_m; [|done].
    destruct (login_check bc cfg env req _ _) as [res s'] eqn:Hchk.
    eapply login_check_consistent in Hchk; [| done |].
    + by destruct res.
    + intros u Hu. cbn [gate_world db] in Hu.
      by eapply find_email_Forall.
  - unfold login_gate, checkRateLimit, redis_call, bind. by rewrite Hup.
Qed.

(** Below the maximum every wrong password adds one to the counter and
    leaves the account unlocked. *)
Lemma run_wrong_passwords bc cfg attempts :
  forall w u,
    findUniqueByEmail (u_email u) (db w) = Some u ->
    u_isActive u = true ->
    u_lockedUntil u = None ->
    u_failedLoginAttempts u + Z.of_nat (length attempts) < maxLoginAttempts ->
    Forall (wrong_password_attempt bc u) attempts ->
    all_admitted bc cfg attempts w ->
    Forall (fun rp => outcome rp = NextError (EApp genericError))
           (fst (run_logins bc cfg attempts w))
    ∧ findUniqueByEmail (u_email u) (db (snd (run_logins bc cfg attempts w)))
      = Some (set_failed (u_failedLoginAttempts u + Z.of_nat (length attempts))
                         None u).
Proof.
  induction attempts as [|[env req] rest IH]; intros w u Hf Ha Hl Hn Hall Hadm.
  - cbn. split; [constructor|]. rewrite Hf. f_equal.
    destruct u; cbn in *. subst. unfold set_failed. cbn. f_equal. lia.
  - apply Forall_cons in Hall as [(Hem & Hbc & Hdb) Hrest].
    destruct Hadm as [Hpass Hadm]. cbn in Hem, Hbc, Hdb.
    cbn [length] in Hn.
    assert (Hlk : is_locked (now env) u = false) by (unfold is_locked; by rewrite Hl).
    rewrite <- Hem in Hf.
    pose proof (login_wrong_password bc cfg env req w Hpass Hdb u Hf Hlk Ha Hbc)
      as Hstep.
    rewrite Hstep in Hadm.
    destruct (Z.leb_spec maxLoginAttempts (u_failedLoginAttempts u + 1));
      [lia|].
    set (u1 := set_failed (u_failedLoginAttempts u + 1) None u) in *.
    set (w1 := mkWorld _ _) in *.
    specialize (IH w1 u1).
    cbn [run_logins]. rewrite Hstep. cbn [after].
    destruct (run_logins bc cfg rest w1) as [rps w'] eqn:Hrun.
    cbn [fst snd] in *.
    destruct IH as [IH1 IH2]; try done.
    + subst w1 u1. cbn [db]. rewrite Hem in Hf.
      change (u_email (set_failed _ _ u)) with (u_email u).
      by apply find_email_update.
    + subst u1. cbn. lia.
    + split; [constructor; [done | exact IH1]|].
      change (u_email u1) with (u_email u) in IH2. rewrite IH2.
      subst u1. rewrite set_failed_twice. cbn. f_equal. f_equal. lia.
Qed.

(** C3, as stated, fails: after five wrong passwords from one address the
    account is locked until 1805000, and the next request from that
    address, one second later and with the right password, is answered
    [RATE_LIMITED], not [ACCOUNT_LOCKED]. *)
Lemma lockout_any_attempt_counterexample :
  let w5 := snd (run_logins sample_bcrypt sample_cfg five_wrong sample_world) in
  let rp := asyncHandler
              (login sample_bcrypt sample_cfg (sample_env 6000 "s6")
                     (sample_login "10.0.0.1" "correct horse")) w5 in
  (u_lockedUntil <$> findUniqueByEmail "alice@example.com" (db w5))
    = Some (Some 1805000)
  ∧ 6000 < 1805000
  ∧ outcome rp = NextError (EApp rateLimited)
  ∧ outcome rp ≠ NextError (EApp accountLocked).
Proof. vm_compute. repeat split; congruence. Qed.

(** C3, amended.  An account that is active, unlocked and has a zero
    counter stays unlocked through four consecutive wrong-password requests
    and is locked by the fifth ([maxLoginAttempts]), with [lockedUntil] set
    to the time of that request plus [lockoutDuration]; every one of the
    five is answered [INVALID_CREDENTIALS].  The requests are those that
    the rate limiter lets through.  While that instant has not been
    reached, any request for the account that gets past the rate limiter
    is answered [ACCOUNT_LOCKED] without a password comparison and without
    a write to the account. *)
Theorem lockout_after_max_failures bc cfg w u earlier envN reqN :
  findUniqueByEmail (u_email u) (db w) = Some u ->
  u_isActive u = true ->
  u_lockedUntil u = None ->
  u_failedLoginAttempts u = 0 ->
  length earlier = Z.to_nat (maxLoginAttempts - 1) ->
  Forall (wrong_password_attempt bc u) (earlier ++ [(envN, reqN)])%list ->
  all_admitted bc cfg (earlier ++ [(envN, reqN)])%list w ->
  let w4 := snd (run_logins bc cfg earlier w) in
  let w5 := snd (run_logins bc cfg (earlier ++ [(envN, reqN)])%list w) in
  Forall (fun rp => outcome rp = NextError (EApp genericError))
         (fst (run_logins bc cfg (earlier ++ [(envN, reqN)])%list w))
  ∧ findUniqueByEmail (u_email u) (db w4)
    = Some (set_failed (maxLoginAttempts - 1) None u)
  ∧ findUniqueByEmail (u_email u) (db w5)
    = Some (set_failed maxLoginAttempts
                       (Some (now envN + lockoutDuration)) u)
  ∧ (forall env req,
        body_email req = u_email u ->
        now env < now envN + lockoutDuration ->
        passes_rate_limit env req w5 = true ->
        dbUp env = true ->
        asyncHandler (login bc cfg env req) w5 =
        mkReply (NextError (EApp accountLocked))
                (mkCtx [] None
                   [EvSecurityLog "warn" "Login attempt on locked account"])
                (gate_world env req w5)).
Proof.
  intros Hf Ha Hl Hn Hlen Hall Hadm.
  apply Forall_app in Hall as [Hearly Hlast].
  apply Forall_cons in Hlast as [(Hem & Hbc & Hdb) _].
  apply all_admitted_app in Hadm as [Hadm1 [Hadm2 _]].
  cbn in Hem, Hbc, Hdb.
  destruct (run_wrong_passwords bc cfg earlier w u) as [Hrps Hu4]; try done.
  { rewrite Hn, Hlen. unfold maxLoginAttempts. lia. }
  rewrite Hn, Hlen in Hu4.
  change (0 + Z.of_nat (Z.to_nat (maxLoginAttempts - 1)))
    with (maxLoginAttempts - 1) in Hu4.
  cbv zeta. rewrite run_logins_app. cbn [fst snd].
  set (w4 := snd (run_logins bc cfg earlier w)) in *.
  set (u4 := set_failed (maxLoginAttempts - 1) None u) in *.
  assert (Hstep := login_wrong_password bc cfg envN reqN w4 Hadm2 Hdb u4).
  rewrite Hem in Hstep. specialize (Hstep Hu4 eq_refl Ha Hbc).
  cbn [run_logins fst snd]. rewrite Hstep. cbn [after db].
  assert (Hu5 : findUniqueByEmail (u_email u)
                  (update_rows (u_id u4)
                     (set_failed (u_failedLoginAttempts u4 + 1)
                        (if maxLoginAttempts <=? u_failedLoginAttempts u4 + 1
                         then Some (now envN + lockoutDuration) else None))
                     (db w4))
                = Some (set_failed maxLoginAttempts
                          (Some (now envN + lockoutDuration)) u)).
  { erewrite find_email_update by done. reflexivity. }
  repeat split.
  - apply Forall_app. split; [done|]. by repeat constructor.
  - done.
  - exact Hu5.
  - intros env req Hem' Hlt Hpass Hdb'.
    eapply login_locked; try done.
    + cbn [db]. rewrite Hem'. exact Hu5.
    + unfold is_locked. cbn. by apply Z.ltb_lt.
Qed.

(** Alice's account: five wrong passwords, then the right one from
    another address. *)
Lemma lockout_after_max_failures_witness :
  let earlier := firstn 4 five_wrong in
  let envN := sample_env 5000 "s5" in
  let reqN := sample_login "10.0.0.1" "guess 5" in
  let w5 := snd (run_logins sample_bcrypt sample_cfg
                            (earlier ++ [(envN, reqN)])%list sample_world) in
  findUniqueByEmail "alice@example.com" (db w5)
    = Some (set_failed 5 (Some (5000 + lockoutDuration)) alice)
  ∧ outcome (asyncHandler
               (login sample_bcrypt sample_cfg (sample_env 6000 "s6")
                      (sample_login "10.0.0.2" "correct horse")) w5)
    = NextError (EApp accountLocked).
Proof.
  intros earlier envN reqN w5.
  pose proof (lockout_after_max_failures sample_bcrypt sample_cfg sample_world
                alice earlier envN reqN) as H.
  feed 5 H.
  specialize (H ltac:(vm_compute; repeat (constructor || split))).
  specialize (H ltac:(vm_compute; repeat split)).
  destruct H as (_ & _ & H3 & H4).
  split; [exact H3|].
  specialize (H4 (sample_env 6000 "s6")
                 (sample_login "10.0.0.2" "correct horse")).
  feed 4 H4. fold w5 in H4. rewrite H4. reflexivity.
Defined.




(** C8, as stated, fails: after four logins with the right password and
    one with a wrong one, all from one address, Alice's account is active,
    not locked, and has a counter of 1; the next request from that address,
    with the right password, is the sixth on its rate-limit key and is
    answered [RATE_LIMITED]: it does not succeed and the counter stays 1.
    Nor does the right password log in to a deactivated account, or, from
    a fresh address, to an account inside its lockout. *)
Lemma correct_password_rate_limited_counterexample :
  let w5 := snd (run_logins sample_bcrypt sample_cfg four_right_one_wrong
                            sample_world) in
  let rp := asyncHandler
              (login sample_bcrypt sample_cfg (sample_env 6000 "s6")
                     (sample_login "10.0.0.1" "correct horse")) w5 in
  let rp_off := asyncHandler
                  (login sample_bcrypt sample_cfg (sample_env 1000 "s1")
                         (sample_login "10.0.0.1" "correct horse"))
                  (mkWorld ∅ [alice_deactivated]) in
  let rp_locked := asyncHandler
                     (login sample_bcrypt sample_cfg (sample_env 6000 "s6")
                            (sample_login "10.0.0.2" "correct horse"))
                     w_locked in
  findUniqueByEmail "alice@example.com" (db w5)
    = Some (set_failed 1 None (set_lastLogin 4000 alice))
  ∧ sample_bcrypt "correct horse" (u_passwordHash alice) = true
  ∧ outcome rp = NextError (EApp rateLimited)
  ∧ findUniqueByEmail "alice@example.com" (db (after rp))
    = Some (set_failed 1 None (set_lastLogin 4000 alice))
  ∧ outcome rp_off
    = NextError (EApp (mkAppError "Account is deactivated" 403
                                  "ACCOUNT_DEACTIVATED"))
  ∧ outcome rp_locked = NextError (EApp accountLocked).
Proof. vm_compute. repeat split. Qed.

(** C8, amended.  A request with the right password for an account that
    is active and not inside a lockout (never locked, or locked with the
    lockout instant already passed), let through by the rate limiter,
    succeeds whatever the counter's value: it is answered with the login
    body and both cookies, and afterwards the account's counter is zero and
    its lockout instant is cleared.  (The code writes the two columns only
    when the counter is positive; a lockout instant never exists beside a
    zero counter.) *)
Theorem correct_password_resets_counter bc cfg env req w u :
  findUniqueByEmail (body_email req) (db w) = Some u ->
  is_locked (now env) u = false ->
  u_isActive u = true ->
  0 <= u_failedLoginAttempts u ->
  (u_failedLoginAttempts u = 0 -> u_lockedUntil u = None) ->
  passes_rate_limit env req w = true ->
  dbUp env = true ->
  bc (body_password req) (u_passwordHash u) = true ->
  let rp := asyncHandler (login bc cfg env req) w in
  outcome rp = Responded (BodyLogin "Login successful" (u_id u) (u_email u)
                                    (u_firstName u) (u_lastName u) (u_role u)
                                    (u_emailVerified u))
  ∧ cookies (reply_ctx rp) =
      [SetCookie "access_token"
         (generateAccessToken cfg (u_id u) (u_email u) (u_role u)
                              (uuid env) (now env));
       SetCookie "refresh_token"
         (generateRefreshToken cfg (u_id u) (u_email u) (u_role u)
                               (uuid env) (now env))]
  ∧ exists u',
      findUniqueByEmail (body_email req) (db (after rp)) = Some u'
      ∧ u_failedLoginAttempts u' = 0
      ∧ u_lockedUntil u' = None.
Proof.
  intros Hf Hl Ha Hn Hinv Hpass Hdb Hbc. cbv zeta.
  rewrite (login_success bc cfg env req w Hpass Hdb u Hf Hl Ha Hbc).
  cbn [outcome reply_ctx cookies after db]. repeat split.
  destruct (Z.ltb_spec 0 (u_failedLoginAttempts u)).
  - exists (set_lastLogin (now env) (set_failed 0 None u)). repeat split.
    change (u_id u) with (u_id (set_failed 0 None u)) at 1.
    apply find_email_update; [done|]. by apply find_email_update.
  - exists (set_lastLogin (now env) u). repeat split.
    + by apply find_email_update.
    + cbn. lia.
    + cbn. apply Hinv. lia.
Qed.

(** The right password after four wrong ones. *)
Lemma correct_password_resets_counter_witness :
  let w4 := snd (run_logins sample_bcrypt sample_cfg (firstn 4 five_wrong)
                            sample_world) in
  let rp := asyncHandler
              (login sample_bcrypt sample_cfg (sample_env 5000 "s5")
                     (sample_login "10.0.0.1" "correct horse")) w4 in
  exists u',
    findUniqueByEmail "alice@example.com" (db (after rp)) = Some u'
    ∧ u_failedLoginAttempts u' = 0
    ∧ u_lockedUntil u' = None.
Proof.
  intros w4 rp.
  pose proof (correct_password_resets_counter sample_bcrypt sample_cfg
                (sample_env 5000 "s5")
                (sample_login "10.0.0.1" "correct horse")
                w4 (set_failed 4 None alice)) as H.
  feed 8 H. destruct H as (_ & _ & H3).
  exact H3.
Defined.

(** ** Account enumeration *)

(** The dummy hash [login] compares against has 46 characters. *)
Lemma dummy_hash_length : String.length dummy_hash = 46%nat.
Proof. reflexivity. Qed.

(** C7.  Account enumeration at login: one error, but not one cost.  Take
    two requests that both get past the rate limiter: one whose e-mail
    matches no account, one for an existing, active, unlocked account with
    a wrong password, whose stored hash has the 60 characters of a bcrypt
    hash.  Both are handed the same error (message, status 401 and code
    [INVALID_CREDENTIALS] all equal), neither sets or clears a cookie, and
    each has called [bcrypt.compare] exactly once before failing.  But the
    call on the unknown-e-mail path compares with the fixed dummy string,
    which is no bcrypt hash (46 characters): it runs no hash function,
    while the call on the other path runs one.  The dummy comparison is
    not of equivalent cost. *)
Theorem login_dummy_comparison_is_free bc cfg env1 req1 w1 env2 req2 w2 u :
  passes_rate_limit env1 req1 w1 = true -> dbUp env1 = true ->
  findUniqueByEmail (body_email req1) (db w1) = None ->
  passes_rate_limit env2 req2 w2 = true -> dbUp env2 = true ->
  findUniqueByEmail (body_email req2) (db w2) = Some u ->
  u_isActive u = true ->
  is_locked (now env2) u = false ->
  bc (body_password req2) (u_passwordHash u) = false ->
  String.length (u_passwordHash u) = 60%nat ->
  let rp1 := asyncHandler (login bc cfg env1 req1) w1 in
  let rp2 := asyncHandler (login bc cfg env2 req2) w2 in
  outcome rp1 = outcome rp2
  ∧ outcome rp1 =
      NextError (EApp (mkAppError "Invalid email or password" 401
                                  "INVALID_CREDENTIALS"))
  ∧ cookies (reply_ctx rp1) = cookies (reply_ctx rp2)
  ∧ effects (reply_ctx rp1) = [EvBcryptCompare (body_password req1) dummy_hash]
  ∧ bcrypt_calls (effects (reply_ctx rp1)) = 1%nat
  ∧ bcrypt_calls (effects (reply_ctx rp2)) = 1%nat
  ∧ hashing_calls (effects (reply_ctx rp1)) = 0%nat
  ∧ hashing_calls (effects (reply_ctx rp2)) = 1%nat.
Proof.
  intros Hp1 Hd1 Hf1 Hp2 Hd2 Hf2 Ha Hl Hbc Hlen. cbv zeta.
  rewrite (login_unknown_email bc cfg env1 req1 w1 Hp1 Hd1 Hf1).
  rewrite (login_wrong_password bc cfg env2 req2 w2 Hp2 Hd2 u Hf2 Hl Ha Hbc).
  repeat split.
  cbn [reply_ctx effects]. unfold hashing_calls, compare_hashes.
  cbn [List.filter]. by rewrite Hlen.
Qed.

(** An unknown address and Bob's, both with a wrong password. *)
Lemma login_dummy_comparison_is_free_witness :
  let w := mkWorld ∅ [bob] in
  let rp1 := asyncHandler
               (login sample_bcrypt sample_cfg (sample_env 1000 "s1")
                      (login_as "nobody@example.com" "guess")) w in
  let rp2 := asyncHandler
               (login sample_bcrypt sample_cfg (sample_env 1000 "s1")
                      (login_as "bob@example.com" "guess")) w in
  outcome rp1 = outcome rp2
  ∧ hashing_calls (effects (reply_ctx rp1)) = 0%nat
  ∧ hashing_calls (effects (reply_ctx rp2)) = 1%nat.
Proof.
  intros w rp1 rp2.
  pose proof (login_dummy_comparison_is_free sample_bcrypt sample_cfg
                (sample_env 1000 "s1") (login_as "nobody@example.com" "guess")
                w
                (sample_env 1000 "s1") (login_as "bob@example.com" "guess")
                w bob) as H.
  feed 10 H. destruct H as (H1 & _ & _ & _ & _ & _ & H7 & H8).
  repeat split; assumption.
Defined.

(** ** The middlewares *)

(** C10.  [optionalAuth] never rejects: whatever the cookie holds and
    whether or not Redis and the user table answer, it calls [next()]
    without an error and leaves both stores as they were.  It sets
    [req.user] exactly when the cookie is present, the token verifies as
    an access token, neither store call failed, the token's session is not
    blacklisted, and the account exists and is active; the identity is
    then the account's id, e-mail and role. *)
Theorem optionalAuth_never_rejects cfg env req w :
  let rp := middleware (optionalAuth cfg env req) w in
  outcome rp = NextOk
  ∧ after rp = w
  ∧ (forall i,
        user (reply_ctx rp) = Some i <->
        exists p u,
          token_present (cookie_access req) = true
          ∧ jwt_verify (token_value (cookie_access req)) (accessSecret cfg)
                       issuer audience (now env) = JwtOk p
          ∧ redisUp env = true
          ∧ redis_get (now env) (redis w) (blacklist_key (p_sessionId p)) = None
          ∧ dbUp env = true
          ∧ findUniqueById (p_userId p) (db w) = Some u
          ∧ u_isActive u = true
          ∧ i = mkIdentity (u_id u) (u_email u) (u_role u)).
Proof.
  cbv zeta. unfold middleware, optionalAuth, verifyAccessToken,
    isSessionBlacklisted, fresh_ctx.
  destruct w as [r d].
  destruct (token_present (cookie_access req)) eqn:Htok; run_m.
  2:{ repeat split; try done. intros (?&?&?&_); done. }
  destruct (jwt_verify _ _ _ _ _) as [p| |msg] eqn:Hv; run_m.
  2,3: (repeat split; try done; intros (?&?&?&?&_); done).
  destruct (redisUp env) eqn:Hr; run_m.
  2:{ repeat split; try done. intros (?&?&?&?&?&_); done. }
  destruct (redis_get (now env) r (blacklist_key (p_sessionId p))) as [v|] eqn:Hb;
    run_m.
  1:{ repeat split; try done. intros (?&?&?&?&?&?&_). simplify_eq. }
  destruct (dbUp env) eqn:Hd; run_m.
  2:{ repeat split; try done. intros (?&?&?&?&?&?&?&_); done. }
  destruct (findUniqueById (p_userId p) d) as [u|] eqn:Hu; run_m.
  2:{ repeat split; try done. intros (?&?&?&?&?&?&?&?&_). simplify_eq. }
  destruct (u_isActive u) eqn:Ha; run_m.
  - repeat split; try done.
    + intros [= <-]. exists p, u. done.
    + intros (p'&u'&?&?&?&?&?&?&?&->). by simplify_eq.
  - repeat split; try done.
    intros (p'&u'&?&?&?&?&?&?&?&?). simplify_eq. congruence.
Qed.

(** Optional authentication with both stores down. *)
Lemma optionalAuth_never_rejects_witness :
  outcome (middleware
             (optionalAuth sample_cfg (mkEnv 3000 "y" false false)
                           with_access_cookie) w_logged_in) = NextOk.
Proof.
  apply (optionalAuth_never_rejects sample_cfg (mkEnv 3000 "y" false false)
           with_access_cookie w_logged_in).
Defined.

(** A verified token whose session is on the blacklist. *)
Lemma authenticate_blacklisted cfg env req w p v :
  token_present (presented_token req) = true ->
  jwt_verify (token_value (presented_token req)) (accessSecret cfg)
             issuer audience (now env) = JwtOk p ->
  redisUp env = true ->
  redis_get (now env) (redis w) (blacklist_key (p_sessionId p)) = Some v ->
  middleware (authenticate cfg env req) w =
  mkReply (NextError (EApp sessionExpired)) (mkCtx clear_both None []) w.
Proof.
  intros Htok Hv Hup Hb.
  unfold middleware, authenticate, verifyAccessToken, isSessionBlacklisted, fresh_ctx.
  destruct w as [r d]. cbn [redis] in Hb.
  rewrite Htok, Hv. run_m. rewrite Hup. run_m. rewrite Hb. reflexivity.
Qed.

(** What [authenticate] has established when it calls [next()]. *)
Lemma authenticate_accept_inv cfg env req w :
  outcome (middleware (authenticate cfg env req) w) = NextOk ->
  exists p u,
    token_present (presented_token req) = true
    ∧ jwt_verify (token_value (presented_token req)) (accessSecret cfg)
                 issuer audience (now env) = JwtOk p
    ∧ redis_get (now env) (redis w) (blacklist_key (p_sessionId p)) = None
    ∧ findUniqueById (p_userId p) (db w) = Some u
    ∧ u_isActive u = true
    ∧ is_locked (now env) u = false
    ∧ user (reply_ctx (middleware (authenticate cfg env req) w))
      = Some (mkIdentity (u_id u) (u_email u) (u_role u)).
Proof.
  unfold middleware, authenticate, verifyAccessToken, isSessionBlacklisted, fresh_ctx.
  destruct w as [r d]. cbn [redis db].
  destruct (token_present (presented_token req)) eqn:Htok; run_m; [|done].
  destruct (jwt_verify _ _ _ _ _) as [p| |msg] eqn:Hv; run_m; [|done|done].
  destruct (redisUp env) eqn:Hr; run_m; [|done].
  destruct (redis_get (now env) r (blacklist_key (p_sessionId p))) as [v|] eqn:Hb;
    run_m; [done|].
  destruct (dbUp env) eqn:Hd; run_m; [|done].
  destruct (findUniqueById (p_userId p) d) as [u|] eqn:Hu; run_m; [|done].
  destruct (u_isActive u) eqn:Ha; run_m; [|done].
  destruct (is_locked (now env) u) eqn:Hl; run_m; [done|].
  intros _. exists p, u. done.
Qed.

(** [authenticate] reads the blacklist and the user table and nothing
    else: two worlds that agree on those get the same answer. *)
Lemma authenticate_ignores_registry cfg env req w w' :
  db w' = db w ->
  (forall sid,
      redis_get (now env) (redis w') (blacklist_key sid)
      = redis_get (now env) (redis w) (blacklist_key sid)) ->
  outcome (middleware (authenticate cfg env req) w')
  = outcome (middleware (authenticate cfg env req) w)
  ∧ reply_ctx (middleware (authenticate cfg env req) w')
    = reply_ctx (middleware (authenticate cfg env req) w).
Proof.
  intros Hdb Hbl.
  unfold middleware, authenticate, verifyAccessToken, isSessionBlacklisted, fresh_ctx.
  destruct w as [r d], w' as [r' d']. cbn [redis db] in *. subst d'.
  destruct (token_present (presented_token req)) eqn:Htok; run_m; [|done].
  destruct (jwt_verify _ _ _ _ _) as [p| |msg] eqn:Hv; run_m; [|done|done].
  destruct (redisUp env) eqn:Hr; run_m; [|done].
  rewrite Hbl.
  destruct (redis_get (now env) r (blacklist_key (p_sessionId p))) as [v|] eqn:Hb;
    run_m; [done|].
  destruct (dbUp env) eqn:Hd; run_m; [|done].
  destruct (findUniqueById (p_userId p) d) as [u|] eqn:Hu; run_m; [|done].
  destruct (u_isActive u) eqn:Ha; run_m; [|done].
  destruct (is_locked (now env) u) eqn:Hl; run_m; done.
Qed.

(** C2, as stated, fails.  Alice logs in (session [s1]) and rotates her
    refresh token, which deletes [session:s1]; two seconds later the access
    token of session [s1] is still accepted although the Session Registry
    no longer holds that session. *)
Lemma authenticate_registry_counterexample :
  let rp1 := asyncHandler
               (login sample_bcrypt sample_cfg (sample_env 1000 "s1")
                      (sample_login "10.0.0.1" "correct horse"))
               sample_world in
  let at1 := generateAccessToken sample_cfg "u-alice" "alice@example.com"
                                 "CUSTOMER" "s1" 1000 in
  let rt1 := generateRefreshToken sample_cfg "u-alice" "alice@example.com"
                                  "CUSTOMER" "s1" 1000 in
  let rp2 := asyncHandler
               (refreshToken sample_cfg (sample_env 2000 "s2")
                  (mkRequest None (Some rt1) None "" "" false
                             (Some "10.0.0.1") "agent"))
               (after rp1) in
  let rp3 := middleware
               (authenticate sample_cfg (sample_env 3000 "s3")
                  (mkRequest (Some at1) None None "" "" false
                             (Some "10.0.0.1") "agent"))
               (after rp2) in
  cookies (reply_ctx rp1) = [SetCookie "access_token" at1;
                             SetCookie "refresh_token" rt1]
  ∧ outcome rp2 = Responded (BodyMessage "Token refreshed successfully")
  ∧ redis_get 3000 (redis (after rp2)) (session_key "s1") = None
  ∧ outcome rp3 = NextOk.
Proof. vm_compute. repeat split. Qed.

(** C2, amended.  [authenticate] lets a request through only if the
    presented access token verifies, the token's session id is not in the
    Revocation Ledger (no live [blacklist:session:<id>] entry), and the
    account exists, is active and is not locked; it then attaches that
    account's identity.  The Session Registry is not consulted.  A request
    whose verified token names a blacklisted session is rejected with
    [SESSION_EXPIRED] and both cookies are cleared. *)
Theorem authenticate_accepts_only_unrevoked cfg env req w :
  let rp := middleware (authenticate cfg env req) w in
  (outcome rp = NextOk ->
   exists p u,
     token_present (presented_token req) = true
     ∧ jwt_verify (token_value (presented_token req)) (accessSecret cfg)
                  issuer audience (now env) = JwtOk p
     ∧ redis_get (now env) (redis w) (blacklist_key (p_sessionId p)) = None
     ∧ findUniqueById (p_userId p) (db w) = Some u
     ∧ u_isActive u = true
     ∧ is_locked (now env) u = false
     ∧ user (reply_ctx rp) = Some (mkIdentity (u_id u) (u_email u) (u_role u)))
  ∧ (forall p v,
        token_present (presented_token req) = true ->
        jwt_verify (token_value (presented_token req)) (accessSecret cfg)
                   issuer audience (now env) = JwtOk p ->
        redisUp env = true ->
        redis_get (now env) (redis w) (blacklist_key (p_sessionId p)) = Some v ->
        outcome rp = NextError (EApp sessionExpired)
        ∧ cookies (reply_ctx rp) = clear_both
        ∧ user (reply_ctx rp) = None)
  ∧ (forall w',
        db w' = db w ->
        (forall sid,
            redis_get (now env) (redis w') (blacklist_key sid)
            = redis_get (now env) (redis w) (blacklist_key sid)) ->
        outcome (middleware (authenticate cfg env req) w') = outcome rp
        ∧ reply_ctx (middleware (authenticate cfg env req) w') = reply_ctx rp).
Proof.
  cbv zeta. split; [apply authenticate_accept_inv|].
  split; [|apply authenticate_ignores_registry].
  intros p v Htok Hv Hup Hb.
  by rewrite (authenticate_blacklisted cfg env req w p v).
Qed.

(** Alice's access token after she has logged out. *)
Lemma authenticate_accepts_only_unrevoked_witness :
  let wL := after (asyncHandler
                     (logout sample_cfg (sample_env 2000 "x")
                             with_refresh_cookie) w_logged_in) in
  outcome (middleware (authenticate sample_cfg (sample_env 3000 "y")
                                    with_access_cookie) wL)
  = NextError (EApp sessionExpired).
Proof.
  intros wL.
  destruct (authenticate_accepts_only_unrevoked sample_cfg
              (sample_env 3000 "y") with_access_cookie wL) as (_ & H & _).
  specialize (H (mkPayload "u-alice" "alice@example.com" "CUSTOMER" "s1" 1 901)
                (VText "true")).
  feed 4 H. apply H.
Defined.

(** ** [logout] and [refreshToken] *)

Lemma logout_run cfg env req w rt p :
  cookie_refresh req = Some rt ->
  jwt_verify rt (refreshSecret cfg) issuer audience (now env) = JwtOk p ->
  redisUp env = true ->
  asyncHandler (logout cfg env req) w =
  mkReply (Responded (BodyMessage "Logged out successfully"))
          (mkCtx clear_both None [EvAudit "auth.logout" (p_userId p)])
          (mkWorld
             (redis_del (session_key (p_sessionId p))
                (redis_setex (now env) (blacklist_key (p_sessionId p))
                             blacklist_default_ttl (VText "true") (redis w)))
             (db w)).
Proof.
  intros Hc Hv Hup.
  unfold asyncHandler, logout, verifyRefreshToken, blacklistSession, fresh_ctx.
  rewrite Hc, (verify_present _ _ _ _ _ _ Hv). cbn [token_value].
  rewrite Hv. run_m. rewrite Hup. run_m. reflexivity.
Qed.

Lemma refresh_rotates cfg env req w rt p u :
  cookie_refresh req = Some rt ->
  jwt_verify rt (refreshSecret cfg) issuer audience (now env) = JwtOk p ->
  redisUp env = true -> dbUp env = true ->
  value_truthy (redis_get (now env) (redis w) (session_key (p_sessionId p)))
    = true ->
  findUniqueById (p_userId p) (db w) = Some u ->
  u_isActive u = true ->
  asyncHandler (refreshToken cfg env req) w =
  mkReply (Responded (BodyMessage "Token refreshed successfully"))
          (mkCtx [SetCookie "access_token"
                    (generateAccessToken cfg (u_id u) (u_email u) (u_role u)
                                         (uuid env) (now env));
                  SetCookie "refresh_token"
                    (generateRefreshToken cfg (u_id u) (u_email u) (u_role u)
                                          (uuid env) (now env))]
                 None [EvAudit "auth.token_refresh" (u_id u)])
          (mkWorld
             (redis_setex (now env) (session_key (uuid env)) (7 * 24 * 60 * 60)
                (VJson (mkSession (u_id u) (now env) (default "" (req_ip req))
                                  (req_userAgent req)))
                (redis_del (session_key (p_sessionId p)) (redis w)))
             (db w)).
Proof.
  intros Hc Hv Hup Hdb Hs Hu Ha.
  unfold asyncHandler, refreshToken, verifyRefreshToken, fresh_ctx.
  rewrite Hc, (verify_present _ _ _ _ _ _ Hv). cbn [token_value].
  rewrite Hv. run_m. rewrite Hup. run_m. rewrite Hs. run_m.
  rewrite Hdb. run_m. rewrite Hu, Ha. run_m. reflexivity.
Qed.

Lemma refresh_session_gone cfg env req w rt p :
  cookie_refresh req = Some rt ->
  jwt_verify rt (refreshSecret cfg) issuer audience (now env) = JwtOk p ->
  redisUp env = true ->
  redis_get (now env) (redis w) (session_key (p_sessionId p)) = None ->
  asyncHandler (refreshToken cfg env req) w =
  mkReply (NextError (EApp sessionGone)) (mkCtx clear_both None []) w.
Proof.
  intros Hc Hv Hup Hs.
  unfold asyncHandler, refreshToken, verifyRefreshToken, fresh_ctx.
  rewrite Hc, (verify_present _ _ _ _ _ _ Hv). cbn [token_value].
  rewrite Hv. run_m. rewrite Hup. run_m. rewrite Hs. run_m.
  by destruct w.
Qed.

(** C5.  Logout revokes the access token.  Let a logout present a refresh
    token that verifies, so that the token's session is blacklisted.  An
    access token of that session which the server issued before the
    logout, presented on the next request while still unexpired, is
    rejected with [SESSION_EXPIRED] (status 401), the code this source
    gives the revoked-session error, both auth cookies are cleared and no
    identity is attached.  The access-token lifetime is at most the seven
    days a blacklist entry lives (it is fifteen minutes by default). *)
Theorem logout_revokes_access_token
    cfg w envL reqL rt pL envA reqA uid em role t0 :
  cookie_refresh reqL = Some rt ->
  jwt_verify rt (refreshSecret cfg) issuer audience (now envL) = JwtOk pL ->
  redisUp envL = true ->
  t0 <= now envL ->
  accessExpiresIn cfg <= blacklist_default_ttl ->
  presented_token reqA
    = Some (generateAccessToken cfg uid em role (p_sessionId pL) t0) ->
  now envA / 1000 < t0 / 1000 + accessExpiresIn cfg ->
  redisUp envA = true ->
  let wL := after (asyncHandler (logout cfg envL reqL) w) in
  let rp := middleware (authenticate cfg envA reqA) wL in
  redis_get (now envA) (redis wL) (blacklist_key (p_sessionId pL))
    = Some (VText "true")
  ∧ outcome rp = NextError (EApp sessionExpired)
  ∧ cookies (reply_ctx rp) = clear_both
  ∧ user (reply_ctx rp) = None.
Proof.
  intros Hc Hv HupL Ht0 Hexp Htok Hlive HupA. cbv zeta.
  rewrite (logout_run cfg envL reqL w rt pL Hc Hv HupL). cbn [after redis].
  assert (Hbl : redis_get (now envA)
                  (redis_del (session_key (p_sessionId pL))
                     (redis_setex (now envL) (blacklist_key (p_sessionId pL))
                        blacklist_default_ttl (VText "true") (redis w)))
                  (blacklist_key (p_sessionId pL)) = Some (VText "true")).
  { unfold redis_get, redis_del, redis_setex.
    rewrite rlive_delete_ne
      by (intros Heq; symmetry in Heq; by apply blacklist_key_ne_session in Heq).
    rewrite rlive_insert_eq. unfold entry_live. cbn [e_expireAt].
    unfold blacklist_default_ttl in *.
    destruct (Z.ltb_spec (now envA) (now envL + 7 * 24 * 60 * 60 * 1000));
      [done|].
    exfalso.
    pose proof (Z.mul_succ_div_gt (now envA) 1000 ltac:(lia)).
    pose proof (Z.mul_div_le t0 1000 ltac:(lia)).
    lia. }
  split; [exact Hbl|].
  erewrite authenticate_blacklisted; [done | by rewrite Htok | | done | ].
  - rewrite Htok. cbn [token_value]. by apply verify_generated_access.
  - exact Hbl.
Qed.

(** Logout of Alice's first session, then a request with its access
    token. *)
Lemma logout_revokes_access_token_witness :
  let envL := sample_env 2000 "x" in
  let envA := sample_env 3000 "y" in
  let wL := after (asyncHandler (logout sample_cfg envL with_refresh_cookie)
                                w_logged_in) in
  let rp := middleware (authenticate sample_cfg envA with_access_cookie) wL in
  outcome rp = NextError (EApp sessionExpired)
  ∧ cookies (reply_ctx rp) = clear_both.
Proof.
  intros envL envA wL rp.
  pose proof (logout_revokes_access_token sample_cfg w_logged_in envL
                with_refresh_cookie rt1 payload1 envA with_access_cookie
                "u-alice" "alice@example.com" "CUSTOMER" 1000) as H.
  feed 8 H. destruct H as (_ & H2 & H3 & _).
  split; [exact H2 | exact H3].
Defined.

(** C1, as stated, fails: rotation does not blacklist the old session.
    Alice logs in (session [s1]) and refreshes one second later (new
    session [s2]); the refresh succeeds, [session:s1] is gone, and the
    Revocation Ledger holds no entry for [s1]. *)
Lemma rotation_blacklist_counterexample :
  let rp1 := asyncHandler
               (login sample_bcrypt sample_cfg (sample_env 1000 "s1")
                      (sample_login "10.0.0.1" "correct horse"))
               sample_world in
  let rt1 := generateRefreshToken sample_cfg "u-alice" "alice@example.com"
                                  "CUSTOMER" "s1" 1000 in
  let rp2 := asyncHandler
               (refreshToken sample_cfg (sample_env 2000 "s2")
                  (mkRequest None (Some rt1) None "" "" false
                             (Some "10.0.0.1") "agent"))
               (after rp1) in
  redis_get 2000 (redis (after rp1)) (blacklist_key "s1") = None
  ∧ value_truthy (redis_get 2000 (redis (after rp1)) (session_key "s1")) = true
  ∧ outcome rp2 = Responded (BodyMessage "Token refreshed successfully")
  ∧ redis (after rp2) !! session_key "s1" = None
  ∧ redis (after rp2) !! blacklist_key "s1" = None.
Proof. vm_compute. repeat split. Qed.

(** C1, amended.  Let a refresh token verify and name a session that the
    Session Registry holds, for an account that exists and is active, and
    let the generated session id differ from the old one.  One call of
    [refreshToken] answers with exactly one new access and refresh token,
    both bound to the generated id, deletes the old session's registry
    entry and records the new session for seven days, in that one request;
    the Revocation Ledger is left as it was (the old id is not
    blacklisted).  A second call with the original token, still unexpired,
    fails with [SESSION_EXPIRED] (status 401), clears both cookies and
    changes neither store, so no further session is created. *)
Theorem refresh_rotation_single_use cfg w env1 env2 req rt p u :
  cookie_refresh req = Some rt ->
  jwt_verify rt (refreshSecret cfg) issuer audience (now env1) = JwtOk p ->
  jwt_verify rt (refreshSecret cfg) issuer audience (now env2) = JwtOk p ->
  value_truthy (redis_get (now env1) (redis w) (session_key (p_sessionId p)))
    = true ->
  findUniqueById (p_userId p) (db w) = Some u ->
  u_isActive u = true ->
  redisUp env1 = true -> dbUp env1 = true -> redisUp env2 = true ->
  uuid env1 ≠ p_sessionId p ->
  let rp1 := asyncHandler (refreshToken cfg env1 req) w in
  let rp2 := asyncHandler (refreshToken cfg env2 req) (after rp1) in
  outcome rp1 = Responded (BodyMessage "Token refreshed successfully")
  ∧ cookies (reply_ctx rp1) =
      [SetCookie "access_token"
         (generateAccessToken cfg (u_id u) (u_email u) (u_role u)
                              (uuid env1) (now env1));
       SetCookie "refresh_token"
         (generateRefreshToken cfg (u_id u) (u_email u) (u_role u)
                               (uuid env1) (now env1))]
  ∧ redis (after rp1) !! session_key (p_sessionId p) = None
  ∧ redis (after rp1) !! session_key (uuid env1) =
      Some (mkEntry (VJson (mkSession (u_id u) (now env1)
                                      (default "" (req_ip req))
                                      (req_userAgent req)))
                    (Some (now env1 + 7 * 24 * 60 * 60 * 1000)))
  ∧ (forall sid, redis (after rp1) !! blacklist_key sid
                 = redis w !! blacklist_key sid)
  ∧ db (after rp1) = db w
  ∧ outcome rp2 = NextError (EApp sessionGone)
  ∧ cookies (reply_ctx rp2) = clear_both
  ∧ after rp2 = after rp1.
Proof.
  intros Hc Hv1 Hv2 Hs Hu Ha Hup1 Hdb1 Hup2 Hfresh. cbv zeta.
  rewrite (refresh_rotates cfg env1 req w rt p u) by done.
  cbn [outcome reply_ctx cookies after redis db].
  assert (Hne : session_key (uuid env1) ≠ session_key (p_sessionId p))
    by (by intros ?%session_key_inj).
  assert (Hgone :
    redis_setex (now env1) (session_key (uuid env1)) (7 * 24 * 60 * 60)
      (VJson (mkSession (u_id u) (now env1) (default "" (req_ip req))
                        (req_userAgent req)))
      (redis_del (session_key (p_sessionId p)) (redis w))
    !! session_key (p_sessionId p) = None).
  { unfold redis_setex, redis_del.
    by rewrite lookup_insert_ne, lookup_delete_eq. }
  rewrite (refresh_session_gone cfg env2 req _ rt p) by
    (try done; cbn [redis]; unfold redis_get, rlive; by rewrite Hgone).
  repeat split; try done.
  - unfold redis_setex. by rewrite lookup_insert_eq.
  - intros sid. unfold redis_setex, redis_del.
    rewrite lookup_insert_ne, lookup_delete_ne; [done| |];
      intros Heq; symmetry in Heq; by apply blacklist_key_ne_session in Heq.
Qed.

(** Alice's first refresh token, used twice. *)
Lemma refresh_rotation_single_use_witness :
  let env1 := sample_env 2000 "s2" in
  let env2 := sample_env 3000 "s3" in
  let rp1 := asyncHandler (refreshToken sample_cfg env1 with_refresh_cookie)
                          w_logged_in in
  let rp2 := asyncHandler (refreshToken sample_cfg env2 with_refresh_cookie)
                          (after rp1) in
  outcome rp1 = Responded (BodyMessage "Token refreshed successfully")
  ∧ redis (after rp1) !! session_key "s1" = None
  ∧ outcome rp2 = NextError (EApp sessionGone)
  ∧ after rp2 = after rp1.
Proof.
  intros env1 env2 rp1 rp2.
  pose proof (refresh_rotation_single_use sample_cfg w_logged_in env1 env2
                with_refresh_cookie rt1 payload1 (set_lastLogin 1000 alice))
    as H.
  feed 10 H. destruct H as (H1 & _ & H3 & _ & _ & _ & H7 & _ & H9).
  repeat split; assumption.
Defined.

(** ** Concurrent logins *)

(** The two steps of one request, run back to back, are [login]. *)
Lemma thread_steps_are_login bc cfg env req w :
  let '(th1, w1) := thread_step bc cfg (Arrived env req) w in
  let '(th2, w2) := thread_step bc cfg th1 w1 in
  let rp := asyncHandler (login bc cfg env req) w in
  w2 = after rp
  ∧ th2 = Finished (match outcome rp with
                    | Responded b => inr b
                    | NextError e => inl e
                    | NextOk => inl (EStore "unreachable")
                    end) (reply_ctx rp).
Proof.
  unfold thread_step, asyncHandler, login, login_read, bind.
  destruct (login_gate env req _) as [[e|[]] s1]; [done|].
  destruct (login_lookup env req s1) as [[e|found] s2]; [done|].
  destruct s2 as [w2 c2]. cbn [world ctx].
  by destruct (login_check bc cfg env req found _) as [[e|b] s3].
Qed.

(** C9, evaluated.  Six simultaneous wrong-password requests against
    Alice's fresh account (the maximum is five).  When all six have read
    the account row before the first of them writes it, every request is
    answered [INVALID_CREDENTIALS], each writes "counter = 1, no lockout",
    the counter ends at one and the account is never locked: five updates
    are lost and the lock transition happens zero times.  Run one after
    another, the same six requests lock the account exactly once. *)
Theorem concurrent_lockout_lost_update :
  let '(ths, ws) := run_schedule sample_bcrypt sample_cfg reads_then_writes
                                 six_arrivals sample_world in
  let '(ths', ws') := run_schedule sample_bcrypt sample_cfg one_after_another
                                   six_arrivals sample_world in
  forallb (failed_with genericError) ths = true
  ∧ (u_failedLoginAttempts <$>
       (last ws ≫= fun w => findUniqueByEmail "alice@example.com" (db w)))
    = Some 1
  ∧ (u_lockedUntil <$>
       (last ws ≫= fun w => findUniqueByEmail "alice@example.com" (db w)))
    = Some None
  ∧ lock_transitions "alice@example.com" ws = 0%nat
  ∧ (u_failedLoginAttempts <$>
       (last ws' ≫= fun w => findUniqueByEmail "alice@example.com" (db w)))
    = Some 5
  ∧ lock_transitions "alice@example.com" ws' = 1%nat.
Proof. vm_compute. repeat split. Qed.

(** What every interleaving keeps: a counter never exceeds the number of
    requests that have finished, since every write stores a value read
    earlier, plus one. *)

Lemma below_mono B B' u : B <= B' -> below B u -> below B' u.
Proof. unfold below. lia. Qed.

Lemma holds_below_mono B B' th : B <= B' -> holds_below B th -> holds_below B' th.
Proof.
  intros HB. destruct th as [| ? ? [u|] ?|]; cbn; try done.
  by apply below_mono.
Qed.

Lemma finished_count_insert (ths : list Thread) (i : nat) th th' :
  ths !! i = Some th ->
  (finished_count (<[i := th']> ths) + finished th
   = finished_count ths + finished th')%nat.
Proof.
  revert i.
  induction ths as [|x ths IH]; intros [|i]; try done.
  - intros [= ->]. cbn. lia.
  - intros Hi. specialize (IH i Hi).
    change (<[S i := th']> (x :: ths)) with (x :: <[i := th']> ths).
    cbn [finished_count]. lia.
Qed.

Lemma finished_count_le (ths : list Thread) :
  (finished_count ths <= length ths)%nat.
Proof.
  induction ths as [|x ths IH]; cbn; [done|].
  destruct x; cbn; lia.
Qed.

Lemma login_check_below bc cfg env req found s res s' B :
  login_check bc cfg env req found s = (res, s') ->
  0 <= B ->
  Forall (below B) (db (world s)) ->
  (forall u, found = Some u -> below B u) ->
  Forall (below (B + 1)) (db (world s')).
Proof.
  intros Hrun HB Hd Hfound.
  assert (Hd1 : Forall (below (B + 1)) (db (world s))).
  { eapply Forall_impl; [exact Hd|]. intros u. apply below_mono. lia. }
  unfold login_check in Hrun. revert Hrun. run_m.
  repeat (case_match; run_m); intros; simplify_eq; cbn [world db]; try done;
    pose proof (Hfound _ eq_refl) as Hu; unfold below in Hu;
    repeat (apply update_rows_Forall;
            [|intros x Hx; unfold below in *; cbn; first [lia | done]]);
    done.
Qed.

Lemma login_read_db env req w res s :
  login_read env req (mkSt w fresh_ctx) = (res, s) ->
  db (world s) = db w
  ∧ (forall u, res = inr (Some u) -> In u (db w)).
Proof.
  unfold login_read, bind. destruct (redisUp env) eqn:Hup.
  - rewrite login_gate_run by done. cbn [world].
    destruct (passes_rate_limit env req w).
    + unfold login_lookup, prisma_call.
      destruct (dbUp env); run_m; intros; simplify_eq; cbn; split; try done.
      intros u [= Hu]. apply find_some in Hu as [Hin _]. exact Hin.
    + intros; simplify_eq. cbn. split; done.
  - unfold login_gate, checkRateLimit, redis_call. rewrite Hup. run_m.
    intros; simplify_eq. cbn. split; done.
Qed.

Lemma thread_step_below bc cfg th w th' w' B :
  thread_step bc cfg th w = (th', w') ->
  0 <= B ->
  Forall (below B) (db w) ->
  holds_below B th ->
  Forall (below (B + Z.of_nat (finished th') - Z.of_nat (finished th))) (db w')
  ∧ holds_below (B + Z.of_nat (finished th') - Z.of_nat (finished th)) th'.
Proof.
  intros Hstep HB Hd Hth. destruct th as [env req|env req found c|res c];
    cbn [thread_step] in Hstep.
  - destruct (login_read env req _) as [[e|found] s] eqn:Hread;
      apply login_read_db in Hread as [Hdb Hin]; simplify_eq; cbn [finished].
    + rewrite Hdb. split; [|done].
      eapply Forall_impl; [exact Hd|]. intros u. apply below_mono. lia.
    + rewrite Hdb. replace (B + Z.of_nat 0 - Z.of_nat 0) with B by lia.
      split; [done|]. destruct found as [u|]; cbn; [|done].
      rewrite List.Forall_forall in Hd. auto.
  - destruct (login_check bc cfg env req found _) as [res s] eqn:Hchk.
    simplify_eq. cbn [finished].
    replace (B + Z.of_nat 1 - Z.of_nat 0) with (B + 1) by lia. split; [|done].
    eapply login_check_below; [exact Hchk | done | done |].
    intros u ->. exact Hth.
  - simplify_eq. cbn [finished]. replace (B + Z.of_nat 1 - Z.of_nat 1) with B by lia.
    done.
Qed.

Lemma run_schedule_below bc cfg schedule :
  forall ths w B0,
    0 <= B0 ->
    Forall (below (B0 + Z.of_nat (finished_count ths))) (db w) ->
    Forall (holds_below (B0 + Z.of_nat (finished_count ths))) ths ->
    Forall (fun w' => Forall (below (B0 + Z.of_nat (length ths))) (db w'))
           (snd (run_schedule bc cfg schedule ths w)).
Proof.
  induction schedule as [|i rest IH]; intros ths w B0 HB Hd Hths.
  - cbn. constructor; [|constructor].
    eapply Forall_impl; [exact Hd|]. intros u. apply below_mono.
    pose proof (finished_count_le ths). lia.
  - assert (Hw : Forall (below (B0 + Z.of_nat (length ths))) (db w)).
    { eapply Forall_impl; [exact Hd|]. intros u. apply below_mono.
      pose proof (finished_count_le ths). lia. }
    cbn [run_schedule]. destruct (ths !! i) as [th|] eqn:Hi.
    + destruct (thread_step bc cfg th w) as [th' w'] eqn:Hstep.
      pose proof (finished_count_insert ths i th th' Hi) as Hcount.
      assert (Hth : holds_below (B0 + Z.of_nat (finished_count ths)) th).
      { rewrite List.Forall_forall in Hths. apply Hths.
        apply list_elem_of_In. by eapply list_elem_of_lookup_2. }
      destruct (thread_step_below bc cfg th w th' w'
                  (B0 + Z.of_nat (finished_count ths)) Hstep ltac:(lia) Hd Hth)
        as [Hd' Hth'].
      assert (Hle : (finished th <= finished th')%nat).
      { destruct th; cbn in Hstep; repeat case_match; simplify_eq; cbn; lia. }
      replace (B0 + Z.of_nat (finished_count ths) + Z.of_nat (finished th')
               - Z.of_nat (finished th))
        with (B0 + Z.of_nat (finished_count (<[i := th']> ths))) in Hd', Hth'
        by lia.
      specialize (IH (<[i := th']> ths) w' B0 HB Hd').
      destruct (run_schedule bc cfg rest (<[i := th']> ths) w') as [ths' ws].
      cbn [snd] in *. constructor; [exact Hw|].
      rewrite length_insert in IH. apply IH.
      apply Forall_insert; [|exact Hth'].
      eapply Forall_impl; [exact Hths|]. intros x. apply holds_below_mono. lia.
    + specialize (IH ths w B0 HB Hd Hths).
      destruct (run_schedule bc cfg rest ths w) as [ths' ws].
      cbn [snd] in *. by constructor.
Qed.

(** The part of C9 that every interleaving satisfies: when [K] requests
    arrive, in whatever order their steps run, no failed-attempt counter
    ever exceeds its bound at arrival plus [K]. *)
Lemma concurrent_counter_bounded bc cfg schedule ths w B0 :
  0 <= B0 ->
  Forall (fun th => exists env req, th = Arrived env req) ths ->
  Forall (below B0) (db w) ->
  Forall (fun w' => Forall (below (B0 + Z.of_nat (length ths))) (db w'))
         (snd (run_schedule bc cfg schedule ths w)).
Proof.
  intros HB Harr Hd.
  assert (Hzero : finished_count ths = 0%nat).
  { induction Harr as [|th ths (env & req & ->) _ IH]; cbn; [done|].
    by rewrite IH. }
  apply run_schedule_below; rewrite ?Hzero, ?Z.add_0_r; try done.
  eapply Forall_impl; [exact Harr|]. by intros th (env & req & ->).
Qed.

(** ** More on [login] *)

Lemma blacklist_key_ne_rate sid x : blacklist_key sid ≠ "ratelimit:" +:+ x.
Proof. unfold blacklist_key. simpl. discriminate. Qed.

(** [login] leaves every Redis key alone except its rate-limit counter
    and the key of the session it creates. *)
Lemma login_redis_frame bc cfg env req w k :
  k ≠ login_rate_key req ->
  k ≠ session_key (uuid env) ->
  redis (after (asyncHandler (login bc cfg env req) w)) !! k = redis w !! k.
Proof.
  intros Hk1 Hk2. destruct (redisUp env) eqn:Hup.
  2:{ by rewrite login_store_down. }
  unfold asyncHandler, login, bind. rewrite login_gate_run by done.
  cbn [world].
  assert (Hgate : redis (gate_world env req w) !! k = redis w !! k).
  { cbn [gate_world redis]. by apply bump_frame. }
  destruct (passes_rate_limit env req w) eqn:Hp; [|done].
  unfold login_lookup, prisma_call.
  destruct (dbUp env); run_m; [|done].
  destruct (login_check bc cfg env req _ _) as [res s'] eqn:Hchk.
  eapply login_check_frame in Hchk as [Hfr _]; [|exact Hk2].
  cbn [world] in Hfr. destruct res; cbn [after]; by rewrite Hfr.
Qed.

Lemma update_rows_touched id f (d : list User) :
  (forall u, fixed_columns (f u) = fixed_columns u) ->
  Forall2 (same_or_touched id) d (update_rows id f d).
Proof.
  intros Hf. unfold update_rows. induction d as [|x d IH]; cbn; constructor;
    [|exact IH].
  destruct (String.eqb_spec (u_id x) id); [right | left]; auto.
Qed.

Lemma same_or_touched_refl id (d : list User) :
  Forall2 (same_or_touched id) d d.
Proof. induction d; constructor; [by left | done]. Qed.

Lemma same_or_touched_trans id (d1 d2 d3 : list User) :
  Forall2 (same_or_touched id) d1 d2 ->
  Forall2 (same_or_touched id) d2 d3 ->
  Forall2 (same_or_touched id) d1 d3.
Proof.
  intros H12. revert d3. induction H12 as [|x y d1 d2 Hxy _ IH]; intros d3 H23.
  - inversion H23. constructor.
  - inversion H23 as [|y' z d2' d3' Hyz Hrest]; subst. constructor; [|auto].
    destruct Hxy as [->|[Hid Hc]]; [done|].
    destruct Hyz as [->|[Hid' Hc']]; [by right|].
    right. split; [done | congruence].
Qed.

Lemma login_check_touched bc cfg env req found s res s' :
  login_check bc cfg env req found s = (res, s') ->
  Forall2 (same_or_touched (default "" (u_id <$> found)))
          (db (world s)) (db (world s')).
Proof.
  intros Hrun. unfold login_check in Hrun. revert Hrun. run_m.
  destruct found as [u|]; run_m; cbn [default fmap option_fmap option_map].
  2:{ intros; simplify_eq. apply same_or_touched_refl. }
  repeat (case_match; run_m); intros; simplify_eq; cbn [world db];
    unfold id; try apply same_or_touched_refl;
    try (by apply update_rows_touched);
    match goal with
    | |- Forall2 _ ?d (update_rows _ _ (update_rows ?i ?f ?d)) =>
        apply (same_or_touched_trans _ _ (update_rows i f d));
        by apply update_rows_touched
    end.
Qed.

(** X1.  What [login] leaves alone.  Whatever the request and whether or
    not it succeeds, [login] changes no Redis key other than the rate-limit
    counter of its own (IP, e-mail) pair and the key of the session it
    creates: no other session, no other client's counter and no blacklist
    entry.  In the user table it adds and removes no row; rows of other
    accounts stay as they are, and of the addressed account only the
    failure counter, the lockout instant and the last-login instant can
    change. *)
Theorem login_leaves_the_rest_alone bc cfg env req w :
  let rp := asyncHandler (login bc cfg env req) w in
  let id := default "" (u_id <$> findUniqueByEmail (body_email req) (db w)) in
  (forall k, k ≠ login_rate_key req -> k ≠ session_key (uuid env) ->
             redis (after rp) !! k = redis w !! k)
  /\ (forall sid, redis (after rp) !! blacklist_key sid
                  = redis w !! blacklist_key sid)
  /\ Forall2 (same_or_touched id) (db w) (db (after rp)).
Proof.
  cbv zeta. split; [|split].
  - intros k. apply login_redis_frame.
  - intros sid. apply login_redis_frame.
    + apply blacklist_key_ne_rate.
    + apply blacklist_key_ne_session.
  - destruct (redisUp env) eqn:Hup.
    2:{ rewrite login_store_down by done. apply same_or_touched_refl. }
    unfold asyncHandler, login, bind. rewrite login_gate_run by done.
    cbn [world].
    destruct (passes_rate_limit env req w); [|apply same_or_touched_refl].
    unfold login_lookup, prisma_call.
    destruct (dbUp env); run_m; [|apply same_or_touched_refl].
    destruct (login_check bc cfg env req _ _) as [res s'] eqn:Hchk.
    apply login_check_touched in Hchk. cbn [world gate_world db] in Hchk.
    by destruct res.
Qed.

(** Alice's login leaves the blacklist alone. *)
Lemma login_leaves_the_rest_alone_witness :
  redis (after (asyncHandler
                  (login sample_bcrypt sample_cfg (sample_env 1000 "s1")
                         (sample_login "10.0.0.1" "correct horse"))
                  sample_world)) !! blacklist_key "s0"
  = redis sample_world !! blacklist_key "s0".
Proof.
  pose proof (login_leaves_the_rest_alone sample_bcrypt sample_cfg
                (sample_env 1000 "s1")
                (sample_login "10.0.0.1" "correct horse") sample_world) as H.
  cbv zeta in H. destruct H as (_ & H & _). apply H.
Defined.

(** ** From [login] to the guarded routes *)

Lemma authenticate_accepts cfg env req w p u :
  token_present (presented_token req) = true ->
  jwt_verify (token_value (presented_token req)) (accessSecret cfg)
             issuer audience (now env) = JwtOk p ->
  redisUp env = true -> dbUp env = true ->
  redis_get (now env) (redis w) (blacklist_key (p_sessionId p)) = None ->
  findUniqueById (p_userId p) (db w) = Some u ->
  u_isActive u = true ->
  is_locked (now env) u = false ->
  middleware (authenticate cfg env req) w =
  mkReply NextOk
          (mkCtx [] (Some (mkIdentity (u_id u) (u_email u) (u_role u)))
                 [EvSecurityLog "debug" "Authentication successful"])
          w.
Proof.
  intros Htok Hv Hr Hd Hb Hu Ha Hl.
  unfold middleware, authenticate, verifyAccessToken, isSessionBlacklisted,
    fresh_ctx.
  destruct w as [r d]. cbn [redis db] in *.
  rewrite Htok, Hv. run_m. rewrite Hr. run_m. rewrite Hb. run_m.
  rewrite Hd. run_m. rewrite Hu. run_m. rewrite Ha, Hl. reflexivity.
Qed.

Lemma authenticate_locked cfg env req w p u :
  token_present (presented_token req) = true ->
  jwt_verify (token_value (presented_token req)) (accessSecret cfg)
             issuer audience (now env) = JwtOk p ->
  redisUp env = true -> dbUp env = true ->
  redis_get (now env) (redis w) (blacklist_key (p_sessionId p)) = None ->
  findUniqueById (p_userId p) (db w) = Some u ->
  u_isActive u = true ->
  is_locked (now env) u = true ->
  middleware (authenticate cfg env req) w =
  mkReply (NextError (EApp accountLockedNow)) (mkCtx [] None []) w.
Proof.
  intros Htok Hv Hr Hd Hb Hu Ha Hl.
  unfold middleware, authenticate, verifyAccessToken, isSessionBlacklisted,
    fresh_ctx.
  destruct w as [r d]. cbn [redis db] in *.
  rewrite Htok, Hv. run_m. rewrite Hr. run_m. rewrite Hb. run_m.
  rewrite Hd. run_m. rewrite Hu. run_m. rewrite Ha, Hl. reflexivity.
Qed.

Lemma login_success_row_by_id bc cfg env req w u :
  passes_rate_limit env req w = true -> dbUp env = true ->
  findUniqueByEmail (body_email req) (db w) = Some u ->
  findUniqueById (u_id u) (db w) = Some u ->
  is_locked (now env) u = false ->
  u_isActive u = true ->
  bc (body_password req) (u_passwordHash u) = true ->
  findUniqueById (u_id u) (db (after (asyncHandler (login bc cfg env req) w)))
  = Some (after_login_row (now env) u).
Proof.
  intros Hp Hd Hf Hid Hl Ha Hbc.
  rewrite (login_success bc cfg env req w Hp Hd u Hf Hl Ha Hbc).
  cbn [after db]. unfold after_login_row.
  destruct (0 <? u_failedLoginAttempts u).
  - rewrite !find_id_update by done. rewrite Hid. cbn.
    by rewrite !String.eqb_refl.
  - rewrite find_id_update by done. rewrite Hid. cbn.
    by rewrite String.eqb_refl.
Qed.

(** X2.  The access token of a successful login opens the guarded routes.
    Let [login] succeed for account [u] (right password, active, not
    locked, admitted by the rate limiter), and let the id of the new
    session not be on the blacklist.  Then [authenticate], given the
    access token that [login] put into the cookie, lets the request
    through at every later instant before the token's expiry and attaches
    the identity of [u]: its id, e-mail and role. *)
Theorem login_token_opens_guarded_routes bc cfg envL reqL w u envA reqA :
  passes_rate_limit envL reqL w = true -> dbUp envL = true ->
  findUniqueByEmail (body_email reqL) (db w) = Some u ->
  findUniqueById (u_id u) (db w) = Some u ->
  is_locked (now envL) u = false ->
  u_isActive u = true ->
  bc (body_password reqL) (u_passwordHash u) = true ->
  redis_get (now envA) (redis w) (blacklist_key (uuid envL)) = None ->
  presented_token reqA
    = Some (generateAccessToken cfg (u_id u) (u_email u) (u_role u)
                                (uuid envL) (now envL)) ->
  now envL <= now envA ->
  now envA / 1000 < now envL / 1000 + accessExpiresIn cfg ->
  redisUp envA = true -> dbUp envA = true ->
  let rpL := asyncHandler (login bc cfg envL reqL) w in
  let rpA := middleware (authenticate cfg envA reqA) (after rpL) in
  In (SetCookie "access_token"
        (generateAccessToken cfg (u_id u) (u_email u) (u_role u)
                             (uuid envL) (now envL)))
     (cookies (reply_ctx rpL))
  /\ outcome rpA = NextOk
  /\ user (reply_ctx rpA) = Some (mkIdentity (u_id u) (u_email u) (u_role u)).
Proof.
  intros Hp Hd Hf Hid Hl Ha Hbc Hbl Htok Hmono Hexp HrA HdA. cbv zeta.
  pose proof (login_success_row_by_id bc cfg envL reqL w u Hp Hd Hf Hid Hl Ha Hbc)
    as Hrow.
  pose proof (login_redis_frame bc cfg envL reqL w (blacklist_key (uuid envL))
                (blacklist_key_ne_rate _ _) (blacklist_key_ne_session _ _))
    as Hfr.
  split.
  { rewrite (login_success bc cfg envL reqL w Hp Hd u Hf Hl Ha Hbc).
    cbn. by left. }
  set (p := mkPayload (u_id u) (u_email u) (u_role u) (uuid envL)
                      (now envL / 1000)
                      (now envL / 1000 + accessExpiresIn cfg)).
  assert (Hv : jwt_verify (token_value (presented_token reqA))
                 (accessSecret cfg) issuer audience (now envA) = JwtOk p).
  { rewrite Htok. cbn [token_value]. by apply verify_generated_access. }
  assert (Hbl' : redis_get (now envA)
                   (redis (after (asyncHandler (login bc cfg envL reqL) w)))
                   (blacklist_key (p_sessionId p)) = None).
  { cbn [p_sessionId p]. unfold redis_get, rlive in *. by rewrite Hfr. }
  assert (Hact : u_isActive (after_login_row (now envL) u) = true).
  { unfold after_login_row. by destruct (0 <? _). }
  assert (Hunl : is_locked (now envA) (after_login_row (now envL) u) = false).
  { unfold after_login_row, is_locked in *.
    destruct (0 <? u_failedLoginAttempts u); cbn; [done|].
    destruct (u_lockedUntil u) as [t|]; [|done].
    apply Z.ltb_ge. apply Z.ltb_ge in Hl. lia. }
  assert (Hpres : token_present (presented_token reqA) = true)
    by (by rewrite Htok).
  rewrite (authenticate_accepts cfg envA reqA _ p
             (after_login_row (now envL) u) Hpres Hv HrA HdA Hbl' Hrow Hact Hunl).
  cbn. split; [done|]. unfold after_login_row. by destruct (0 <? _).
Qed.

(** The access token of Alice's login, presented a second later. *)
Lemma login_token_opens_guarded_routes_witness :
  outcome (middleware
             (authenticate sample_cfg (sample_env 2000 "x") with_access_cookie)
             w_logged_in) = NextOk.
Proof.
  pose proof (login_token_opens_guarded_routes sample_bcrypt sample_cfg
                (sample_env 1000 "s1")
                (sample_login "10.0.0.1" "correct horse") sample_world alice
                (sample_env 2000 "x") with_access_cookie) as H.
  feed 13 H. cbv zeta in H. destruct H as (_ & H & _). exact H.
Defined.

(** A refresh token the server issued verifies until its expiry. *)
Lemma verify_generated_refresh cfg uid em role sid t0 now :
  now / 1000 < t0 / 1000 + refreshExpiresIn cfg ->
  jwt_verify (generateRefreshToken cfg uid em role sid t0) (refreshSecret cfg)
             issuer audience now
  = JwtOk (mkPayload uid em role sid (t0 / 1000)
                     (t0 / 1000 + refreshExpiresIn cfg)).
Proof.
  intros Hlt. unfold generateRefreshToken, jwt_sign, jwt_verify.
  rewrite !String.eqb_refl. cbn [negb p_exp].
  destruct (Z.leb_spec (t0 / 1000 + refreshExpiresIn cfg) (now / 1000));
    [lia | done].
Qed.

Lemma find_id_Some_id id (d : list User) u :
  findUniqueById id d = Some u -> u_id u = id.
Proof.
  unfold findUniqueById. intros H. apply find_some in H as [_ H].
  by apply String.eqb_eq.
Qed.

(** A session entry as [redis.get] sees it at [t]. *)
Lemma redis_get_setex now k secs v (r : gmap string rentry) t :
  redis_get t (redis_setex now k secs v r) k
  = if t <? now + secs * 1000 then Some v else None.
Proof.
  unfold redis_get, redis_setex. rewrite rlive_insert_eq.
  unfold entry_live. cbn. by destruct (t <? now + secs * 1000).
Qed.

(** X3.  How long a login can be refreshed.  After a successful login at
    [t0], a refresh that presents the login's refresh token while that
    token is unexpired succeeds exactly when it arrives before
    [t0 + 24 h], or before [t0 + 30 d] if the login asked for rememberMe;
    from that instant on it fails with [SESSION_EXPIRED], although the
    token still verifies. *)
Theorem login_session_lifetime bc cfg envL reqL w u envR reqR :
  passes_rate_limit envL reqL w = true -> dbUp envL = true ->
  findUniqueByEmail (body_email reqL) (db w) = Some u ->
  findUniqueById (u_id u) (db w) = Some u ->
  is_locked (now envL) u = false ->
  u_isActive u = true ->
  bc (body_password reqL) (u_passwordHash u) = true ->
  cookie_refresh reqR
    = Some (generateRefreshToken cfg (u_id u) (u_email u) (u_role u)
                                 (uuid envL) (now envL)) ->
  now envR / 1000 < now envL / 1000 + refreshExpiresIn cfg ->
  redisUp envR = true -> dbUp envR = true ->
  let rpL := asyncHandler (login bc cfg envL reqL) w in
  let rpR := asyncHandler (refreshToken cfg envR reqR) (after rpL) in
  let deadline := now envL + session_ttl (body_rememberMe reqL) * 1000 in
  (now envR < deadline ->
   outcome rpR = Responded (BodyMessage "Token refreshed successfully"))
  /\ (deadline <= now envR ->
      outcome rpR = NextError (EApp sessionGone)
      /\ after rpR = after rpL).
Proof.
  intros Hp Hd Hf Hid Hl Ha Hbc Hc Hexp HrR HdR. cbv zeta.
  pose proof (login_success_row_by_id bc cfg envL reqL w u Hp Hd Hf Hid Hl Ha Hbc)
    as Hrow.
  set (p := mkPayload (u_id u) (u_email u) (u_role u) (uuid envL)
                      (now envL / 1000)
                      (now envL / 1000 + refreshExpiresIn cfg)).
  assert (Hv : jwt_verify
                 (generateRefreshToken cfg (u_id u) (u_email u) (u_role u)
                                       (uuid envL) (now envL))
                 (refreshSecret cfg) issuer audience (now envR) = JwtOk p)
    by (by apply verify_generated_refresh).
  assert (Hget : redis_get (now envR)
                   (redis (after (asyncHandler (login bc cfg envL reqL) w)))
                   (session_key (p_sessionId p))
                 = if now envR <? now envL
                                  + session_ttl (body_rememberMe reqL) * 1000
                   then Some (VJson (mkSession (u_id u) (now envL)
                                               (clientIp reqL)
                                               (req_userAgent reqL)))
                   else None).
  { rewrite (login_success bc cfg envL reqL w Hp Hd u Hf Hl Ha Hbc).
    cbn [after redis p_sessionId p]. unfold session_ttl.
    apply redis_get_setex. }
  split.
  - intros Hlt. destruct (Z.ltb_spec (now envR) (now envL
                 + session_ttl (body_rememberMe reqL) * 1000)); [|lia].
    rewrite (refresh_rotates cfg envR reqR _ _ p
               (after_login_row (now envL) u) Hc Hv HrR HdR); try done.
    + by rewrite Hget.
    + unfold after_login_row. by destruct (0 <? _).
  - intros Hge. destruct (Z.ltb_spec (now envR) (now envL
                 + session_ttl (body_rememberMe reqL) * 1000)); [lia|].
    by rewrite (refresh_session_gone cfg envR reqR _ _ p Hc Hv HrR Hget).
Qed.

(** The refresh token of Alice's login, presented a second later. *)
Lemma login_session_lifetime_witness :
  outcome (asyncHandler
             (refreshToken sample_cfg (sample_env 2000 "s2")
                           with_refresh_cookie)
             w_logged_in)
  = Responded (BodyMessage "Token refreshed successfully").
Proof.
  pose proof (login_session_lifetime sample_bcrypt sample_cfg
                (sample_env 1000 "s1")
                (sample_login "10.0.0.1" "correct horse") sample_world alice
                (sample_env 2000 "s2") with_refresh_cookie) as H.
  feed 11 H. cbv zeta in H. destruct H as (H & _). apply H. crunch.
Defined.

(** X4.  Rotation chains.  After a successful rotation the refresh token
    it issued can itself be rotated: presented before it expires and
    within seven days of the first rotation, whatever lifetime the
    original login had chosen, it is exchanged for a third pair of
    tokens, the second session is deleted and the third recorded. *)
Theorem rotated_token_rotates_again cfg w env1 env2 req1 req2 rt p u :
  cookie_refresh req1 = Some rt ->
  jwt_verify rt (refreshSecret cfg) issuer audience (now env1) = JwtOk p ->
  value_truthy (redis_get (now env1) (redis w) (session_key (p_sessionId p)))
    = true ->
  findUniqueById (p_userId p) (db w) = Some u ->
  u_isActive u = true ->
  redisUp env1 = true -> dbUp env1 = true ->
  cookie_refresh req2
    = Some (generateRefreshToken cfg (u_id u) (u_email u) (u_role u)
                                 (uuid env1) (now env1)) ->
  now env2 / 1000 < now env1 / 1000 + refreshExpiresIn cfg ->
  now env2 < now env1 + 7 * 24 * 60 * 60 * 1000 ->
  redisUp env2 = true -> dbUp env2 = true ->
  uuid env2 ≠ uuid env1 ->
  let rp1 := asyncHandler (refreshToken cfg env1 req1) w in
  let rp2 := asyncHandler (refreshToken cfg env2 req2) (after rp1) in
  In (SetCookie "refresh_token"
        (generateRefreshToken cfg (u_id u) (u_email u) (u_role u)
                              (uuid env1) (now env1)))
     (cookies (reply_ctx rp1))
  /\ outcome rp2 = Responded (BodyMessage "Token refreshed successfully")
  /\ redis_get (now env2) (redis (after rp2)) (session_key (uuid env1)) = None
  /\ value_truthy
       (redis_get (now env2) (redis (after rp2)) (session_key (uuid env2)))
     = true.
Proof.
  intros Hc1 Hv1 Hs Hu Ha Hr1 Hd1 Hc2 Hexp Hwin Hr2 Hd2 Hne. cbv zeta.
  assert (Hid : findUniqueById (u_id u) (db w) = Some u)
    by (by rewrite (find_id_Some_id _ _ _ Hu)).
  rewrite (refresh_rotates cfg env1 req1 w rt p u Hc1 Hv1 Hr1 Hd1 Hs Hu Ha).
  cbn [reply_ctx cookies after].
  split; [cbn; auto|].
  set (p2 := mkPayload (u_id u) (u_email u) (u_role u) (uuid env1)
                       (now env1 / 1000)
                       (now env1 / 1000 + refreshExpiresIn cfg)).
  assert (Hv2 : jwt_verify
                  (generateRefreshToken cfg (u_id u) (u_email u) (u_role u)
                                        (uuid env1) (now env1))
                  (refreshSecret cfg) issuer audience (now env2) = JwtOk p2)
    by (by apply verify_generated_refresh).
  set (w1 := mkWorld _ (db w)).
  assert (Hs2 : value_truthy (redis_get (now env2) (redis w1)
                                        (session_key (p_sessionId p2))) = true).
  { subst w1. cbn [redis p_sessionId p2]. rewrite redis_get_setex.
    destruct (Z.ltb_spec (now env2) (now env1 + 7 * 24 * 60 * 60 * 1000));
      [done | lia]. }
  rewrite (refresh_rotates cfg env2 req2 w1 _ p2 u Hc2 Hv2 Hr2 Hd2 Hs2 Hid Ha).
  cbn [outcome after redis]. split; [done|]. split.
  - unfold redis_get, redis_setex, redis_del.
    rewrite rlive_insert_ne by (by intros ?%session_key_inj).
    by rewrite rlive_delete_eq.
  - rewrite redis_get_setex.
    destruct (Z.ltb_spec (now env2) (now env2 + 7 * 24 * 60 * 60 * 1000));
      [done | lia].
Qed.

(** Two rotations in a row. *)
Lemma rotated_token_rotates_again_witness :
  let rp1 := asyncHandler
               (refreshToken sample_cfg (sample_env 2000 "s2")
                             with_refresh_cookie) w_logged_in in
  outcome (asyncHandler
             (refreshToken sample_cfg (sample_env 3000 "s3")
                (mkRequest None (Some rt2) None "" "" false (Some "10.0.0.1")
                           "agent"))
             (after rp1))
  = Responded (BodyMessage "Token refreshed successfully").
Proof.
  intros rp1.
  pose proof (rotated_token_rotates_again sample_cfg w_logged_in
                (sample_env 2000 "s2") (sample_env 3000 "s3")
                with_refresh_cookie
                (mkRequest None (Some rt2) None "" "" false (Some "10.0.0.1")
                           "agent")
                rt1 payload1 (set_lastLogin 1000 alice)) as H.
  feed 13 H. cbv zeta in H. destruct H as (_ & H & _). exact H.
Defined.

(** ** More on [logout] *)

(** X5.  Logout never fails.  For every request and every state of the
    stores, reachable or not, [logout] answers "Logged out successfully"
    and tells the client to drop both cookies.  It revokes something only
    when the refresh cookie verifies and Redis answers; in every other
    case (no cookie, a token that does not verify, Redis down) both stores
    are left exactly as they were, and the answer is the same. *)
Theorem logout_never_fails cfg env req w :
  let rp := asyncHandler (logout cfg env req) w in
  outcome rp = Responded (BodyMessage "Logged out successfully")
  /\ cookies (reply_ctx rp) = clear_both
  /\ db (after rp) = db w
  /\ ((token_present (cookie_refresh req) = false
       \/ (forall p, jwt_verify (token_value (cookie_refresh req))
                                (refreshSecret cfg) issuer audience (now env)
                     ≠ JwtOk p)
       \/ redisUp env = false) ->
      after rp = w /\ effects (reply_ctx rp) = []).
Proof.
  cbv zeta. unfold asyncHandler, logout, verifyRefreshToken, blacklistSession,
    fresh_ctx.
  destruct w as [r d].
  destruct (token_present (cookie_refresh req)) eqn:Htok; run_m.
  2:{ repeat split; done. }
  destruct (jwt_verify _ _ _ _ _) as [p| |msg] eqn:Hv; run_m.
  2,3: (repeat split; done).
  destruct (redisUp env) eqn:Hr; run_m.
  2:{ repeat split; done. }
  split; [done|]. split; [done|]. split; [done|].
  intros [?|[Hn|?]]; try done. by destruct (Hn p).
Qed.

(** Alice logs out. *)
Lemma logout_never_fails_witness :
  outcome (asyncHandler (logout sample_cfg (sample_env 2000 "x")
                                with_refresh_cookie) w_logged_in)
  = Responded (BodyMessage "Logged out successfully").
Proof.
  pose proof (logout_never_fails sample_cfg (sample_env 2000 "x")
                with_refresh_cookie w_logged_in) as H.
  cbv zeta in H. destruct H as (H & _). exact H.
Defined.

(** What a revoking logout leaves in Redis. *)
Lemma logout_redis cfg env req w rt p :
  cookie_refresh req = Some rt ->
  jwt_verify rt (refreshSecret cfg) issuer audience (now env) = JwtOk p ->
  redisUp env = true ->
  after (asyncHandler (logout cfg env req) w)
  = mkWorld
      (delete (session_key (p_sessionId p))
         (<[blacklist_key (p_sessionId p) :=
              mkEntry (VText "true")
                      (Some (now env + blacklist_default_ttl * 1000))]>
            (redis w)))
      (db w).
Proof. intros Hc Hv Hr. by rewrite (logout_run cfg env req w rt p). Qed.

(** X6.  What a logout revokes, and for how long.  When the refresh
    cookie verifies and Redis answers, [logout] deletes the token's
    session from the registry and blacklists its id for exactly seven
    days: [redis.get] finds the blacklist entry at [t] if and only if
    [t < now + 7 d].  No other Redis key and no account row changes.  A
    refresh that presents the same token afterwards, while the token still
    verifies, fails with [SESSION_EXPIRED] and creates nothing. *)
Theorem logout_revokes_one_session cfg envL reqL w rt p envR reqR :
  cookie_refresh reqL = Some rt ->
  jwt_verify rt (refreshSecret cfg) issuer audience (now envL) = JwtOk p ->
  redisUp envL = true ->
  cookie_refresh reqR = Some rt ->
  jwt_verify rt (refreshSecret cfg) issuer audience (now envR) = JwtOk p ->
  redisUp envR = true ->
  let wL := after (asyncHandler (logout cfg envL reqL) w) in
  let rpR := asyncHandler (refreshToken cfg envR reqR) wL in
  redis wL !! session_key (p_sessionId p) = None
  /\ (forall t,
         redis_get t (redis wL) (blacklist_key (p_sessionId p))
         = if t <? now envL + 7 * 24 * 60 * 60 * 1000
           then Some (VText "true") else None)
  /\ (forall k, k ≠ session_key (p_sessionId p) ->
                k ≠ blacklist_key (p_sessionId p) ->
                redis wL !! k = redis w !! k)
  /\ db wL = db w
  /\ outcome rpR = NextError (EApp sessionGone)
  /\ after rpR = wL.
Proof.
  intros HcL HvL HrL HcR HvR HrR. cbv zeta.
  rewrite (logout_redis cfg envL reqL w rt p HcL HvL HrL).
  cbn [redis db].
  assert (Hgone : delete (session_key (p_sessionId p))
                    (<[blacklist_key (p_sessionId p) :=
                         mkEntry (VText "true")
                           (Some (now envL + blacklist_default_ttl * 1000))]>
                       (redis w))
                  !! session_key (p_sessionId p) = None)
    by apply lookup_delete_eq.
  split; [exact Hgone|]. split; [|split; [|split; [done|]]].
  - intros t. unfold redis_get, rlive.
    rewrite lookup_delete_ne
      by (intros Heq; symmetry in Heq; by apply blacklist_key_ne_session in Heq).
    rewrite lookup_insert_eq. unfold entry_live, blacklist_default_ttl. cbn.
    by destruct (t <? now envL + 7 * 24 * 60 * 60 * 1000).
  - intros k Hk1 Hk2. by rewrite lookup_delete_ne, lookup_insert_ne.
  - rewrite (refresh_session_gone cfg envR reqR _ rt p HcR HvR HrR); [done|].
    cbn [redis]. unfold redis_get, rlive. by rewrite Hgone.
Qed.

(** After Alice's logout her refresh token is refused. *)
Lemma logout_revokes_one_session_witness :
  let wL := after (asyncHandler (logout sample_cfg (sample_env 2000 "x")
                                        with_refresh_cookie) w_logged_in) in
  outcome (asyncHandler (refreshToken sample_cfg (sample_env 3000 "y")
                                      with_refresh_cookie) wL)
  = NextError (EApp sessionGone).
Proof.
  intros wL.
  pose proof (logout_revokes_one_session sample_cfg (sample_env 2000 "x")
                with_refresh_cookie w_logged_in rt1 payload1
                (sample_env 3000 "y") with_refresh_cookie) as H.
  feed 6 H. cbv zeta in H. destruct H as (_ & _ & _ & _ & H & _). exact H.
Defined.

(** X7.  Logout is idempotent.  Logging out twice with the same refresh
    token gives the same answer twice, and leaves the stores in the state
    a single logout at the time of the second would have left: the
    session stays deleted, and the seven days of the blacklist entry
    start anew. *)
Theorem logout_twice cfg env1 env2 req w rt p :
  cookie_refresh req = Some rt ->
  jwt_verify rt (refreshSecret cfg) issuer audience (now env1) = JwtOk p ->
  jwt_verify rt (refreshSecret cfg) issuer audience (now env2) = JwtOk p ->
  redisUp env1 = true -> redisUp env2 = true ->
  let rp1 := asyncHandler (logout cfg env1 req) w in
  let rp2 := asyncHandler (logout cfg env2 req) (after rp1) in
  outcome rp2 = outcome rp1
  /\ reply_ctx rp2 = reply_ctx rp1
  /\ after rp2 = after (asyncHandler (logout cfg env2 req) w).
Proof.
  intros Hc Hv1 Hv2 Hr1 Hr2. cbv zeta.
  rewrite !(logout_run cfg env1 req _ rt p Hc Hv1 Hr1).
  rewrite !(logout_run cfg env2 req _ rt p Hc Hv2 Hr2).
  cbn [outcome reply_ctx after redis db]. split; [done|]. split; [done|].
  f_equal. unfold redis_del, redis_setex. apply map_eq. intros k.
  destruct (decide (k = session_key (p_sessionId p))) as [->|Hk].
  { by rewrite !lookup_delete_eq. }
  rewrite !lookup_delete_ne by done.
  destruct (decide (k = blacklist_key (p_sessionId p))) as [->|Hk'].
  { by rewrite !lookup_insert_eq. }
  by rewrite !lookup_insert_ne, lookup_delete_ne, lookup_insert_ne.
Qed.

(** Alice logs out twice. *)
Lemma logout_twice_witness :
  let rp1 := asyncHandler (logout sample_cfg (sample_env 2000 "x")
                                  with_refresh_cookie) w_logged_in in
  let rp2 := asyncHandler (logout sample_cfg (sample_env 3000 "y")
                                  with_refresh_cookie) (after rp1) in
  outcome rp2 = outcome rp1.
Proof.
  intros rp1 rp2.
  pose proof (logout_twice sample_cfg (sample_env 2000 "x")
                (sample_env 3000 "y") with_refresh_cookie w_logged_in rt1
                payload1) as H.
  feed 5 H. cbv zeta in H. destruct H as (H & _). exact H.
Defined.

(** ** More on [authenticate] *)

(** [authenticate] writes neither store. *)
Lemma authenticate_frame cfg env req w :
  after (middleware (authenticate cfg env req) w) = w.
Proof.
  unfold middleware, authenticate, verifyAccessToken, isSessionBlacklisted,
    fresh_ctx.
  destruct w as [r d].
  destruct (token_present (presented_token req)); run_m; [|done].
  destruct (jwt_verify _ _ _ _ _) as [p| |msg]; run_m; [|done|done].
  destruct (redisUp env); run_m; [|done].
  destruct (redis_get (now env) r (blacklist_key (p_sessionId p))); run_m;
    [done|].
  destruct (dbUp env); run_m; [|done].
  destruct (findUniqueById (p_userId p) d) as [u|]; run_m; [|done].
  destruct (u_isActive u); run_m; [|done].
  by destruct (is_locked (now env) u).
Qed.

(** X8.  What [authenticate] never does.  For every request and every
    state of the stores it leaves both stores exactly as they were and
    never answers itself; [req.user] is set exactly when it calls
    [next()] without an error.  It clears the two auth cookies exactly
    when it rejects with [TOKEN_EXPIRED], [INVALID_TOKEN] or
    [SESSION_EXPIRED]; on every other path (no token, unknown, deactivated
    or locked account, a store that does not answer, success) it issues no
    cookie operation at all. *)
Theorem authenticate_never_writes cfg env req w :
  let rp := middleware (authenticate cfg env req) w in
  after rp = w
  /\ (forall b, outcome rp ≠ Responded b)
  /\ (user (reply_ctx rp) ≠ None <-> outcome rp = NextOk)
  /\ (cookies (reply_ctx rp) = clear_both <->
      outcome rp = NextError (EApp tokenExpired)
      \/ outcome rp = NextError (EApp invalidToken)
      \/ outcome rp = NextError (EApp sessionExpired))
  /\ (cookies (reply_ctx rp) = clear_both \/ cookies (reply_ctx rp) = []).
Proof.
  cbv zeta.
  unfold middleware, authenticate, verifyAccessToken, isSessionBlacklisted,
    fresh_ctx.
  destruct w as [r d].
  destruct (token_present (presented_token req)); run_m; [|auth_table].
  destruct (jwt_verify _ _ _ _ _) as [p| |msg]; run_m;
    [|auth_table|auth_table].
  destruct (redisUp env); run_m; [|auth_table].
  destruct (redis_get (now env) r (blacklist_key (p_sessionId p))); run_m;
    [auth_table|].
  destruct (dbUp env); run_m; [|auth_table].
  destruct (findUniqueById (p_userId p) d) as [u|]; run_m; [|auth_table].
  destruct (u_isActive u); run_m; [|auth_table].
  destruct (is_locked (now env) u); run_m; auth_table.
Qed.

(** A request without any token. *)
Lemma authenticate_never_writes_witness :
  after (middleware
           (authenticate sample_cfg (sample_env 2000 "x")
                         (sample_login "10.0.0.1" ""))
           w_logged_in) = w_logged_in.
Proof.
  pose proof (authenticate_never_writes sample_cfg (sample_env 2000 "x")
                (sample_login "10.0.0.1" "") w_logged_in) as H.
  cbv zeta in H. destruct H as (H & _). exact H.
Defined.

(** [authenticate] reads nothing of the request but the presented token. *)
Lemma authenticate_presented cfg env req req' w :
  presented_token req = presented_token req' ->
  middleware (authenticate cfg env req) w
  = middleware (authenticate cfg env req') w.
Proof. intros H. unfold middleware, authenticate. by rewrite H. Qed.

(** X9.  The access cookie shadows the [Authorization] header.  When the
    [access_token] cookie is present (a non-empty value) and does not
    verify, [authenticate] rejects the request with [TOKEN_EXPIRED] or
    [INVALID_TOKEN] and clears the cookies, whatever bearer token the
    request carries beside it: the header is never looked at.  The header
    is used only when the cookie is absent or empty; the request is then
    treated exactly like one that presents the bearer token as its
    cookie. *)
Theorem access_cookie_shadows_bearer cfg env w :
  (forall req,
      token_present (cookie_access req) = true ->
      (forall p, jwt_verify (token_value (cookie_access req)) (accessSecret cfg)
                            issuer audience (now env) ≠ JwtOk p) ->
      let rp := middleware (authenticate cfg env req) w in
      (outcome rp = NextError (EApp tokenExpired)
       \/ outcome rp = NextError (EApp invalidToken))
      /\ cookies (reply_ctx rp) = clear_both
      /\ user (reply_ctx rp) = None)
  /\ (forall req req' b,
         token_present (cookie_access req) = false ->
         bearer req = Some b ->
         cookie_access req' = Some b ->
         token_present (Some b) = true ->
         middleware (authenticate cfg env req) w
         = middleware (authenticate cfg env req') w).
Proof.
  split.
  - intros req Hc Hn. cbv zeta.
    assert (Hp : presented_token req = cookie_access req)
      by (unfold presented_token; by rewrite Hc).
    unfold middleware, authenticate, verifyAccessToken, fresh_ctx.
    rewrite Hp, Hc. run_m.
    destruct (jwt_verify _ _ _ _ _) as [p| |msg] eqn:Hv; run_m.
    + by destruct (Hn p).
    + split; [by left|done].
    + split; [by right|done].
  - intros req req' b Hc Hb Hc' Hb'. apply authenticate_presented.
    unfold presented_token. by rewrite Hc, Hb, Hc', Hb'.
Qed.

(** A stale cookie beside a valid bearer token. *)
Lemma access_cookie_shadows_bearer_witness :
  cookies (reply_ctx
             (middleware
                (authenticate sample_cfg (sample_env 2000 "x")
                              stale_cookie_valid_bearer)
                w_logged_in)) = clear_both.
Proof.
  pose proof (access_cookie_shadows_bearer sample_cfg (sample_env 2000 "x")
                w_logged_in) as [H _].
  specialize (H stale_cookie_valid_bearer ltac:(crunch)).
  cbv zeta in H. apply H. intros p. crunch.
Defined.

(** The row a wrong password leaves behind. *)
Lemma login_wrong_row_by_id bc cfg env req w u :
  passes_rate_limit env req w = true -> dbUp env = true ->
  findUniqueByEmail (body_email req) (db w) = Some u ->
  findUniqueById (u_id u) (db w) = Some u ->
  is_locked (now env) u = false ->
  u_isActive u = true ->
  bc (body_password req) (u_passwordHash u) = false ->
  findUniqueById (u_id u) (db (after (asyncHandler (login bc cfg env req) w)))
  = Some (set_failed (u_failedLoginAttempts u + 1)
            (if maxLoginAttempts <=? u_failedLoginAttempts u + 1
             then Some (now env + lockoutDuration) else None) u).
Proof.
  intros Hp Hd Hf Hid Hl Ha Hbc.
  rewrite (login_wrong_password bc cfg env req w Hp Hd u Hf Hl Ha Hbc).
  cbn [after db]. rewrite find_id_update by done. rewrite Hid. cbn.
  by rewrite String.eqb_refl.
Qed.

(** X10.  A lockout suspends the sessions that are already open.  Let a
    wrong-password [login] take an account's counter to [maxLoginAttempts]
    or beyond, so that the account is locked.  A request that presents a
    valid, unexpired access token of that account, for a session that is
    not blacklisted, is then rejected by [authenticate] with status 403,
    [ACCOUNT_LOCKED], for as long as the lockout lasts (thirty minutes from
    the failed login); the cookies are left in place and the token is
    accepted again once the lockout instant has been reached. *)
Theorem lockout_suspends_open_sessions bc cfg envL reqL w u envA reqA p :
  passes_rate_limit envL reqL w = true -> dbUp envL = true ->
  findUniqueByEmail (body_email reqL) (db w) = Some u ->
  findUniqueById (u_id u) (db w) = Some u ->
  is_locked (now envL) u = false ->
  u_isActive u = true ->
  bc (body_password reqL) (u_passwordHash u) = false ->
  maxLoginAttempts <= u_failedLoginAttempts u + 1 ->
  token_present (presented_token reqA) = true ->
  jwt_verify (token_value (presented_token reqA)) (accessSecret cfg)
             issuer audience (now envA) = JwtOk p ->
  p_userId p = u_id u ->
  redis_get (now envA) (redis w) (blacklist_key (p_sessionId p)) = None ->
  redisUp envA = true -> dbUp envA = true ->
  let wL := after (asyncHandler (login bc cfg envL reqL) w) in
  let rpA := middleware (authenticate cfg envA reqA) wL in
  (now envA < now envL + 30 * 60 * 1000 ->
   outcome rpA = NextError (EApp accountLockedNow)
   /\ cookies (reply_ctx rpA) = []
   /\ user (reply_ctx rpA) = None)
  /\ (now envL + 30 * 60 * 1000 <= now envA ->
      outcome rpA = NextOk
      /\ user (reply_ctx rpA)
         = Some (mkIdentity (u_id u) (u_email u) (u_role u))).
Proof.
  intros Hp Hd Hf Hid Hl Ha Hbc Hmax Htok Hv Hpu Hbl HrA HdA. cbv zeta.
  pose proof (login_wrong_row_by_id bc cfg envL reqL w u Hp Hd Hf Hid Hl Ha Hbc)
    as Hrow.
  pose proof (login_redis_frame bc cfg envL reqL w (blacklist_key (p_sessionId p))
                (blacklist_key_ne_rate _ _) (blacklist_key_ne_session _ _))
    as Hfr.
  assert (Hmax' : (maxLoginAttempts <=? u_failedLoginAttempts u + 1) = true)
    by (by apply Z.leb_le).
  rewrite Hmax' in Hrow. rewrite <- Hpu in Hrow.
  set (wL := after (asyncHandler (login bc cfg envL reqL) w)) in *.
  unfold middleware, authenticate, verifyAccessToken, isSessionBlacklisted,
    fresh_ctx.
  assert (Hbl' : redis_get (now envA) (redis wL) (blacklist_key (p_sessionId p))
                 = None)
    by (unfold redis_get, rlive in *; by rewrite Hfr).
  destruct wL as [rL dL]. cbn [redis db] in *.
  rewrite Htok, Hv. run_m. rewrite HrA. run_m. rewrite Hbl'. run_m.
  rewrite HdA. run_m. rewrite Hrow. run_m. cbn [set_failed u_isActive].
  rewrite Ha. cbn [negb]. unfold is_locked, lockoutDuration.
  cbn [set_failed u_lockedUntil].
  split; intros Ht.
  - assert (Hlt : (now envA <? now envL + 30 * 60 * 1000) = true)
      by (apply Z.ltb_lt; lia).
    by rewrite Hlt.
  - assert (Hge : (now envA <? now envL + 30 * 60 * 1000) = false)
      by (apply Z.ltb_ge; lia).
    by rewrite Hge.
Qed.

(** The fifth wrong password locks Alice out of the session she has. *)
Lemma lockout_suspends_open_sessions_witness :
  let wL := after (asyncHandler
                     (login sample_bcrypt sample_cfg (sample_env 1000 "s9")
                            (sample_login "10.0.0.9" "guess"))
                     (mkWorld ∅ [alice_four])) in
  outcome (middleware
             (authenticate sample_cfg (sample_env 2000 "x") with_access_cookie)
             wL)
  = NextError (EApp accountLockedNow).
Proof.
  intros wL.
  pose proof (lockout_suspends_open_sessions sample_bcrypt sample_cfg
                (sample_env 1000 "s9") (sample_login "10.0.0.9" "guess")
                (mkWorld ∅ [alice_four]) alice_four
                (sample_env 2000 "x") with_access_cookie access_payload1) as H.
  feed 14 H. cbv zeta in H. destruct H as (H & _). apply H. crunch.
Defined.

(** ** More on [login] *)

(** X11.  What [login] tells about an account before it looks at the
    password.  For a request the rate limiter lets through: if the
    account named by the e-mail is inside a lockout the answer is status
    403, [ACCOUNT_LOCKED]; if it is deactivated (and not locked) the
    answer is status 403, [ACCOUNT_DEACTIVATED].  In both cases the
    submitted password plays no part: [bcrypt.compare] is not called, the
    account row is not written, no cookie is set, and a second request
    that differs only in its password is answered in exactly the same
    way. *)
Theorem login_account_state_before_password bc cfg env req req' w u :
  passes_rate_limit env req w = true -> dbUp env = true ->
  findUniqueByEmail (body_email req) (db w) = Some u ->
  is_locked (now env) u = true \/ u_isActive u = false ->
  body_email req' = body_email req -> req_ip req' = req_ip req ->
  let rp := asyncHandler (login bc cfg env req) w in
  outcome rp = NextError (EApp (if is_locked (now env) u
                                then accountLocked else accountDeactivated))
  /\ bcrypt_calls (effects (reply_ctx rp)) = 0%nat
  /\ cookies (reply_ctx rp) = []
  /\ db (after rp) = db w
  /\ asyncHandler (login bc cfg env req') w = rp.
Proof.
  intros Hp Hd Hf Hst He Hip. cbv zeta.
  assert (Hk : login_rate_key req' = login_rate_key req)
    by (unfold login_rate_key, clientIp; by rewrite He, Hip).
  assert (Hp' : passes_rate_limit env req' w = true).
  { rewrite passes_rate_limit_spec in *.
    change ("ratelimit:" +:+ ("login:" +:+ clientIp req' +:+ ":" +:+ body_email req'))
      with (login_rate_key req') in *.
    by rewrite Hk. }
  assert (Hg : gate_world env req' w = gate_world env req w)
    by (unfold gate_world; by rewrite Hk).
  rewrite (login_admitted bc cfg env req w Hp Hd).
  rewrite (login_admitted bc cfg env req' w Hp' Hd).
  rewrite He, Hf, Hg.
  unfold asyncHandler, login_check, fresh_ctx.
  destruct (is_locked (now env) u) eqn:Hl; run_m.
  - repeat split; done.
  - destruct Hst as [?|Hi]; [done|]. rewrite Hi. run_m. repeat split; done.
Qed.

(** A locked account, whatever the password. *)
Lemma login_account_state_before_password_witness :
  outcome (asyncHandler
             (login sample_bcrypt sample_cfg (sample_env 6000 "s6")
                    (sample_login "10.0.0.2" "correct horse"))
             (mkWorld ∅ [alice_locked]))
  = NextError (EApp accountLocked).
Proof.
  pose proof (login_account_state_before_password sample_bcrypt sample_cfg
                (sample_env 6000 "s6")
                (sample_login "10.0.0.2" "correct horse")
                (sample_login "10.0.0.2" "another")
                (mkWorld ∅ [alice_locked]) alice_locked) as H.
  feed 3 H. specialize (H ltac:(left; crunch)). feed 2 H.
  cbv zeta in H. destruct H as (H & _). exact H.
Defined.

(** ** More on [refreshToken] *)

(** [refreshToken] writes session keys only. *)
Lemma refresh_redis_frame cfg env req w k :
  (forall sid, k ≠ session_key sid) ->
  redis (after (asyncHandler (refreshToken cfg env req) w)) !! k = redis w !! k.
Proof.
  intros Hk. unfold asyncHandler, refreshToken, verifyRefreshToken, fresh_ctx.
  destruct w as [r d].
  destruct (token_present (cookie_refresh req)); run_m; [|done].
  destruct (jwt_verify _ _ _ _ _) as [p| |msg]; run_m; [|done|done].
  destruct (redisUp env) eqn:Hr; run_m; [|done].
  destruct (value_truthy _); run_m; [|done].
  destruct (dbUp env); run_m; [|done].
  destruct (findUniqueById (p_userId p) d) as [u|]; run_m; [|done].
  destruct (u_isActive u); run_m; [|done].
  rewrite ?Hr. run_m. cbn [after redis]. unfold redis_setex, redis_del.
  rewrite lookup_insert_ne by (intros Heq; by destruct (Hk (uuid env))).
  by rewrite lookup_delete_ne by (intros Heq; by destruct (Hk (p_sessionId p))).
Qed.

(** X12.  What [refreshToken] leaves alone.  When it rejects a request
    with one of its own errors ([NO_REFRESH_TOKEN], [SESSION_EXPIRED],
    [USER_INVALID]) or with an error of jsonwebtoken, Redis and the user
    table are exactly as before: each of these is thrown before the first
    write.  (A rejected store call is left out: in the source the [SETEX]
    can reject after the [DEL] has gone through.)  On every path the user
    table is unchanged, and so is every Redis key that is not a
    [session:] key, the blacklist among them. *)
Theorem refresh_rejections_write_nothing cfg env req w :
  let rp := asyncHandler (refreshToken cfg env req) w in
  (forall e, outcome rp = NextError e ->
             (forall what, e ≠ EStore what) ->
             after rp = w)
  /\ db (after rp) = db w
  /\ (forall k, (forall sid, k ≠ session_key sid) ->
                redis (after rp) !! k = redis w !! k)
  /\ (forall sid, redis (after rp) !! blacklist_key sid
                  = redis w !! blacklist_key sid).
Proof.
  cbv zeta. split; [|split; [|split]].
  - unfold asyncHandler, refreshToken, verifyRefreshToken, fresh_ctx.
    destruct w as [r d].
    destruct (token_present (cookie_refresh req)); run_m; [|done].
    destruct (jwt_verify _ _ _ _ _) as [p| |msg]; run_m; [|done|done].
    destruct (redisUp env) eqn:Hr; run_m; [|done].
    destruct (value_truthy _); run_m; [|done].
    destruct (dbUp env); run_m; [|done].
    destruct (findUniqueById (p_userId p) d) as [u|]; run_m; [|done].
    destruct (u_isActive u); run_m; [|done].
    rewrite ?Hr. run_m. done.
  - unfold asyncHandler, refreshToken, verifyRefreshToken, fresh_ctx.
    destruct w as [r d].
    destruct (token_present (cookie_refresh req)); run_m; [|done].
    destruct (jwt_verify _ _ _ _ _) as [p| |msg]; run_m; [|done|done].
    destruct (redisUp env) eqn:Hr; run_m; [|done].
    destruct (value_truthy _); run_m; [|done].
    destruct (dbUp env); run_m; [|done].
    destruct (findUniqueById (p_userId p) d) as [u|]; run_m; [|done].
    destruct (u_isActive u); run_m; [|done].
    rewrite ?Hr. run_m. done.
  - intros k Hk. by apply refresh_redis_frame.
  - intros sid. apply refresh_redis_frame. intros sid'.
    apply blacklist_key_ne_session.
Qed.

(** A refresh without a cookie. *)
Lemma refresh_rejections_write_nothing_witness :
  after (asyncHandler
           (refreshToken sample_cfg (sample_env 2000 "s2")
                         (sample_login "10.0.0.1" ""))
           w_logged_in) = w_logged_in.
Proof.
  pose proof (refresh_rejections_write_nothing sample_cfg
                (sample_env 2000 "s2") (sample_login "10.0.0.1" "")
                w_logged_in) as H.
  cbv zeta in H. destruct H as (H & _).
  apply (H (EApp (mkAppError "Refresh token not provided" 401
                             "NO_REFRESH_TOKEN"))); [crunch|].
  intros what. discriminate.
Defined.

(** X13.  [refreshToken] does not look at the lockout.  Let a refresh
    token verify and name a live session of an existing, active account.
    The rotation succeeds and sets both cookies whatever the account's
    [lockedUntil] and failed-login counter are, also in the middle of a
    lockout; but while the lockout lasts, [authenticate] rejects the
    access token that this very rotation issued with status 403,
    [ACCOUNT_LOCKED]. *)
Theorem refresh_ignores_lockout cfg envR reqR w rt p u envA reqA :
  cookie_refresh reqR = Some rt ->
  jwt_verify rt (refreshSecret cfg) issuer audience (now envR) = JwtOk p ->
  redisUp envR = true -> dbUp envR = true ->
  value_truthy (redis_get (now envR) (redis w) (session_key (p_sessionId p)))
    = true ->
  findUniqueById (p_userId p) (db w) = Some u ->
  u_isActive u = true ->
  is_locked (now envA) u = true ->
  presented_token reqA
    = Some (generateAccessToken cfg (u_id u) (u_email u) (u_role u)
                                (uuid envR) (now envR)) ->
  now envA / 1000 < now envR / 1000 + accessExpiresIn cfg ->
  redis_get (now envA) (redis w) (blacklist_key (uuid envR)) = None ->
  redisUp envA = true -> dbUp envA = true ->
  let rpR := asyncHandler (refreshToken cfg envR reqR) w in
  let rpA := middleware (authenticate cfg envA reqA) (after rpR) in
  outcome rpR = Responded (BodyMessage "Token refreshed successfully")
  /\ cookies (reply_ctx rpR) =
       [SetCookie "access_token"
          (generateAccessToken cfg (u_id u) (u_email u) (u_role u)
                               (uuid envR) (now envR));
        SetCookie "refresh_token"
          (generateRefreshToken cfg (u_id u) (u_email u) (u_role u)
                                (uuid envR) (now envR))]
  /\ outcome rpA = NextError (EApp accountLockedNow)
  /\ user (reply_ctx rpA) = None.
Proof.
  intros Hc Hv Hr Hd Hs Hu Ha Hl Htok Hexp Hbl HrA HdA. cbv zeta.
  pose proof (find_id_Some_id _ _ _ Hu) as Hid.
  rewrite (refresh_rotates cfg envR reqR w rt p u Hc Hv Hr Hd Hs Hu Ha).
  cbn [outcome reply_ctx cookies after]. split; [done|]. split; [done|].
  set (q := mkPayload (u_id u) (u_email u) (u_role u) (uuid envR)
                      (now envR / 1000)
                      (now envR / 1000 + accessExpiresIn cfg)).
  assert (Hq : jwt_verify (token_value (presented_token reqA))
                 (accessSecret cfg) issuer audience (now envA) = JwtOk q).
  { rewrite Htok. cbn [token_value]. by apply verify_generated_access. }
  assert (Hpres : token_present (presented_token reqA) = true)
    by (by rewrite Htok).
  rewrite (authenticate_locked cfg envA reqA _ q u Hpres Hq HrA HdA);
    [done| |by cbn [db q p_userId]; rewrite Hid|done|done].
  cbn [redis q p_sessionId]. unfold redis_get, rlive, redis_setex, redis_del in *.
  rewrite lookup_insert_ne
    by (intros Heq; symmetry in Heq; by apply blacklist_key_ne_session in Heq).
  rewrite lookup_delete_ne
    by (intros Heq; symmetry in Heq; by apply blacklist_key_ne_session in Heq).
  done.
Qed.

(** A rotation in the middle of a lockout. *)
Lemma refresh_ignores_lockout_witness :
  let w := mkWorld (redis w_logged_in) [alice_locked] in
  let rpR := asyncHandler (refreshToken sample_cfg (sample_env 2000 "s2")
                                        with_refresh_cookie) w in
  outcome rpR = Responded (BodyMessage "Token refreshed successfully")
  /\ outcome (middleware
                (authenticate sample_cfg (sample_env 3000 "x")
                   (mkRequest (Some at2) None None "" "" false
                              (Some "10.0.0.1") "agent"))
                (after rpR))
     = NextError (EApp accountLockedNow).
Proof.
  intros w rpR.
  pose proof (refresh_ignores_lockout sample_cfg (sample_env 2000 "s2")
                with_refresh_cookie w rt1 payload1 alice_locked
                (sample_env 3000 "x")
                (mkRequest (Some at2) None None "" "" false
                           (Some "10.0.0.1") "agent")) as H.
  feed 13 H. cbv zeta in H. destruct H as (H1 & _ & H3 & _).
  split; [exact H1 | exact H3].
Defined.

(** ** More on the rate limiter *)

(** [INCR] always leaves a live entry under the key. *)
Lemma incr_live now (r : gmap string rentry) k :
  exists e, rlive now (snd (redis_incr now k r)) k = Some e.
Proof.
  unfold redis_incr.
  destruct (rlive now r k) as [[v ex]|] eqn:Hl.
  - assert (Hlive : entry_live now (mkEntry v ex) = true).
    { unfold rlive in Hl. destruct (r !! k) as [e'|]; [|done].
      destruct (entry_live now e') eqn:He; [|done]. by simplify_eq. }
    destruct v as [txt|d|n]; cbn [snd]; rewrite ?rlive_insert_eq.
    + eauto.
    + eauto.
    + change (entry_live now (mkEntry (VInt (n + 1)) ex))
        with (entry_live now (mkEntry (VInt n) ex)).
      rewrite Hlive. eauto.
  - cbn [snd]. rewrite rlive_insert_eq. cbn. eauto.
Qed.

(** Whatever the key held, it has an expiry in the future afterwards. *)
Lemma bump_expires now win (r : gmap string rentry) k :
  0 < win ->
  exists e t, bump now win r k !! k = Some e /\ e_expireAt e = Some t /\ now < t.
Proof.
  intros Hwin. unfold bump.
  destruct (incr_live now r k) as [e He].
  set (r1 := snd (redis_incr now k r)) in *.
  pose proof (rlive_Some_lookup _ _ _ _ He) as Hk.
  assert (Hlive : entry_live now e = true).
  { unfold rlive in He. rewrite Hk in He. by destruct (entry_live now e). }
  unfold redis_ttl, redis_expire. rewrite He.
  destruct e as [v [t|]]; cbn [e_expireAt e_val].
  - unfold entry_live in Hlive. cbn in Hlive. apply Z.ltb_lt in Hlive.
    assert (0 <= (t - now + 500) / 1000) by (apply Z.div_pos; lia).
    destruct (Z.eqb_spec ((t - now + 500) / 1000) (-1)); [lia|].
    exists (mkEntry v (Some t)), t. done.
  - cbn. rewrite lookup_insert_eq. eexists _, _.
    split; [done|]. split; [done|]. lia.
Qed.

(** X14.  The window of [checkRateLimit] is fixed, and no counter is left
    without an expiry.  After a call that reached Redis, the key holds an
    entry that expires at some instant in the future, whatever was stored
    before (also a counter that had lost its expiry, or a value that is no
    counter).  The first call on a key with no live entry starts the count
    at 1 and opens a window of [windowSeconds]; a call inside an open
    window raises the count and leaves the window's end where it was. *)
Theorem rate_limit_window_is_fixed env key maxAttempts windowSeconds s :
  redisUp env = true -> 0 < windowSeconds ->
  let k := "ratelimit:" +:+ key in
  let r := redis (world s) in
  let r' := redis (world (snd (checkRateLimit env key maxAttempts
                                              windowSeconds s))) in
  (exists e t, r' !! k = Some e /\ e_expireAt e = Some t /\ now env < t)
  /\ (rlive (now env) r k = None ->
      r' !! k = Some (mkEntry (VInt 1)
                              (Some (now env + windowSeconds * 1000))))
  /\ (forall n t,
         r !! k = Some (mkEntry (VInt n) (Some t)) -> now env < t ->
         r' !! k = Some (mkEntry (VInt (n + 1)) (Some t))).
Proof.
  intros Hup Hwin. cbv zeta.
  rewrite (checkRateLimit_run env key maxAttempts windowSeconds s Hup).
  cbn [snd world redis].
  split; [|split].
  - by apply bump_expires.
  - intros Hl. rewrite (bump_fresh _ _ _ _ Hl). by rewrite lookup_insert_eq.
  - intros n t Hk Hlt. rewrite (bump_live _ _ _ _ _ _ Hk Hlt).
    by rewrite lookup_insert_eq.
Qed.

(** The first request of a client. *)
Lemma rate_limit_window_is_fixed_witness :
  redis (world (snd (checkRateLimit (sample_env 1000 "x")
                       "login:10.0.0.1:alice@example.com" 5 (15 * 60)
                       (mkSt sample_world fresh_ctx))))
    !! "ratelimit:login:10.0.0.1:alice@example.com"
  = Some (mkEntry (VInt 1) (Some (1000 + 15 * 60 * 1000))).
Proof.
  pose proof (rate_limit_window_is_fixed (sample_env 1000 "x")
                "login:10.0.0.1:alice@example.com" 5 (15 * 60)
                (mkSt sample_world fresh_ctx)) as H.
  feed 2 H. cbv zeta in H. destruct H as (_ & H & _). apply H. crunch.
Defined.

(** The counter after a run of requests that all fall inside the window. *)
Lemma run_logins_counter bc cfg attempts :
  forall w k n t,
    Forall (in_window k t) attempts ->
    redis w !! k = Some (mkEntry (VInt n) (Some t)) ->
    redis (snd (run_logins bc cfg attempts w)) !! k
    = Some (mkEntry (VInt (n + Z.of_nat (length attempts))) (Some t)).
Proof.
  induction attempts as [|[env req] rest IH]; intros w k n t Hall Hk.
  - cbn. rewrite Hk. do 3 f_equal. lia.
  - apply Forall_cons in Hall as [(Hkey & Hup & Hlt) Hrest].
    cbn in Hkey, Hup, Hlt. subst k.
    cbn [run_logins].
    destruct (run_logins bc cfg rest _) as [rps w'] eqn:Hrun. cbn [snd].
    destruct (login_live_counter bc cfg env req w n t Hup Hlt Hk) as [Hnext _].
    specialize (IH _ _ _ _ Hrest Hnext). rewrite Hrun in IH. cbn [snd] in IH.
    rewrite IH. do 3 f_equal. cbn [length]. lia.
Qed.

(** X15.  Blocked requests do not extend the window.  Let a client's
    counter for [login] be live with expiry [t], and let the client send
    any number of further login requests before [t], as many of them
    rate-limited as may be.  The counter goes up by one for each of them
    and its expiry stays [t]; the first request that arrives at [t] or
    later is let through by the rate limiter, and the count starts again
    at 1 with a window of fifteen minutes from that request. *)
Theorem blocked_requests_do_not_extend_window
    bc cfg attempts w n t env req :
  Forall (in_window (login_rate_key req) t) attempts ->
  redis w !! login_rate_key req = Some (mkEntry (VInt n) (Some t)) ->
  redisUp env = true ->
  t <= now env ->
  let w' := snd (run_logins bc cfg attempts w) in
  let rp := asyncHandler (login bc cfg env req) w' in
  redis w' !! login_rate_key req
  = Some (mkEntry (VInt (n + Z.of_nat (length attempts))) (Some t))
  /\ passes_rate_limit env req w' = true
  /\ outcome rp ≠ NextError (EApp rateLimited)
  /\ redis (after rp) !! login_rate_key req
     = Some (mkEntry (VInt 1) (Some (now env + 15 * 60 * 1000))).
Proof.
  intros Hall Hk Hup Ht. cbv zeta.
  pose proof (run_logins_counter bc cfg attempts w _ n t Hall Hk) as Hk'.
  set (w' := snd (run_logins bc cfg attempts w)) in *.
  assert (Hdead : rlive (now env) (redis w') (login_rate_key req) = None).
  { unfold rlive. rewrite Hk'. unfold entry_live. cbn.
    destruct (Z.ltb_spec (now env) t); [lia|done]. }
  assert (Hpass : passes_rate_limit env req w' = true).
  { rewrite passes_rate_limit_spec, Hup.
    change ("ratelimit:" +:+ ("login:" +:+ clientIp req +:+ ":" +:+ body_email req))
      with (login_rate_key req).
    unfold redis_incr. by rewrite Hdead. }
  destruct (login_counter_step bc cfg env req w' Hup) as [Hred Hout].
  split; [done|]. split; [done|]. split.
  - intros Hrl. apply Hout in Hrl. congruence.
  - rewrite Hred, (bump_fresh _ _ _ _ Hdead). by rewrite lookup_insert_eq.
Qed.

(** Six requests in one window, then one at the end of the window. *)
Lemma blocked_requests_do_not_extend_window_witness :
  let w1 := after (asyncHandler
                     (login sample_bcrypt sample_cfg (sample_env 1000 "s1")
                            (sample_login "10.0.0.1" "guess 1"))
                     sample_world) in
  passes_rate_limit (sample_env 901000 "s7") (sample_login "10.0.0.1" "guess 1")
                    (snd (run_logins sample_bcrypt sample_cfg five_more w1))
  = true.
Proof.
  intros w1.
  pose proof (blocked_requests_do_not_extend_window sample_bcrypt sample_cfg
                five_more w1 1 901000 (sample_env 901000 "s7")
                (sample_login "10.0.0.1" "guess 1")) as H.
  assert (Hwin : Forall (in_window
                           (login_rate_key (sample_login "10.0.0.1" "guess 1"))
                           901000)
                        five_more).
  { unfold five_more, five_wrong. cbn [tl app].
    repeat (constructor; [repeat split; crunch|]). constructor. }
  specialize (H Hwin). feed 3 H. cbv zeta in H.
  destruct H as (_ & H & _). exact H.
Defined.

Lemma mentions_app c a b :
  mentions c (a +:+ b) = mentions c a || mentions c b.
Proof.
  induction a as [|x a IH].
  - reflexivity.
  - change (String x a +:+ b) with (String x (a +:+ b)). cbn [mentions].
    destruct (Ascii.eqb x c); [done|exact IH].
Qed.

(** The last colon of a string splits it in one way only. *)
Lemma colon_split a a' e e' :
  mentions ":"%char e = false -> mentions ":"%char e' = false ->
  a +:+ ":" +:+ e = a' +:+ ":" +:+ e' -> a = a' /\ e = e'.
Proof.
  intros He He'. revert a'.
  induction a as [|x a IH]; intros [|x' a'] Heq.
  - change (String ":"%char e = String ":"%char e') in Heq. by simplify_eq.
  - change (String ":"%char e = String x' (a' +:+ ":" +:+ e')) in Heq.
    simplify_eq. rewrite mentions_app in He.
    change (mentions ":"%char (":" +:+ e')) with true in He.
    by rewrite orb_true_r in He.
  - change (String x (a +:+ ":" +:+ e) = String ":"%char e') in Heq.
    simplify_eq. rewrite mentions_app in He'.
    change (mentions ":"%char (":" +:+ e)) with true in He'.
    by rewrite orb_true_r in He'.
  - change (String x (a +:+ ":" +:+ e) = String x' (a' +:+ ":" +:+ e')) in Heq.
    injection Heq as -> Heq. destruct (IH _ Heq) as [-> ->]. done.
Qed.

Lemma login_rate_key_inj req req' :
  mentions ":"%char (body_email req) = false ->
  mentions ":"%char (body_email req') = false ->
  login_rate_key req = login_rate_key req' ->
  clientIp req = clientIp req' /\ body_email req = body_email req'.
Proof.
  intros He He' Hk. unfold login_rate_key in Hk.
  apply (colon_split _ _ _ _ He He').
  assert (Hinj : forall p x y, p +:+ x = p +:+ y -> x = y).
  { intros p x y. induction p as [|c p IHp]; [done|].
    change (String c (p +:+ x) = String c (p +:+ y) -> x = y).
    intros H. injection H as H. by apply IHp. }
  apply Hinj in Hk. by apply Hinj in Hk.
Qed.

(** X16.  Rate-limit counters of different clients do not interfere.
    When e-mail addresses contain no colon, the key
    [login:<ip>:<email>] determines the client address and the e-mail.
    So a login request of one client, whatever its outcome, leaves the
    counter of every request with another address or another e-mail as it
    was, and with it the rate limiter's verdict on that request. *)
Theorem login_rate_limit_is_per_client_and_email bc cfg env req w env' req' :
  mentions ":"%char (body_email req) = false ->
  mentions ":"%char (body_email req') = false ->
  clientIp req ≠ clientIp req' \/ body_email req ≠ body_email req' ->
  let w1 := after (asyncHandler (login bc cfg env req) w) in
  redis w1 !! login_rate_key req' = redis w !! login_rate_key req'
  /\ passes_rate_limit env' req' w1 = passes_rate_limit env' req' w.
Proof.
  intros He He' Hne. cbv zeta.
  assert (Hk : login_rate_key req' ≠ login_rate_key req).
  { intros Hk. symmetry in Hk.
    destruct (login_rate_key_inj _ _ He He' Hk) as [? ?].
    by destruct Hne. }
  assert (Hfr : redis (after (asyncHandler (login bc cfg env req) w))
                !! login_rate_key req' = redis w !! login_rate_key req').
  { apply login_redis_frame; [done|].
    intros Heq. symmetry in Heq. by apply session_key_ne_rate in Heq. }
  split; [done|].
  rewrite !passes_rate_limit_spec.
  change ("ratelimit:" +:+ ("login:" +:+ clientIp req' +:+ ":" +:+ body_email req'))
    with (login_rate_key req').
  unfold redis_incr, rlive. rewrite Hfr. f_equal.
  destruct (redis w !! login_rate_key req') as [e|]; [|done].
  destruct (entry_live (now env') e); [|done].
  by destruct e as [[?|?|?] ?].
Qed.

(** Two clients. *)
Lemma login_rate_limit_is_per_client_and_email_witness :
  passes_rate_limit (sample_env 2000 "s2") (sample_login "10.0.0.2" "guess")
    (after (asyncHandler
              (login sample_bcrypt sample_cfg (sample_env 1000 "s1")
                     (sample_login "10.0.0.1" "guess"))
              sample_world))
  = passes_rate_limit (sample_env 2000 "s2") (sample_login "10.0.0.2" "guess")
                      sample_world.
Proof.
  pose proof (login_rate_limit_is_per_client_and_email sample_bcrypt sample_cfg
                (sample_env 1000 "s1") (sample_login "10.0.0.1" "guess")
                sample_world (sample_env 2000 "s2")
                (sample_login "10.0.0.2" "guess")) as H.
  feed 2 H. specialize (H ltac:(left; crunch)).
  cbv zeta in H. destruct H as (_ & H). exact H.
Defined.

(** ** Role checks *)

(** [authenticate] always returns: every exit goes through [next]. *)
Lemma guarded_route_run cfg env req w roles :
  let rpA := middleware (authenticate cfg env req) w in
  middleware (route [authenticate cfg env req; authorize roles]) w =
  match outcome rpA, user (reply_ctx rpA) with
  | NextOk, Some i =>
      if existsb (String.eqb (i_role i)) roles
      then rpA
      else mkReply (NextError (EApp forbidden))
                   (mkCtx (cookies (reply_ctx rpA)) (Some i)
                      (effects (reply_ctx rpA) ++
                         [EvSecurityLog "warn" "Authorization failed"]))
                   w
  | _, _ => rpA
  end.
Proof.
  cbv zeta. unfold middleware, route, authorize, get_req_user, authenticate,
    verifyAccessToken, isSessionBlacklisted, fresh_ctx, forbidden.
  destruct w as [r d].
  destruct (token_present (presented_token req)); run_m; [|done].
  destruct (jwt_verify _ _ _ _ _) as [p| |msg]; run_m; [|done|done].
  destruct (redisUp env); run_m; [|done].
  destruct (redis_get (now env) r (blacklist_key (p_sessionId p))); run_m;
    [done|].
  destruct (dbUp env); run_m; [|done].
  destruct (findUniqueById (p_userId p) d) as [u|]; run_m; [|done].
  destruct (u_isActive u); run_m; [|done].
  destruct (is_locked (now env) u); run_m; [done|].
  cbn [i_role].
  destruct (existsb (String.eqb (u_role u)) roles) eqn:Hrole; run_m; cbn;
    by rewrite Hrole.
Qed.

(** X17.  A role check counts the role the account has now.  On a route
    guarded by [authenticate] and then [authorize(...roles)], a request
    that [authenticate] rejects is rejected in the same way; a request it
    accepts passes exactly when the role stored in the account's row is one
    of [roles], and is otherwise rejected with status 403, [FORBIDDEN].
    The role claim inside the token plays no part, so a change of role in
    the user table takes effect on the next request.  No path writes a
    store.  [authorize] without [authenticate] before it rejects every
    request with status 401. *)
Theorem guarded_route_checks_current_role cfg env req w roles :
  let rpA := middleware (authenticate cfg env req) w in
  let rp := middleware (route [authenticate cfg env req; authorize roles]) w in
  after rp = w
  /\ (outcome rpA ≠ NextOk -> rp = rpA)
  /\ (forall p u,
         token_present (presented_token req) = true ->
         jwt_verify (token_value (presented_token req)) (accessSecret cfg)
                    issuer audience (now env) = JwtOk p ->
         redisUp env = true -> dbUp env = true ->
         redis_get (now env) (redis w) (blacklist_key (p_sessionId p)) = None ->
         findUniqueById (p_userId p) (db w) = Some u ->
         u_isActive u = true ->
         is_locked (now env) u = false ->
         outcome rp = (if existsb (String.eqb (u_role u)) roles
                       then NextOk else NextError (EApp forbidden))
         /\ cookies (reply_ctx rp) = [])
  /\ outcome (middleware (authorize roles) w) = NextError (EApp unauthorized).
Proof.
  cbv zeta. rewrite guarded_route_run. cbv zeta.
  pose proof (authenticate_frame cfg env req w) as Hfr.
  set (rpA := middleware (authenticate cfg env req) w) in *.
  split; [|split; [|split]].
  - destruct (outcome rpA); try exact Hfr.
    destruct (user (reply_ctx rpA)) as [i|]; try exact Hfr.
    destruct (existsb (String.eqb (i_role i)) roles); [exact Hfr|done].
  - intros Hno. by destruct (outcome rpA).
  - intros p u Htok Hv Hr Hd Hb Hu Ha Hl. subst rpA.
    rewrite (authenticate_accepts cfg env req w p u Htok Hv Hr Hd Hb Hu Ha Hl).
    cbn [outcome reply_ctx user cookies i_role].
    by destruct (existsb (String.eqb (u_role u)) roles).
  - done.
Qed.

(** A customer on an administrators' route. *)
Lemma guarded_route_checks_current_role_witness :
  outcome (middleware
             (route [authenticate sample_cfg (sample_env 2000 "x")
                                  with_access_cookie;
                     authorize ["ADMIN"; "MANAGER"]])
             w_logged_in)
  = NextError (EApp forbidden).
Proof.
  pose proof (guarded_route_checks_current_role sample_cfg
                (sample_env 2000 "x") with_access_cookie w_logged_in
                ["ADMIN"; "MANAGER"]) as H.
  cbv zeta in H. destruct H as (_ & _ & H & _).
  specialize (H access_payload1 (set_lastLogin 1000 alice)).
  feed 8 H. destruct H as (H & _). exact H.
Defined.

(** ** Errors on their way to the client *)

(** X18.  A refresh token that does not verify is answered with a 500.
    [refreshToken] does not catch the error jsonwebtoken throws for an
    expired, malformed or wrongly signed refresh token: the error reaches
    [errorHandler] as an unknown one, so in every environment the client
    gets status 500, [INTERNAL_ERROR] and the generic message, the event
    is logged as a non-operational error, no cookie is cleared and no store
    is written.  [authenticate], which does catch these errors, answers the
    same defect in an access token with status 401. *)
Theorem bad_refresh_token_is_answered_500 cfg env w :
  (forall req,
      token_present (cookie_refresh req) = true ->
      (forall p, jwt_verify (token_value (cookie_refresh req))
                            (refreshSecret cfg) issuer audience (now env)
                 ≠ JwtOk p) ->
      let rp := asyncHandler (refreshToken cfg env req) w in
      exists e,
        outcome rp = NextError e
        /\ (forall node_env,
               errorHandler node_env (as_thrown e)
               = Some (mkErrorResponse 500 "INTERNAL_ERROR" unexpected None
                         (bool_decide (node_env = Some "development")),
                       [SecurityLog "error" "Non-operational error"]))
        /\ cookies (reply_ctx rp) = []
        /\ after rp = w)
  /\ (forall req,
         token_present (presented_token req) = true ->
         (forall p, jwt_verify (token_value (presented_token req))
                               (accessSecret cfg) issuer audience (now env)
                    ≠ JwtOk p) ->
         let rp := middleware (authenticate cfg env req) w in
         exists e,
           outcome rp = NextError e
           /\ (forall node_env,
                  res_status ∘ fst <$> errorHandler node_env (as_thrown e)
                  = Some 401)).
Proof.
  split.
  - intros req Htok Hn. cbv zeta.
    unfold asyncHandler, refreshToken, verifyRefreshToken, fresh_ctx.
    rewrite Htok. destruct w as [r d]. run_m.
    destruct (jwt_verify _ _ _ _ _) as [p| |msg] eqn:Hv; run_m.
    + by destruct (Hn p).
    + exists ETokenExpired. split; [done|]. split; [|done].
      intros node_env. unfold errorHandler. cbn.
      by destruct (bool_decide (node_env = Some "production")).
    + exists (EJsonWebToken msg). split; [done|]. split; [|done].
      intros node_env. unfold errorHandler. cbn.
      by destruct (bool_decide (node_env = Some "production")).
  - intros req Htok Hn. cbv zeta.
    unfold middleware, authenticate, verifyAccessToken, fresh_ctx.
    rewrite Htok. destruct w as [r d]. run_m.
    destruct (jwt_verify _ _ _ _ _) as [p| |msg] eqn:Hv; run_m.
    + by destruct (Hn p).
    + eexists. split; [done|]. done.
    + eexists. split; [done|]. done.
Qed.

(** A refresh cookie that is no token. *)
Lemma bad_refresh_token_is_answered_500_witness :
  exists e,
    outcome (asyncHandler
               (refreshToken sample_cfg (sample_env 2000 "s2")
                             garbage_refresh_cookie)
               w_logged_in) = NextError e
    /\ errorHandler (Some "production") (as_thrown e)
       = Some (mkErrorResponse 500 "INTERNAL_ERROR" unexpected None false,
               [SecurityLog "error" "Non-operational error"]).
Proof.
  pose proof (bad_refresh_token_is_answered_500 sample_cfg
                (sample_env 2000 "s2") w_logged_in) as [H _].
  specialize (H garbage_refresh_cookie ltac:(crunch)).
  cbv zeta in H.
  destruct H as (e & H1 & H2 & _); [intros p; crunch|].
  exists e. split; [exact H1 | exact (H2 (Some "production"))].
Defined.

(** X19.  What [errorHandler] keeps from the client.  The stack is part
    of the response only when [NODE_ENV] is [development].  Whenever the
    handler logs an error as non-operational and [NODE_ENV] is
    [production], the response carries the generic message and no details.
    An error of a class the handler does not know is answered with status
    500, [INTERNAL_ERROR] and the generic message in every environment.
    But the message and details of a non-operational [AppError] are sent
    as they are whenever [NODE_ENV] is anything but [production], also
    when it is not set; its status and code are sent in every
    environment. *)
Theorem errorHandler_hides_only_in_production node_env error res logs :
  errorHandler node_env error = Some (res, logs) ->
  (res_stack res = true <-> node_env = Some "development")
  /\ (node_env = Some "production" ->
      In (SecurityLog "error" "Non-operational error") logs ->
      res_message res = unexpected /\ res_details res = None)
  /\ (forall msg, error = ThrownOther msg ->
        res_status res = 500 /\ res_code res = "INTERNAL_ERROR"
        /\ res_message res = unexpected /\ res_details res = None)
  /\ (forall e details, error = ThrownApp e false details ->
        res_status res = ae_statusCode e /\ res_code res = ae_code e
        /\ (node_env ≠ Some "production" ->
            res_message res = ae_message e /\ res_details res = details)).
Proof.
  unfold errorHandler. intros H.
  assert (Hstack : forall b : bool,
             b = bool_decide (node_env = Some "development") ->
             (b = true <-> node_env = Some "development")).
  { intros b ->. by rewrite bool_decide_eq_true. }
  destruct error as [e op det|issues|code target| | |msg].
  - simplify_eq. cbn. split; [by apply Hstack|]. split; [|split].
    + intros Hprod Hin. rewrite (bool_decide_eq_true_2 _ Hprod).
      destruct op; cbn in *; [|done].
      destruct Hin as [?|[]]. done.
    + intros ? ?. done.
    + intros e' d' [= <- <- <-]. split; [done|]. split; [done|].
      intros Hnp. by rewrite (bool_decide_eq_false_2 _ Hnp).
  - destruct (formatZodError issues) as [f|]; [|done]. simplify_eq. cbn.
    rewrite andb_false_r.
    split; [by apply Hstack|]. split; [|split]; try done.
    intros _ [?|[]]. done.
  - destruct (handlePrismaError code target) as [[pe op] lg] eqn:Hp.
    simplify_eq. cbn. split; [by apply Hstack|]. split; [|split]; try done.
    intros Hprod Hin. rewrite (bool_decide_eq_true_2 _ Hprod).
    destruct op; cbn; [|done].
    unfold handlePrismaError in Hp.
    repeat (destruct (String.eqb code _); [by simplify_eq; destruct Hin as [?|[]]|]).
    by simplify_eq.
  - simplify_eq. cbn. rewrite andb_false_r.
    split; [by apply Hstack|]. split; [|split]; try done.
    intros _ [?|[]]. done.
  - simplify_eq. cbn. rewrite andb_false_r.
    split; [by apply Hstack|]. split; [|split]; try done.
    intros _ [?|[]]. done.
  - simplify_eq. cbn. rewrite andb_true_r.
    split; [by apply Hstack|]. split; [|split]; try done.
    + intros Hprod _. by rewrite (bool_decide_eq_true_2 _ Hprod).
    + intros ? _.
      destruct (bool_decide (node_env = Some "production")); repeat split; done.
Qed.

(** A non-operational error in production. *)
Lemma errorHandler_hides_only_in_production_witness :
  res_message (mkErrorResponse 500 "X" unexpected None false) = unexpected.
Proof.
  pose proof (errorHandler_hides_only_in_production (Some "production")
                (ThrownApp (mkAppError "boom" 500 "X") false None)
                (mkErrorResponse 500 "X" unexpected None false)
                [SecurityLog "error" "Non-operational error"]) as H.
  feed 1 H. destruct H as (_ & H & _).
  apply H; [reflexivity | by left].
Defined.

(** ** Validation errors *)

Lemma formatZodError_from_None acc issues :
  formatZodError_from acc issues = None <->
  Exists (fun i => inherited (join "." (issue_path i)) = true) issues.
Proof.
  revert acc. induction issues as [|i rest IH]; intros acc;
    cbn [formatZodError_from].
  - split; [done|]. by intros H%Exists_nil.
  - unfold push_issue. rewrite Exists_cons.
    destruct (inherited (join "." (issue_path i))) eqn:Hi.
    + split; [by left|done].
    + rewrite IH. split; [by right|]. intros [?|?]; [congruence|done].
Qed.

Lemma messages_at_cons path i rest :
  messages_at path (i :: rest) =
  if String.eqb (join "." (issue_path i)) path
  then issue_message i :: messages_at path rest
  else messages_at path rest.
Proof.
  unfold messages_at. cbn [List.filter].
  by destruct (String.eqb (join "." (issue_path i)) path).
Qed.

Lemma formatZodError_from_lookup issues :
  forall acc formatted,
    formatZodError_from acc issues = Some formatted ->
    forall path,
      formatted !! path =
      match messages_at path issues with
      | [] => acc !! path
      | ms => Some (default [] (acc !! path) ++ ms)%list
      end.
Proof.
  induction issues as [|i rest IH]; intros acc formatted Hrun path.
  - cbn in Hrun. by simplify_eq.
  - cbn [formatZodError_from] in Hrun. unfold push_issue in Hrun.
    destruct (inherited (join "." (issue_path i))); [done|].
    rewrite (IH _ _ Hrun path), messages_at_cons.
    destruct (String.eqb_spec (join "." (issue_path i)) path) as [->|Hne].
    + rewrite lookup_insert_eq. cbn [default].
      destruct (messages_at path rest) as [|m ms]; [done|].
      unfold id. by rewrite <- app_assoc.
    + by rewrite lookup_insert_ne.
Qed.

(** X20.  [formatZodError] groups the messages by path.  When it returns,
    every path that occurs in the issues is a key of the result, its value
    is the list of the messages of exactly the issues at that path, in the
    order of the issues, and there is no other key.  It does not return
    when the dotted path of some issue is the name of a member of
    [Object.prototype] (such as [constructor] or [toString]): calling
    [push] on the inherited member raises a [TypeError]. *)
Theorem formatZodError_groups_by_path issues :
  (formatZodError issues = None <->
   Exists (fun i => inherited (join "." (issue_path i)) = true) issues)
  /\ (forall formatted,
         formatZodError issues = Some formatted ->
         forall path,
           formatted !! path =
           match messages_at path issues with
           | [] => None
           | ms => Some ms
           end).
Proof.
  split; [apply formatZodError_from_None|].
  intros formatted Hrun path.
  rewrite (formatZodError_from_lookup issues ∅ formatted Hrun path).
  rewrite lookup_empty. by destruct (messages_at path issues).
Qed.

(** Two issues at one path, one at another. *)
Lemma formatZodError_groups_by_path_witness :
  exists formatted,
    formatZodError [mkIssue ["body"; "email"] "Invalid email";
                    mkIssue ["body"; "password"] "Too short";
                    mkIssue ["body"; "email"] "Required"]
    = Some formatted
    /\ formatted !! "body.email" = Some ["Invalid email"; "Required"].
Proof.
  pose proof (formatZodError_groups_by_path
                [mkIssue ["body"; "email"] "Invalid email";
                 mkIssue ["body"; "password"] "Too short";
                 mkIssue ["body"; "email"] "Required"]) as [_ H].
  destruct (formatZodError _) as [formatted|] eqn:Hf.
  - exists formatted. split; [reflexivity|].
    exact (H formatted eq_refl "body.email").
  - vm_compute in Hf. discriminate.
Defined.




(** ** Changing the password *)

(** A handler that only looks a row up by id sees no difference when
    another column of the rows changes. *)
Lemma authenticate_ignores_columns cfg env req r d d' :
  (forall id,
      (fun u => (u_id u, u_email u, u_role u, u_isActive u, u_lockedUntil u))
        <$> findUniqueById id d'
      = (fun u => (u_id u, u_email u, u_role u, u_isActive u, u_lockedUntil u))
          <$> findUniqueById id d) ->
  outcome (middleware (authenticate cfg env req) (mkWorld r d'))
  = outcome (middleware (authenticate cfg env req) (mkWorld r d))
  /\ reply_ctx (middleware (authenticate cfg env req) (mkWorld r d'))
     = reply_ctx (middleware (authenticate cfg env req) (mkWorld r d)).
Proof.
  intros Hsame.
  unfold middleware, authenticate, verifyAccessToken, isSessionBlacklisted,
    fresh_ctx.
  destruct (token_present (presented_token req)); run_m; [|done].
  destruct (jwt_verify _ _ _ _ _) as [p| |msg]; run_m; [|done|done].
  destruct (redisUp env); run_m; [|done].
  destruct (redis_get (now env) r (blacklist_key (p_sessionId p))); run_m;
    [done|].
  destruct (dbUp env); run_m; [|done].
  specialize (Hsame (p_userId p)).
  destruct (findUniqueById (p_userId p) d') as [u'|],
           (findUniqueById (p_userId p) d) as [u|]; cbn in Hsame;
    try done.
  injection Hsame as Hid Hem Hro Hac Hlk. run_m.
  unfold is_locked. rewrite Hac, Hlk.
  destruct (u_isActive u); run_m; [|done].
  destruct (match u_lockedUntil u with Some t => now env <? t | None => false end);
    run_m; [done|].
  by rewrite Hid, Hem, Hro.
Qed.

Lemma refreshToken_ignores_columns cfg env req r d d' :
  (forall id,
      (fun u => (u_id u, u_email u, u_role u, u_isActive u))
        <$> findUniqueById id d'
      = (fun u => (u_id u, u_email u, u_role u, u_isActive u))
          <$> findUniqueById id d) ->
  outcome (asyncHandler (refreshToken cfg env req) (mkWorld r d'))
  = outcome (asyncHandler (refreshToken cfg env req) (mkWorld r d))
  /\ reply_ctx (asyncHandler (refreshToken cfg env req) (mkWorld r d'))
     = reply_ctx (asyncHandler (refreshToken cfg env req) (mkWorld r d))
  /\ redis (after (asyncHandler (refreshToken cfg env req) (mkWorld r d')))
     = redis (after (asyncHandler (refreshToken cfg env req) (mkWorld r d))).
Proof.
  intros Hsame.
  unfold asyncHandler, refreshToken, verifyRefreshToken, fresh_ctx.
  destruct (token_present (cookie_refresh req)); run_m; [|done].
  destruct (jwt_verify _ _ _ _ _) as [p| |msg]; run_m; [|done|done].
  destruct (redisUp env) eqn:Hr; run_m; [|done].
  destruct (value_truthy _); run_m; [|done].
  destruct (dbUp env); run_m; [|done].
  specialize (Hsame (p_userId p)).
  destruct (findUniqueById (p_userId p) d') as [u'|],
           (findUniqueById (p_userId p) d) as [u|]; cbn in Hsame;
    try done.
  injection Hsame as Hid Hem Hro Hac. run_m. rewrite Hac.
  destruct (u_isActive u); run_m; [|done].
  rewrite ?Hr. run_m. by rewrite Hid, Hem, Hro.
Qed.

Lemma changePassword_run bc env uid cur hashed w u :
  dbUp env = true ->
  findUniqueById uid (db w) = Some u ->
  asyncHandler (changePassword bc env uid cur hashed) w =
  if bc cur (u_passwordHash u)
  then mkReply (Responded (BodyMessage "Password changed successfully"))
               (mkCtx [] None
                  [EvBcryptCompare cur (u_passwordHash u);
                   EvAudit "user.password_changed" uid])
               (mkWorld (redis w)
                        (update_rows uid (set_passwordHash hashed) (db w)))
  else mkReply (NextError (EApp (mkAppError "Current password is incorrect"
                                            400 "BAD_REQUEST")))
               (mkCtx [] None [EvBcryptCompare cur (u_passwordHash u)])
               w.
Proof.
  intros Hd Hu. unfold asyncHandler, changePassword, fresh_ctx.
  destruct w as [r d]. cbn [db redis] in *. run_m. rewrite Hd. run_m.
  rewrite Hu. run_m.
  destruct (bc cur (u_passwordHash u)); run_m; [|done].
  rewrite ?Hd. run_m. rewrite ?Hu. by run_m.
Qed.

(** X22.  Changing the password ends no session.  When the current
    password is right, the handler of [PUT /users/password] replaces the
    hash in the account's row and nothing else: every other column of
    every row and the whole of Redis stay as they were.  So every access
    token is judged by [authenticate] exactly as before, and every refresh
    token is rotated by [refreshToken] exactly as before, also those of
    other devices.  When the current password is wrong the answer is
    status 400 and neither store changes: the attempt is not counted
    towards the lockout. *)
Theorem change_password_keeps_sessions bc env uid cur hashed w u :
  dbUp env = true ->
  findUniqueById uid (db w) = Some u ->
  let rp := asyncHandler (changePassword bc env uid cur hashed) w in
  (bc cur (u_passwordHash u) = true ->
   outcome rp = Responded (BodyMessage "Password changed successfully")
   /\ redis (after rp) = redis w
   /\ db (after rp) = update_rows uid (set_passwordHash hashed) (db w)
   /\ findUniqueById uid (db (after rp)) = Some (set_passwordHash hashed u)
   /\ (forall cfg envA reqA,
          outcome (middleware (authenticate cfg envA reqA) (after rp))
          = outcome (middleware (authenticate cfg envA reqA) w)
          /\ reply_ctx (middleware (authenticate cfg envA reqA) (after rp))
             = reply_ctx (middleware (authenticate cfg envA reqA) w))
   /\ (forall cfg envR reqR,
          outcome (asyncHandler (refreshToken cfg envR reqR) (after rp))
          = outcome (asyncHandler (refreshToken cfg envR reqR) w)
          /\ reply_ctx (asyncHandler (refreshToken cfg envR reqR) (after rp))
             = reply_ctx (asyncHandler (refreshToken cfg envR reqR) w)))
  /\ (bc cur (u_passwordHash u) = false ->
      outcome rp = NextError (EApp (mkAppError "Current password is incorrect"
                                               400 "BAD_REQUEST"))
      /\ after rp = w).
Proof.
  intros Hd Hu. cbv zeta.
  rewrite (changePassword_run bc env uid cur hashed w u Hd Hu).
  split; intros Hbc; rewrite Hbc; [|done].
  cbn [outcome after redis db].
  assert (Hfind : forall id,
             findUniqueById id (update_rows uid (set_passwordHash hashed) (db w))
             = (fun x => if String.eqb (u_id x) uid
                         then set_passwordHash hashed x else x)
                 <$> findUniqueById id (db w)).
  { intros id. by apply find_id_update. }
  split; [done|]. split; [done|]. split; [done|]. split; [|split].
  - rewrite Hfind, Hu. cbn.
    by rewrite (find_id_Some_id _ _ _ Hu), String.eqb_refl.
  - intros cfg envA reqA. destruct w as [r d]. cbn [redis db] in *.
    apply authenticate_ignores_columns. intros id. rewrite Hfind.
    destruct (findUniqueById id d) as [x|]; [|done]. cbn.
    by destruct (String.eqb (u_id x) uid).
  - intros cfg envR reqR. destruct w as [r d]. cbn [redis db] in *.
    destruct (refreshToken_ignores_columns cfg envR reqR r
                (update_rows uid (set_passwordHash hashed) d) d) as (?&?&?);
      [|done].
    intros id. rewrite Hfind.
    destruct (findUniqueById id d) as [x|]; [|done]. cbn.
    by destruct (String.eqb (u_id x) uid).
Qed.

(** Alice changes her password while logged in. *)
Lemma change_password_keeps_sessions_witness :
  redis (after (asyncHandler
                  (changePassword sample_bcrypt (sample_env 2000 "x")
                                  "u-alice" "correct horse" "bcrypt:new")
                  w_logged_in))
  = redis w_logged_in.
Proof.
  pose proof (change_password_keeps_sessions sample_bcrypt
                (sample_env 2000 "x") "u-alice" "correct horse" "bcrypt:new"
                w_logged_in (set_lastLogin 1000 alice)) as H.
  feed 2 H. cbv zeta in H. destruct H as (H & _).
  specialize (H ltac:(crunch)). destruct H as (_ & H & _). exact H.
Defined.

(** X23.  After a change of password the new password logs in and the
    old one does not.  Let the change succeed for account [u], and let
    bcrypt accept the new password against the stored hash and reject the
    old one.  A later [login] for the account's e-mail that the rate
    limiter lets through, while the account is active and not locked,
    succeeds with the new password and sets both cookies, and fails with
    [INVALID_CREDENTIALS] with the old one. *)
Theorem changed_password_logs_in
    bc cfg env cur new hashed w u envL reqNew reqOld :
  dbUp env = true ->
  findUniqueById (u_id u) (db w) = Some u ->
  bc cur (u_passwordHash u) = true ->
  bc new hashed = true ->
  bc cur hashed = false ->
  findUniqueByEmail (u_email u) (db w) = Some u ->
  body_email reqNew = u_email u -> body_password reqNew = new ->
  body_email reqOld = u_email u -> body_password reqOld = cur ->
  u_isActive u = true ->
  is_locked (now envL) u = false ->
  dbUp envL = true ->
  let w' := after (asyncHandler (changePassword bc env (u_id u) cur hashed) w) in
  (passes_rate_limit envL reqNew w' = true ->
   outcome (asyncHandler (login bc cfg envL reqNew) w')
   = Responded (BodyLogin "Login successful" (u_id u) (u_email u)
                          (u_firstName u) (u_lastName u) (u_role u)
                          (u_emailVerified u)))
  /\ (passes_rate_limit envL reqOld w' = true ->
      outcome (asyncHandler (login bc cfg envL reqOld) w')
      = NextError (EApp genericError)).
Proof.
  intros Hd Hid Hcur Hnew Hold Hem HeN HpN HeO HpO Hact Hlk HdL. cbv zeta.
  rewrite (changePassword_run bc env (u_id u) cur hashed w u Hd Hid), Hcur.
  cbn [after].
  set (w' := mkWorld (redis w)
               (update_rows (u_id u) (set_passwordHash hashed) (db w))).
  assert (Hrow : forall req, body_email req = u_email u ->
             findUniqueByEmail (body_email req) (db w')
             = Some (set_passwordHash hashed u)).
  { intros req ->. cbn [w' db]. by apply find_email_update. }
  split; intros Hp.
  - rewrite (login_success bc cfg envL reqNew w' Hp HdL
               (set_passwordHash hashed u) (Hrow _ HeN)); [done|done|done|].
    cbn [set_passwordHash u_passwordHash]. by rewrite HpN.
  - rewrite (login_wrong_password bc cfg envL reqOld w' Hp HdL
               (set_passwordHash hashed u) (Hrow _ HeO)); [done|done|done|].
    cbn [set_passwordHash u_passwordHash]. by rewrite HpO.
Qed.

(** Alice logs in with her new password. *)
Lemma changed_password_logs_in_witness :
  let w' := after (asyncHandler
                     (changePassword sample_bcrypt (sample_env 2000 "x")
                                     "u-alice" "correct horse" "bcrypt:new")
                     sample_world) in
  outcome (asyncHandler
             (login sample_bcrypt sample_cfg (sample_env 3000 "s3")
                    (sample_login "10.0.0.1" "new"))
             w')
  = Responded (BodyLogin "Login successful" "u-alice" "alice@example.com"
                         "Alice" "Liddell" "CUSTOMER" true).
Proof.
  intros w'.
  pose proof (changed_password_logs_in sample_bcrypt sample_cfg
                (sample_env 2000 "x") "correct horse" "new" "bcrypt:new"
                sample_world alice (sample_env 3000 "s3")
                (sample_login "10.0.0.1" "new")
                (sample_login "10.0.0.1" "correct horse")) as H.
  feed 13 H. cbv zeta in H. destruct H as (H & _). apply H. crunch.
Defined.

(** ** Redaction in the logs *)

Lemma Json_induction (P : Json -> Prop) :
  P JNull -> P JUndefined -> (forall b, P (JBool b)) ->
  (forall n, P (JNumber n)) -> (forall s, P (JString s)) ->
  (forall items, Forall P items -> P (JArray items)) ->
  (forall entries, Forall (fun e => P (snd e)) entries -> P (JObject entries)) ->
  forall obj, P obj.
Proof.
  intros Hnull Hundef Hbool Hnum Hstr Harr Hobj.
  fix IH 1. intros [ | |b|n|s|items|entries].
  - exact Hnull.
  - exact Hundef.
  - apply Hbool.
  - apply Hnum.
  - apply Hstr.
  - apply Harr. induction items as [|x items IHl]; constructor;
      [apply IH | exact IHl].
  - apply Hobj. induction entries as [|[k v] entries IHl]; constructor;
      [apply IH | exact IHl].
Qed.

(** X24.  [redactSensitive] leaves no sensitive entry readable and is
    idempotent.  Whatever value is logged, after redaction there is no
    entry, at any depth of nested objects and arrays, whose key contains
    one of the sensitive field names (case-insensitively) and whose value
    is anything but the placeholder ['[REDACTED]']; a result has no entry
    under the key [__proto__]; and redacting a second time changes
    nothing.  This holds for every implementation of [toLowerCase]. *)
Theorem redactSensitive_hides_sensitive_entries toLowerCase obj :
  exposes toLowerCase (redactSensitive toLowerCase obj) = false
  /\ redactSensitive toLowerCase (redactSensitive toLowerCase obj)
     = redactSensitive toLowerCase obj
  /\ (forall entries,
         redactSensitive toLowerCase obj = JObject entries ->
         Forall (fun entry => fst entry ≠ "__proto__") entries).
Proof.
  split; [|split].
  - induction obj as [ | |b|n|s|items IH|entries IH] using Json_induction;
      try done.
    + cbn [redactSensitive exposes].
      induction IH as [|x items Hx _ IHl]; [done|].
      cbn [List.map existsb]. by rewrite Hx, IHl.
    + cbn [redactSensitive exposes].
      induction IH as [|[k v] entries Hv _ IHl]; [done|].
      cbn [List.map List.filter]. cbn [snd] in Hv.
      match goal with
      | |- context [assigned ?e] => destruct (assigned e) eqn:Has
      end; [|exact IHl].
      cbn [existsb]. rewrite IHl, orb_false_r.
      destruct (sensitive toLowerCase k) eqn:Hk; [by rewrite Hk|].
      destruct (typeof_object v) eqn:Ht; rewrite Hk; [exact Hv|].
      by destruct v.
  - induction obj as [ | |b|n|s|items IH|entries IH] using Json_induction;
      try done.
    + cbn [redactSensitive]. f_equal.
      induction IH as [|x items Hx _ IHl]; [done|].
      cbn [List.map]. by rewrite Hx, IHl.
    + cbn [redactSensitive]. f_equal.
      induction IH as [|[k v] entries Hv _ IHl]; [done|].
      cbn [List.map List.filter]. cbn [snd] in Hv.
      match goal with
      | |- context [assigned ?e] => destruct (assigned e) eqn:Has
      end; [|exact IHl].
      cbn [List.map List.filter].
      destruct (sensitive toLowerCase k) eqn:Hk.
      * rewrite Hk. cbn [List.filter]. rewrite Has. by rewrite IHl.
      * destruct (typeof_object v) eqn:Ht.
        -- rewrite Hk.
           assert (Ht' : typeof_object (redactSensitive toLowerCase v) = true)
             by (by destruct v).
           rewrite Ht', Hv. cbn [List.filter]. rewrite Has. by rewrite IHl.
        -- rewrite Hk, Ht. cbn [List.filter]. rewrite Has. by rewrite IHl.
  - intros entries Heq. destruct obj; try done. cbn [redactSensitive] in Heq.
    injection Heq as <-. apply Forall_forall. intros e Hin.
    apply list_elem_of_In, filter_In in Hin as [_ Has].
    unfold assigned in Has. intros Heq. by rewrite Heq in Has.
Qed.

(** A password inside a nested object, beside an own [__proto__] key. *)
Lemma redactSensitive_hides_sensitive_entries_witness :
  redactSensitive lower
    (JObject [("__proto__", JObject [("isAdmin", JBool true)]);
              ("user", JObject [("email", JString "alice@example.com");
                                ("newPassword", JString "hunter2")])])
  = JObject [("user", JObject [("email", JString "alice@example.com");
                               ("newPassword", JString "[REDACTED]")])]
  /\ exposes lower
       (redactSensitive lower
          (JObject [("__proto__", JObject [("isAdmin", JBool true)]);
                    ("user", JObject [("email", JString "alice@example.com");
                                      ("newPassword", JString "hunter2")])]))
     = false.
Proof.
  pose proof (redactSensitive_hides_sensitive_entries lower
                (JObject [("__proto__", JObject [("isAdmin", JBool true)]);
                          ("user",
                           JObject [("email", JString "alice@example.com");
                                    ("newPassword", JString "hunter2")])]))
    as [H _].
  split; [crunch | exact H].
Defined.

(** ** Concurrent refreshes *)

(** The cut is [refreshToken]. *)
Lemma refresh_cut cfg env req s :
  refreshToken cfg env req s
  = (let! payload := refresh_enter cfg env req in
     refresh_finish cfg env req payload) s.
Proof.
  unfold refreshToken, refresh_enter, refresh_finish, verifyRefreshToken.
  destruct (token_present (cookie_refresh req)); run_m; [|done].
  destruct (jwt_verify _ _ _ _ _) as [p| |msg]; run_m; [|done|done].
  destruct (redisUp env) eqn:Hr; run_m; [|done].
  destruct (value_truthy _); run_m; done.
Qed.

Lemma refresh_enter_run cfg env req w c rt p :
  cookie_refresh req = Some rt ->
  jwt_verify rt (refreshSecret cfg) issuer audience (now env) = JwtOk p ->
  redisUp env = true ->
  value_truthy (redis_get (now env) (redis w) (session_key (p_sessionId p)))
    = true ->
  refresh_enter cfg env req (mkSt w c) = (inr p, mkSt w c).
Proof.
  intros Hc Hv Hr Hs. unfold refresh_enter, verifyRefreshToken.
  rewrite Hc, (verify_present _ _ _ _ _ _ Hv). cbn [token_value].
  rewrite Hv. run_m. rewrite Hr. run_m. by rewrite Hs.
Qed.

Lemma refresh_finish_run cfg env req p w c u :
  redisUp env = true -> dbUp env = true ->
  findUniqueById (p_userId p) (db w) = Some u ->
  u_isActive u = true ->
  refresh_finish cfg env req p (mkSt w c) =
  (inr (BodyMessage "Token refreshed successfully"),
   mkSt (mkWorld
           (redis_setex (now env) (session_key (uuid env)) (7 * 24 * 60 * 60)
              (VJson (mkSession (u_id u) (now env) (default "" (req_ip req))
                                (req_userAgent req)))
              (redis_del (session_key (p_sessionId p)) (redis w)))
           (db w))
        (mkCtx ((cookies c ++
                   [SetCookie "access_token"
                      (generateAccessToken cfg (u_id u) (u_email u) (u_role u)
                                           (uuid env) (now env))]) ++
                [SetCookie "refresh_token"
                   (generateRefreshToken cfg (u_id u) (u_email u) (u_role u)
                                         (uuid env) (now env))])%list
               (user c)
               (effects c ++ [EvAudit "auth.token_refresh" (u_id u)])%list)).
Proof.
  intros Hr Hd Hu Ha. unfold refresh_finish. run_m. rewrite Hd. run_m.
  rewrite Hu. run_m. rewrite Ha. run_m. rewrite Hr. by run_m.
Qed.

(** X25.  Two concurrent refreshes with one token both succeed.  Cut
    [refreshToken] at the [await] after its read of the session (the cut
    composes to [refreshToken] itself).  When two requests present the same
    valid refresh token and both have read the session before either
    deletes it, both are answered "Token refreshed successfully", each with
    its own new pair of tokens, and afterwards the registry holds two live
    sessions created from the one token, while the old session is gone.
    Rotation is single-use only for requests that run one after the
    other. *)
Theorem concurrent_refreshes_both_succeed
    cfg w envA envB reqA reqB rt p u :
  cookie_refresh reqA = Some rt -> cookie_refresh reqB = Some rt ->
  jwt_verify rt (refreshSecret cfg) issuer audience (now envA) = JwtOk p ->
  jwt_verify rt (refreshSecret cfg) issuer audience (now envB) = JwtOk p ->
  value_truthy (redis_get (now envA) (redis w) (session_key (p_sessionId p)))
    = true ->
  value_truthy (redis_get (now envB) (redis w) (session_key (p_sessionId p)))
    = true ->
  findUniqueById (p_userId p) (db w) = Some u ->
  u_isActive u = true ->
  redisUp envA = true -> dbUp envA = true ->
  redisUp envB = true -> dbUp envB = true ->
  uuid envA ≠ uuid envB ->
  uuid envA ≠ p_sessionId p -> uuid envB ≠ p_sessionId p ->
  (forall s,
      refreshToken cfg envA reqA s
      = (let! payload := refresh_enter cfg envA reqA in
         refresh_finish cfg envA reqA payload) s)
  /\ exists w',
       refreshes_interleaved cfg envA reqA envB reqB w
       = (inr (BodyMessage "Token refreshed successfully"),
          inr (BodyMessage "Token refreshed successfully"), w')
       /\ redis w' !! session_key (uuid envA)
          = Some (mkEntry (VJson (mkSession (u_id u) (now envA)
                                            (default "" (req_ip reqA))
                                            (req_userAgent reqA)))
                          (Some (now envA + 7 * 24 * 60 * 60 * 1000)))
       /\ redis w' !! session_key (uuid envB)
          = Some (mkEntry (VJson (mkSession (u_id u) (now envB)
                                            (default "" (req_ip reqB))
                                            (req_userAgent reqB)))
                          (Some (now envB + 7 * 24 * 60 * 60 * 1000)))
       /\ redis w' !! session_key (p_sessionId p) = None
       /\ db w' = db w.
Proof.
  intros HcA HcB HvA HvB HsA HsB Hu Ha HrA HdA HrB HdB Hab HaO HbO.
  split; [intros s; apply refresh_cut|].
  unfold refreshes_interleaved.
  rewrite (refresh_enter_run cfg envA reqA w fresh_ctx rt p HcA HvA HrA HsA).
  cbn [world ctx].
  rewrite (refresh_enter_run cfg envB reqB w fresh_ctx rt p HcB HvB HrB HsB).
  cbn [world ctx].
  rewrite (refresh_finish_run cfg envA reqA p w fresh_ctx u HrA HdA Hu Ha).
  cbn [world ctx].
  match goal with
  | |- context [refresh_finish cfg envB reqB p (mkSt ?wA _)] =>
      rewrite (refresh_finish_run cfg envB reqB p wA fresh_ctx u HrB HdB Hu Ha)
  end.
  cbn [world ctx redis db].
  eexists. split; [reflexivity|]. cbn [redis db].
  unfold redis_setex, redis_del.
  assert (HkAB : session_key (uuid envB) ≠ session_key (uuid envA))
    by (intros H%session_key_inj; congruence).
  assert (HkAO : session_key (p_sessionId p) ≠ session_key (uuid envA))
    by (intros H%session_key_inj; congruence).
  assert (HkBO : session_key (uuid envB) ≠ session_key (p_sessionId p))
    by (intros H%session_key_inj; congruence).
  split; [|split; [|split; [|done]]].
  - by rewrite lookup_insert_ne, lookup_delete_ne, lookup_insert_eq.
  - by rewrite lookup_insert_eq.
  - by rewrite lookup_insert_ne, lookup_delete_eq.
Qed.

(** Alice's refresh token, presented twice at once. *)
Lemma concurrent_refreshes_both_succeed_witness :
  exists w',
    refreshes_interleaved sample_cfg (sample_env 2000 "s2") with_refresh_cookie
                          (sample_env 2000 "s3") with_refresh_cookie
                          w_logged_in
    = (inr (BodyMessage "Token refreshed successfully"),
       inr (BodyMessage "Token refreshed successfully"), w')
    /\ redis w' !! session_key "s1" = None.
Proof.
  pose proof (concurrent_refreshes_both_succeed sample_cfg w_logged_in
                (sample_env 2000 "s2") (sample_env 2000 "s3")
                with_refresh_cookie with_refresh_cookie rt1 payload1
                (set_lastLogin 1000 alice)) as H.
  feed 15 H. destruct H as (_ & w' & H1 & _ & _ & H4 & _).
  exists w'. split; [exact H1 | exact H4].
Defined.

(** ** [optionalAuth] beside [authenticate] *)

(** X26.  [optionalAuth] beside [authenticate], on one request and one
    state of the stores.  When the access cookie is present and
    [authenticate] accepts, [optionalAuth] attaches the same identity.
    When [optionalAuth] attaches an identity, [authenticate] either accepts
    or rejects with [ACCOUNT_LOCKED]: the lockout is the one check
    [optionalAuth] leaves out.  A request without an access cookie gets no
    identity from [optionalAuth], whatever its [Authorization] header.
    And [optionalAuth] issues no cookie operation when [authenticate]
    rejects with [TOKEN_EXPIRED] or [INVALID_TOKEN]: it clears the cookies
    only for a blacklisted session. *)
Theorem optionalAuth_beside_authenticate cfg env req w :
  let rpO := middleware (optionalAuth cfg env req) w in
  let rpA := middleware (authenticate cfg env req) w in
  (token_present (cookie_access req) = true ->
   outcome rpA = NextOk ->
   user (reply_ctx rpO) = user (reply_ctx rpA))
  /\ (user (reply_ctx rpO) ≠ None ->
      outcome rpA = NextOk \/ outcome rpA = NextError (EApp accountLockedNow))
  /\ (token_present (cookie_access req) = false ->
      user (reply_ctx rpO) = None /\ cookies (reply_ctx rpO) = [])
  /\ (outcome rpA = NextError (EApp tokenExpired)
      \/ outcome rpA = NextError (EApp invalidToken) ->
      cookies (reply_ctx rpO) = [])
  /\ (cookies (reply_ctx rpO) = clear_both ->
      token_present (cookie_access req) = true ->
      outcome rpA = NextError (EApp sessionExpired)).
Proof.
  cbv zeta.
  unfold middleware, optionalAuth, authenticate, verifyAccessToken,
    isSessionBlacklisted, fresh_ctx, presented_token.
  destruct w as [r d].
  destruct (token_present (cookie_access req)) eqn:Hc; cbn [negb].
  2:{ run_m. opt_table. }
  rewrite Hc. run_m.
  destruct (jwt_verify _ _ _ _ _) as [p| |msg]; run_m; [|opt_table|opt_table].
  destruct (redisUp env); run_m; [|opt_table].
  destruct (redis_get (now env) r (blacklist_key (p_sessionId p))); run_m;
    [opt_table|].
  destruct (dbUp env); run_m; [|opt_table].
  destruct (findUniqueById (p_userId p) d) as [u|]; run_m; [|opt_table].
  destruct (u_isActive u); run_m; [|opt_table].
  destruct (is_locked (now env) u); run_m; opt_table.
Qed.

(** Alice in a lockout: attached by the one, rejected by the other. *)
Lemma optionalAuth_beside_authenticate_witness :
  let w := mkWorld (redis w_logged_in) [alice_locked] in
  user (reply_ctx (middleware
                     (optionalAuth sample_cfg (sample_env 2000 "x")
                                   with_access_cookie) w))
  = Some (mkIdentity "u-alice" "alice@example.com" "CUSTOMER")
  /\ outcome (middleware
                (authenticate sample_cfg (sample_env 2000 "x")
                              with_access_cookie) w)
     = NextError (EApp accountLockedNow).
Proof.
  intros w.
  pose proof (optionalAuth_beside_authenticate sample_cfg (sample_env 2000 "x")
                with_access_cookie w) as H.
  cbv zeta in H. destruct H as (_ & H & _).
  split; [crunch|].
  destruct H as [H|H]; [crunch | | exact H].
  vm_compute in H. discriminate.
Defined.

(** ** CSRF tokens *)

Lemma csrf_key_ne_rate sid x : csrf_key sid ≠ "ratelimit:" +:+ x.
Proof. unfold csrf_key. simpl. discriminate. Qed.

Lemma csrf_key_ne_session sid sid' : csrf_key sid ≠ session_key sid'.
Proof. unfold csrf_key, session_key. simpl. discriminate. Qed.

Lemma csrf_key_ne_blacklist sid sid' : csrf_key sid ≠ blacklist_key sid'.
Proof. unfold csrf_key, blacklist_key. simpl. discriminate. Qed.

(** [logout] writes session and blacklist keys only. *)
Lemma logout_redis_frame cfg env req w k :
  (forall sid, k ≠ session_key sid) ->
  (forall sid, k ≠ blacklist_key sid) ->
  redis (after (asyncHandler (logout cfg env req) w)) !! k = redis w !! k.
Proof.
  intros Hk Hb. unfold asyncHandler, logout, verifyRefreshToken,
    blacklistSession, fresh_ctx.
  destruct w as [r d].
  destruct (token_present (cookie_refresh req)); run_m; [|done].
  destruct (jwt_verify _ _ _ _ _) as [p| |msg]; run_m; [|done|done].
  destruct (redisUp env) eqn:Hr; run_m; [|done].
  cbn [after redis]. unfold redis_setex, redis_del.
  rewrite lookup_delete_ne by (intros Heq; by destruct (Hk (p_sessionId p))).
  by rewrite lookup_insert_ne by (intros Heq; by destruct (Hb (p_sessionId p))).
Qed.

Lemma run_calls_csrf_frame bc cfg cs :
  forall w sid,
    redis (run_calls bc cfg cs w) !! csrf_key sid = redis w !! csrf_key sid.
Proof.
  unfold run_calls.
  induction cs as [|c cs IH]; intros w sid; cbn [foldl]; [done|].
  rewrite IH. destruct c as [env req|env req|env req]; cbn [call].
  - apply login_redis_frame.
    + apply csrf_key_ne_rate.
    + apply csrf_key_ne_session.
  - apply refresh_redis_frame. intros sid'. apply csrf_key_ne_session.
  - apply logout_redis_frame; intros sid'.
    + apply csrf_key_ne_session.
    + apply csrf_key_ne_blacklist.
Qed.

(** X27.  No CSRF token is ever issued.  [csrfProtection] lets a request
    with a method other than GET, HEAD and OPTIONS through only if Redis
    holds a live [csrf:<session_id>] entry equal to the request's
    [x-csrf-token] header.  [login], [refreshToken] and [logout] never
    write such a key.  So, starting from stores without [csrf:] entries
    and after any sequence of requests to these three endpoints, every
    state-changing request is rejected by [csrfProtection], with status
    403 and [CSRF_ERROR] whenever Redis answers, whatever header and
    cookie it carries; requests with one of the three safe methods pass
    without a look at the stores. *)
Theorem csrf_token_is_never_issued bc cfg stringify cs w env req :
  (forall sid, redis w !! csrf_key sid = None) ->
  let w' := run_calls bc cfg cs w in
  let rp := middleware (csrfProtection stringify env req) w' in
  after rp = w'
  /\ (existsb (String.eqb (csrf_method req)) ["GET"; "HEAD"; "OPTIONS"] = true ->
      rp = mkReply NextOk fresh_ctx w')
  /\ (existsb (String.eqb (csrf_method req)) ["GET"; "HEAD"; "OPTIONS"] = false ->
      outcome rp ≠ NextOk
      /\ (redisUp env = true ->
          outcome rp = NextError (EApp csrfMissing)
          \/ outcome rp = NextError (EApp csrfInvalid))).
Proof.
  intros Hnone. cbv zeta.
  pose proof (run_calls_csrf_frame bc cfg cs w) as Hfr.
  set (w' := run_calls bc cfg cs w) in *.
  unfold middleware, csrfProtection, fresh_ctx, csrfMissing, csrfInvalid.
  destruct (existsb _ _); run_m.
  { by destruct w'. }
  destruct (negb (text_present (csrf_header req))
            || negb (text_present (csrf_session_id req))) eqn:Hp; run_m.
  { split; [by destruct w'|]. split; [done|]. intros _. split; [done|].
    intros _. by left. }
  destruct (redisUp env); run_m.
  2:{ split; [by destruct w'|]. split; [done|]. intros _. by split. }
  unfold redis_get, rlive. change ("csrf:" +:+ default "" (csrf_session_id req))
    with (csrf_key (default "" (csrf_session_id req))).
  rewrite Hfr, Hnone. cbn [fmap option_fmap option_map text_present negb orb].
  run_m. split; [by destruct w'|]. split; [done|]. intros _. split; [done|].
  intros _. by right.
Qed.

(** A POST with a token, after a login and a logout. *)
Lemma csrf_token_is_never_issued_witness :
  outcome (middleware
             (csrfProtection (fun d => s_userId d) (sample_env 4000 "x")
                (mkCsrfRequest "POST" (Some "token") (Some "s1")))
             (run_calls sample_bcrypt sample_cfg
                [CallLogin (sample_env 1000 "s1")
                           (sample_login "10.0.0.1" "correct horse");
                 CallLogout (sample_env 2000 "x") with_refresh_cookie]
                sample_world))
  = NextError (EApp csrfInvalid).
Proof.
  pose proof (csrf_token_is_never_issued sample_bcrypt sample_cfg
                (fun d => s_userId d)
                [CallLogin (sample_env 1000 "s1")
                           (sample_login "10.0.0.1" "correct horse");
                 CallLogout (sample_env 2000 "x") with_refresh_cookie]
                sample_world (sample_env 4000 "x")
                (mkCsrfRequest "POST" (Some "token") (Some "s1"))) as H.
  specialize (H ltac:(intros sid; apply lookup_empty)).
  cbv zeta in H. destruct H as (_ & _ & H).
  specialize (H ltac:(crunch)). destruct H as (_ & H).
  specialize (H ltac:(crunch)). destruct H as [H|H]; [|exact H].
  vm_compute in H. discriminate.
Defined.

(** ** Masking *)

Lemma length_append a b :
  String.length (a +:+ b) = (String.length a + String.length b)%nat.
Proof.
  induction a as [|c a IH]; [reflexivity|].
  change (String c a +:+ b) with (String c (a +:+ b)).
  cbn [String.length]. by rewrite IH.
Qed.

Lemma length_substring s :
  forall n m, (n + m <= String.length s)%nat ->
              String.length (substring n m s) = m.
Proof.
  induction s as [|c s IH]; intros [|n] [|m] H; cbn in *; try lia.
  - by rewrite IH by lia.
  - apply IH. lia.
  - apply IH. lia.
Qed.

Lemma length_repeat_char c n :
  String.length (repeat_string (String c "") n) = n.
Proof.
  induction n as [|n IH]; [done|]. cbn [repeat_string].
  rewrite length_append. cbn [String.length]. by rewrite IH.
Qed.

Lemma substring_all s : substring 0 (String.length s) s = s.
Proof. induction s as [|c s IH]; [done|]. cbn. by rewrite IH. Qed.

(** X28.  What [maskSensitive] shows, for data within the engine's
    string limit.  Data no longer than [visibleStart + visibleEnd] is masked
    completely.  For longer data, with [visibleStart >= 0] and
    [visibleEnd > 0] and a one-character mask, the result has the length of
    the data and consists of its first [visibleStart] characters, mask
    characters, and its last [visibleEnd] characters.  But with
    [visibleEnd = 0] the result ends with the whole of the data, unmasked
    ([data.slice(-0)] is [data]), or, when twice the data exceeds the
    limit, the call throws.  It also throws whenever the mask that
    [visibleStart] and [visibleEnd] ask for exceeds the limit, as it does
    for a very negative [visibleStart]. *)
Theorem maskSensitive_shape string_limit data visibleStart visibleEnd :
  let len := Z.of_nat (String.length data) in
  len <= string_limit ->
  (forall maskChar,
      len <= visibleStart + visibleEnd ->
      Z.of_nat (String.length maskChar) * len <= string_limit ->
      maskSensitive string_limit data visibleStart visibleEnd maskChar
      = Some (repeat_string maskChar (String.length data)))
  /\ (forall c,
         0 <= visibleStart -> 0 < visibleEnd ->
         visibleStart + visibleEnd < len ->
         exists out,
           maskSensitive string_limit data visibleStart visibleEnd
                         (String c "") = Some out
           /\ out = (substring 0 (Z.to_nat visibleStart) data
                     +:+ repeat_string (String c "")
                           (Z.to_nat (len - visibleStart - visibleEnd)))
                    +:+ substring (Z.to_nat (len - visibleEnd))
                          (Z.to_nat visibleEnd) data
           /\ String.length out = String.length data)
  /\ (forall c,
         0 <= visibleStart -> visibleEnd = 0 -> visibleStart < len ->
         maskSensitive string_limit data visibleStart visibleEnd (String c "")
         = if string_limit <? 2 * len then None
           else Some ((substring 0 (Z.to_nat visibleStart) data
                       +:+ repeat_string (String c "")
                             (Z.to_nat (len - visibleStart)))
                      +:+ data))
  /\ (forall maskChar,
         visibleStart + visibleEnd < len ->
         string_limit
           < Z.of_nat (String.length maskChar) * (len - visibleStart - visibleEnd) ->
         maskSensitive string_limit data visibleStart visibleEnd maskChar
         = None).
Proof.
  cbv zeta. set (len := Z.of_nat (String.length data)). intros Hlim.
  assert (Hlen : 0 <= len) by (subst len; lia).
  split; [|split; [|split]].
  - intros maskChar Hshort Hfit. unfold maskSensitive, js_repeat. fold len.
    destruct (Z.leb_spec len (visibleStart + visibleEnd)); [|lia].
    destruct (Z.ltb_spec len 0); [lia|].
    destruct (Z.ltb_spec string_limit (Z.of_nat (String.length maskChar) * len));
      [lia|].
    subst len. by rewrite Nat2Z.id.
  - intros c Hs He Hlong.
    unfold maskSensitive, js_repeat, js_concat, js_slice. fold len.
    destruct (Z.leb_spec len (visibleStart + visibleEnd)); [lia|].
    destruct (Z.ltb_spec (len - visibleStart - visibleEnd) 0); [lia|].
    cbn [String.length].
    destruct (Z.ltb_spec string_limit
                (Z.of_nat 1 * (len - visibleStart - visibleEnd))); [lia|].
    destruct (Z.ltb_spec 0 0); [lia|].
    destruct (Z.ltb_spec visibleStart 0); [lia|].
    destruct (Z.ltb_spec (- visibleEnd) 0); [|lia].
    rewrite (Z.min_l 0 len), (Z.min_l visibleStart len) by lia.
    rewrite (Z.max_l (len + - visibleEnd) 0) by lia.
    replace (visibleStart - 0) with visibleStart by lia.
    replace (len - (len + - visibleEnd)) with visibleEnd by lia.
    replace (len + - visibleEnd) with (len - visibleEnd) by lia.
    change (Z.to_nat 0) with 0%nat.
    assert (Hl1 : String.length (substring 0 (Z.to_nat visibleStart) data)
                  = Z.to_nat visibleStart)
      by (apply length_substring; subst len; lia).
    assert (Hl3 : String.length (substring (Z.to_nat (len - visibleEnd))
                                           (Z.to_nat visibleEnd) data)
                  = Z.to_nat visibleEnd)
      by (apply length_substring; subst len; lia).
    rewrite Hl1, length_repeat_char.
    destruct (Z.ltb_spec string_limit
                (Z.of_nat (Z.to_nat visibleStart)
                 + Z.of_nat (Z.to_nat (len - visibleStart - visibleEnd))));
      [lia|].
    rewrite length_append, Hl1, length_repeat_char, Hl3.
    destruct (Z.ltb_spec string_limit
                (Z.of_nat (Z.to_nat visibleStart
                           + Z.to_nat (len - visibleStart - visibleEnd))
                 + Z.of_nat (Z.to_nat visibleEnd))); [lia|].
    eexists. split; [reflexivity|]. split; [reflexivity|].
    rewrite !length_append, Hl1, length_repeat_char, Hl3. subst len. lia.
  - intros c Hs -> Hlong.
    unfold maskSensitive, js_repeat, js_concat, js_slice. fold len.
    destruct (Z.leb_spec len (visibleStart + 0)); [lia|].
    destruct (Z.ltb_spec (len - visibleStart - 0) 0); [lia|].
    cbn [String.length].
    destruct (Z.ltb_spec string_limit (Z.of_nat 1 * (len - visibleStart - 0)));
      [lia|].
    destruct (Z.ltb_spec 0 0); [lia|].
    destruct (Z.ltb_spec visibleStart 0); [lia|].
    change (- 0) with 0.
    destruct (Z.ltb_spec 0 0); [lia|].
    rewrite (Z.min_l 0 len), (Z.min_l visibleStart len) by lia.
    replace (visibleStart - 0) with visibleStart by lia.
    replace (len - visibleStart - 0) with (len - visibleStart) by lia.
    replace (len - 0) with len by lia.
    change (Z.to_nat 0) with 0%nat.
    assert (Hl1 : String.length (substring 0 (Z.to_nat visibleStart) data)
                  = Z.to_nat visibleStart)
      by (apply length_substring; subst len; lia).
    rewrite Hl1, length_repeat_char.
    destruct (Z.ltb_spec string_limit
                (Z.of_nat (Z.to_nat visibleStart)
                 + Z.of_nat (Z.to_nat (len - visibleStart)))); [lia|].
    rewrite length_append, Hl1, length_repeat_char.
    assert (Hall : substring 0 (Z.to_nat len) data = data)
      by (subst len; rewrite Nat2Z.id; apply substring_all).
    rewrite Hall. fold len.
    replace (Z.of_nat (Z.to_nat visibleStart + Z.to_nat (len - visibleStart))
             + len) with (2 * len) by lia.
    reflexivity.
  - intros maskChar Hlong Hbig. unfold maskSensitive, js_repeat. fold len.
    destruct (Z.leb_spec len (visibleStart + visibleEnd)); [lia|].
    destruct (Z.ltb_spec (len - visibleStart - visibleEnd) 0); [done|].
    by destruct (Z.ltb_spec string_limit
                   (Z.of_nat (String.length maskChar)
                    * (len - visibleStart - visibleEnd))); [|lia].
Qed.

(** A card number with the defaults, with nothing visible at the end, and
    with a start far below zero, under V8's limit. *)
Lemma maskSensitive_shape_witness :
  maskSensitive 536870888 "4111111111111234" 0 4 "*"
  = Some "************1234"
  /\ maskSensitive 536870888 "4111111111111234" 2 0 "*"
     = Some "41**************4111111111111234"
  /\ maskSensitive 536870888 "4111111111111234" (- 1099511627776) 0 "*"
     = None.
Proof.
  pose proof (maskSensitive_shape 536870888 "4111111111111234" 0 4
                ltac:(crunch)) as H4.
  pose proof (maskSensitive_shape 536870888 "4111111111111234" 2 0
                ltac:(crunch)) as H0.
  pose proof (maskSensitive_shape 536870888 "4111111111111234"
                (- 1099511627776) 0 ltac:(crunch)) as Hn.
  destruct H4 as (_ & H4 & _). destruct H0 as (_ & _ & H0 & _).
  destruct Hn as (_ & _ & _ & Hn).
  specialize (H4 "*"%char ltac:(crunch) ltac:(crunch) ltac:(crunch)).
  destruct H4 as (out & H4 & -> & _).
  specialize (H0 "*"%char ltac:(crunch) ltac:(crunch) ltac:(crunch)).
  specialize (Hn "*" ltac:(crunch) ltac:(crunch)).
  split; [exact H4 | split; [exact H0 | exact Hn]].
Defined.

(** ** Resetting the password *)

Lemma find_reset_run bc token users :
  forall w c,
    find_reset bc token users (mkSt w c)
    = (inr (List.find (fun x => bc token (rr_passwordResetToken x)) users),
       mkSt w (mkCtx (cookies c) (user c)
                     (effects c ++ reset_compares bc token users)%list)).
Proof.
  induction users as [|x rest IH]; intros w c; cbn [find_reset reset_compares
    List.find].
  - run_m. rewrite app_nil_r. by destruct c.
  - run_m. destruct (bc token (rr_passwordResetToken x)); [done|].
    rewrite IH. cbn [cookies user effects]. by rewrite <- app_assoc.
Qed.

Lemma redis_get_delete_Some now (r : gmap string rentry) k k' v :
  redis_get now (delete k r) k' = Some v -> redis_get now r k' = Some v.
Proof.
  unfold redis_get, rlive. destruct (decide (k = k')) as [->|Hne].
  - by rewrite lookup_delete_eq.
  - by rewrite lookup_delete_ne.
Qed.

Lemma sweep_run parsed env uid keys :
  redisUp env = true ->
  forall r d c,
    (forall k v, k ∈ keys -> redis_get (now env) r k = Some v ->
                 exists s, v = VJson s) ->
    sweep parsed env uid keys (mkSt (mkWorld r d) c)
    = (inr tt, mkSt (mkWorld (swept (now env) uid keys r) d) c).
Proof.
  intros Hup. induction keys as [|k rest IH]; intros r d c Hwf;
    cbn [sweep swept foldl]; [done|].
  fold (swept (now env) uid rest
          (if doomed (now env) uid r k then delete k r else r)).
  unfold sweep_step, doomed. run_m. rewrite Hup. run_m.
  destruct (redis_get (now env) r k) as [v|] eqn:Hg; cbn [value_truthy negb].
  - destruct (Hwf k v) as [s ->]; [by left|done|].
    cbn [value_truthy negb]. run_m.
    destruct (String.eqb_spec (s_userId s) uid) as [->|Hne].
    + rewrite bool_decide_eq_true_2 by done. rewrite ?Hup. run_m.
      apply IH. intros k' v' Hin Hg'. apply (Hwf k' v'); [by right|].
      by apply redis_get_delete_Some in Hg'.
    + rewrite bool_decide_eq_false_2 by (intros [= ?]; done). run_m.
      apply IH. intros k' v' Hin. apply Hwf. by right.
  - run_m. apply IH. intros k' v' Hin. apply Hwf. by right.
Qed.

Lemma doomed_delete_ne now uid (r : gmap string rentry) k k' :
  k ≠ k' -> doomed now uid (delete k r) k' = doomed now uid r k'.
Proof.
  intros Hne. unfold doomed, redis_get. by rewrite rlive_delete_ne.
Qed.

Lemma swept_lookup now uid keys :
  forall r k',
    swept now uid keys r !! k'
    = if bool_decide (k' ∈ keys) && doomed now uid r k' then None else r !! k'.
Proof.
  unfold swept.
  induction keys as [|k rest IH]; intros r k'; cbn [foldl]; [done|].
  rewrite IH. destruct (decide (k' = k)) as [->|Hne].
  - rewrite (bool_decide_eq_true_2 (k ∈ k :: rest)) by (by left).
    cbn [andb]. destruct (doomed now uid r k) eqn:Hd.
    + rewrite lookup_delete_eq. by destruct (_ && _).
    + by rewrite Hd, andb_false_r.
  - assert (Hmem : bool_decide (k' ∈ k :: rest) = bool_decide (k' ∈ rest)).
    { apply bool_decide_ext. rewrite elem_of_cons.
      split; [by intros [?|?] | by right]. }
    rewrite Hmem. destruct (doomed now uid r k).
    + rewrite doomed_delete_ne by done. by rewrite lookup_delete_ne.
    + done.
Qed.

Lemma elem_of_redis_keys now prefix (r : gmap string rentry) k :
  k ∈ redis_keys now prefix r <->
  String.prefix prefix k = true /\ is_Some (rlive now r k).
Proof.
  unfold redis_keys, rlive. rewrite list_elem_of_fmap. split.
  - intros ([k0 e] & -> & Hin). apply list_elem_of_In, filter_In in Hin
      as [Hin Hok]. apply list_elem_of_In, elem_of_map_to_list in Hin.
    cbn [fst snd] in *. apply andb_true_iff in Hok as [Hp Hl].
    rewrite Hin, Hl. eauto.
  - intros [Hp [e He]]. destruct (r !! k) as [e'|] eqn:Hk; [|done].
    destruct (entry_live now e') eqn:Hl; [|done].
    exists (k, e'). split; [done|].
    apply list_elem_of_In, filter_In. split.
    + by apply list_elem_of_In, elem_of_map_to_list.
    + cbn [fst snd]. by rewrite Hp, Hl.
Qed.

Lemma doomed_live now uid (r : gmap string rentry) k :
  doomed now uid r k = true -> is_Some (rlive now r k).
Proof.
  unfold doomed, redis_get. destruct (rlive now r k); [eauto|done].
Qed.

Lemma resetPassword_run bc parsed env users token hashed w m u :
  dbUp env = true -> redisUp env = true ->
  List.find (fun x => bc token (rr_passwordResetToken x)) users = Some m ->
  findUniqueById (rr_id m) (db w) = Some u ->
  sessions_well_formed (now env) (redis w) ->
  asyncHandler (resetPassword bc parsed env users token hashed) w =
  mkReply
    (Responded
       (BodyMessage
          "Password reset successfully. Please log in with your new password."))
    (mkCtx [] None
       (reset_compares bc token users ++
          [EvAudit "auth.password_reset" (rr_id m)])%list)
    (mkWorld
       (swept (now env) (rr_id m) (redis_keys (now env) "session:" (redis w))
              (redis w))
       (update_rows (rr_id m) (reset_row hashed) (db w))).
Proof.
  intros Hd Hr Hfind Hu Hwf.
  unfold asyncHandler, resetPassword, fresh_ctx. destruct w as [r d].
  cbn [redis db] in *. run_m. rewrite Hd. run_m.
  rewrite find_reset_run, Hfind. cbn [world ctx db redis cookies user effects].
  rewrite Hu. run_m. rewrite Hr. run_m.
  rewrite (sweep_run parsed env (rr_id m) _ Hr).
  2:{ intros k v Hin. apply Hwf. by apply elem_of_redis_keys in Hin as [? _]. }
  by run_m.
Qed.

Lemma swept_sessions_lookup now uid (r : gmap string rentry) k :
  swept now uid (redis_keys now "session:" r) r !! k
  = if String.prefix "session:" k && doomed now uid r k
    then None else r !! k.
Proof.
  rewrite swept_lookup.
  destruct (doomed now uid r k) eqn:Hdoom; [|by rewrite !andb_false_r].
  rewrite !andb_true_r.
  destruct (String.prefix "session:" k) eqn:Hp.
  - rewrite bool_decide_eq_true_2; [done|].
    apply elem_of_redis_keys. split; [done|]. by apply doomed_live in Hdoom.
  - rewrite bool_decide_eq_false_2; [done|].
    intros [Hp' _]%elem_of_redis_keys. congruence.
Qed.

Lemma session_key_prefix sid : String.prefix "session:" (session_key sid) = true.
Proof. unfold session_key. induction sid; reflexivity. Qed.

(** X29.  What a password reset does to the stores.  Let the token match
    the reset hash of account [u] (the first row of the [findMany] result
    that bcrypt accepts), with both stores reachable and only session
    objects under the [session:] keys.  Then [resetPassword] succeeds; in
    the user table it replaces the account's password hash, sets its
    failed-login counter to zero and clears its lockout, and changes no
    other row; in Redis it deletes exactly the live [session:] entries
    whose [userId] is the account's id, so no session of the account
    remains in the registry, and leaves every other key, the blacklist
    among them, as it was. *)
Theorem password_reset_ends_registry_sessions
    bc parsed env users token hashed w m u :
  dbUp env = true -> redisUp env = true ->
  List.find (fun x => bc token (rr_passwordResetToken x)) users = Some m ->
  findUniqueById (rr_id m) (db w) = Some u ->
  sessions_well_formed (now env) (redis w) ->
  let rp := asyncHandler (resetPassword bc parsed env users token hashed) w in
  outcome rp
  = Responded
      (BodyMessage
         "Password reset successfully. Please log in with your new password.")
  /\ db (after rp) = update_rows (rr_id m) (reset_row hashed) (db w)
  /\ findUniqueById (rr_id m) (db (after rp)) = Some (reset_row hashed u)
  /\ (forall k,
         redis (after rp) !! k
         = if String.prefix "session:" k
              && doomed (now env) (rr_id m) (redis w) k
           then None else redis w !! k)
  /\ (forall sid d,
         redis_get (now env) (redis (after rp)) (session_key sid)
         = Some (VJson d) ->
         s_userId d ≠ rr_id m)
  /\ (forall sid,
         redis (after rp) !! blacklist_key sid
         = redis w !! blacklist_key sid).
Proof.
  intros Hd Hr Hfind Hu Hwf. cbv zeta.
  rewrite (resetPassword_run bc parsed env users token hashed w m u
             Hd Hr Hfind Hu Hwf).
  cbn [outcome after redis db].
  pose proof (swept_sessions_lookup (now env) (rr_id m) (redis w)) as Hlook.
  split; [done|]. split; [done|]. split; [|split; [exact Hlook|split]].
  - rewrite find_id_update by done. rewrite Hu. cbn.
    by rewrite (find_id_Some_id _ _ _ Hu), String.eqb_refl.
  - intros sid d Hget Heq. unfold redis_get, rlive in Hget.
    rewrite Hlook in Hget.
    rewrite session_key_prefix in Hget. cbn [andb] in Hget.
    destruct (doomed (now env) (rr_id m) (redis w) (session_key sid)) eqn:Hdoom;
      [done|].
    unfold doomed, redis_get, rlive in Hdoom.
    destruct (redis w !! session_key sid) as [e|]; [|done].
    destruct (entry_live (now env) e); [|done]. cbn in Hget, Hdoom.
    simplify_eq. rewrite Hget in Hdoom.
    by rewrite Heq, String.eqb_refl in Hdoom.
  - intros sid. rewrite Hlook.
    assert (Hp : String.prefix "session:" (blacklist_key sid) = false)
      by reflexivity.
    by rewrite Hp.
Qed.

(** Alice, locked out, resets her password. *)
Lemma password_reset_ends_registry_sessions_witness :
  findUniqueById "u-alice"
    (db (after (asyncHandler
                  (resetPassword sample_bcrypt (fun _ => inr None)
                     (sample_env 2000 "x") [mkResetRow "u-alice" "bcrypt:tok"]
                     "tok" "bcrypt:new")
                  (mkWorld ∅ [alice_locked]))))
  = Some (reset_row "bcrypt:new" alice_locked).
Proof.
  pose proof (password_reset_ends_registry_sessions sample_bcrypt
                (fun _ => inr None) (sample_env 2000 "x")
                [mkResetRow "u-alice" "bcrypt:tok"] "tok" "bcrypt:new"
                (mkWorld ∅ [alice_locked]) (mkResetRow "u-alice" "bcrypt:tok")
                alice_locked) as H.
  feed 4 H.
  specialize (H ltac:(intros k v _; unfold redis_get, rlive; cbn [redis];
                      rewrite lookup_empty; discriminate)).
  cbv zeta in H. destruct H as (_ & _ & H & _). exact H.
Defined.

(** X30.  A password reset ends the refresh tokens of the account, not
    its access tokens.  After a successful [resetPassword] for an active
    account: a refresh with a token of a session that was live at the
    reset and belonged to the account fails with [SESSION_EXPIRED]; but a
    request that presents an unexpired access token of the account, for a
    session that is not blacklisted, is still accepted by [authenticate]
    and gets the account's identity, also when the account was in a
    lockout before the reset, which the reset lifts. *)
Theorem password_reset_keeps_access_tokens
    bc parsed env users token hashed w m u :
  dbUp env = true -> redisUp env = true ->
  List.find (fun x => bc token (rr_passwordResetToken x)) users = Some m ->
  findUniqueById (rr_id m) (db w) = Some u ->
  sessions_well_formed (now env) (redis w) ->
  u_isActive u = true ->
  let rp := asyncHandler (resetPassword bc parsed env users token hashed) w in
  (forall cfg envR reqR rt p d,
      cookie_refresh reqR = Some rt ->
      jwt_verify rt (refreshSecret cfg) issuer audience (now envR) = JwtOk p ->
      redisUp envR = true ->
      redis_get (now env) (redis w) (session_key (p_sessionId p))
        = Some (VJson d) ->
      s_userId d = rr_id m ->
      outcome (asyncHandler (refreshToken cfg envR reqR) (after rp))
      = NextError (EApp sessionGone))
  /\ (forall cfg envA reqA p,
         token_present (presented_token reqA) = true ->
         jwt_verify (token_value (presented_token reqA)) (accessSecret cfg)
                    issuer audience (now envA) = JwtOk p ->
         p_userId p = rr_id m ->
         redis_get (now envA) (redis w) (blacklist_key (p_sessionId p)) = None ->
         redisUp envA = true -> dbUp envA = true ->
         let rpA := middleware (authenticate cfg envA reqA) (after rp) in
         outcome rpA = NextOk
         /\ user (reply_ctx rpA)
            = Some (mkIdentity (u_id u) (u_email u) (u_role u))).
Proof.
  intros Hd Hr Hfind Hu Hwf Hact. cbv zeta.
  rewrite (resetPassword_run bc parsed env users token hashed w m u
             Hd Hr Hfind Hu Hwf).
  cbn [after].
  pose proof (swept_sessions_lookup (now env) (rr_id m) (redis w)) as Hlook.
  set (w' := mkWorld _ _).
  split.
  - intros cfg envR reqR rt p d Hc Hv HrR Hlive Hown.
    rewrite (refresh_session_gone cfg envR reqR w' rt p Hc Hv HrR); [done|].
    unfold redis_get, rlive. cbn [w' redis].
    rewrite Hlook, session_key_prefix. unfold doomed. rewrite Hlive, Hown.
    by rewrite String.eqb_refl.
  - intros cfg envA reqA p Htok Hv Hp Hbl HrA HdA.
    assert (Hrow : findUniqueById (p_userId p) (db w')
                   = Some (reset_row hashed u)).
    { cbn [w' db]. rewrite Hp, find_id_update by done. rewrite Hu. cbn.
      by rewrite (find_id_Some_id _ _ _ Hu), String.eqb_refl. }
    assert (Hbl' : redis_get (now envA) (redis w') (blacklist_key (p_sessionId p))
                   = None).
    { unfold redis_get, rlive in *. cbn [w' redis]. rewrite Hlook.
      assert (Hpre : String.prefix "session:" (blacklist_key (p_sessionId p))
                     = false) by reflexivity.
      by rewrite Hpre. }
    rewrite (authenticate_accepts cfg envA reqA w' p (reset_row hashed u)
               Htok Hv HrA HdA Hbl' Hrow Hact eq_refl).
    done.
Qed.

(** Alice, locked out, resets her password and keeps her access token. *)
Lemma password_reset_keeps_access_tokens_witness :
  outcome (middleware
             (authenticate sample_cfg (sample_env 3000 "y") with_access_cookie)
             (after (asyncHandler
                       (resetPassword sample_bcrypt (fun _ => inr None)
                          (sample_env 2000 "x")
                          [mkResetRow "u-alice" "bcrypt:tok"]
                          "tok" "bcrypt:new")
                       (mkWorld ∅ [alice_locked]))))
  = NextOk.
Proof.
  pose proof (password_reset_keeps_access_tokens sample_bcrypt
                (fun _ => inr None) (sample_env 2000 "x")
                [mkResetRow "u-alice" "bcrypt:tok"] "tok" "bcrypt:new"
                (mkWorld ∅ [alice_locked]) (mkResetRow "u-alice" "bcrypt:tok")
                alice_locked) as H.
  feed 4 H.
  specialize (H ltac:(intros k v _; unfold redis_get, rlive; cbn [redis];
                      rewrite lookup_empty; discriminate)).
  feed 1 H. cbv zeta in H. destruct H as (_ & H).
  specialize (H sample_cfg (sample_env 3000 "y") with_access_cookie
                access_payload1).
  feed 6 H. destruct H as (H & _). exact H.
Defined.
